(** * Controle de Estacionamento: central server, vehicle billing, slot board,
      plate reader, gates and ground-floor server, embedded from the Python
      sources.

    Definitions, following the modules of the repository:
    - [pyfloat]: Python's [float] (IEEE 754 binary64, round to nearest, ties
      to even) as the rationals it denotes, with the arithmetic the sources
      use ([/], [*], [%], [int()], [max]);
    - [pytime]: [datetime] values, naive or offset-aware, and their
      differences;
    - [veiculo], [evento]: the two model classes;
    - [servidor_central]: the state of [ServidorCentral] with the two
      database tables, event processing and the connection handler;
    - [dicionarios]: [to_dict] and [from_dict] of the two model classes;
    - [placar_service]: the slot board;
    - [lpr_service]: plate capture and validation;
    - [cancela_service]: a gate and its cycle;
    - [servidor_terreo]: the entry and exit machines of the ground floor and
      the slot monitor;
    - [exemplos]: the concrete values the examples run on.

    Properties: billing (with the float lemmas it needs), the central
    server, the slot board and plate validation; then further properties of
    each, of the dictionary forms, of the gate, and of the ground-floor
    server alone and against the central server.

    Logging has no effect on any state and is left out.  Each coroutine
    runs to its end before another one touches the server object, so a call
    is a function from the state before to the reply and the state after;
    what the surroundings decide during a call (the clock, whether SQLite
    and the socket work, what the random generator draws, whether the peer
    answers) is an argument of the call.  An exception is a result like
    another, together with the state the statements before it have left;
    so is a call of the ground-floor server that waits for the central
    server and never returns. *)

From Stdlib Require Import ZArith QArith Qround Qreduction Qminmax Qpower.
From Stdlib Require Import Lqa Lia.
From stdpp Require Import gmap strings list fin_maps.

Local Open Scope Z_scope.

(* ===================================================================== *)
(** ** Python floats *)
(* ===================================================================== *)

Module pyfloat.

(** A finite binary64 value is represented by the rational it denotes.
    Every arithmetic operation computes the exact rational result and rounds
    it with [RN].  Overflow to infinity and NaN are outside the model. *)
Definition float := Q.

Definition prec : Z := 53.
Definition emin : Z := -1074.

(** [n / d / 2^e] as the fraction [scaled_num n e / scaled_den d e]. *)
Definition scaled_num (n e : Z) : Z := n * 2 ^ Z.max 0 (- e).
Definition scaled_den (d e : Z) : Z := d * 2 ^ Z.max 0 e.

(** Floor of the binary logarithm of [n / d], for positive [n] and [d]. *)
Definition ilog2 (n d : Z) : Z :=
  let l := Z.log2 n - Z.log2 d in
  if scaled_num n l <? scaled_den d l then l - 1 else l.

(** Nearest integer to [a / b] ([b > 0]), ties to the even one. *)
Definition round_half_even (a b : Z) : Z :=
  let q := a / b in
  match 2 * (a mod b) ?= b with
  | Lt => q
  | Gt => q + 1
  | Eq => if Z.even q then q else q + 1
  end.

(** [2^e] for any integer [e]. *)
Definition bpow (e : Z) : Q := 2 ^ Z.max 0 e # Z.to_pos (2 ^ Z.max 0 (- e)).

(** Exponent of the unit in the last place of [n / d]: 53 significant bits,
    gradual underflow below [2^-1022]. *)
Definition ulp_exp (n d : Z) : Z := Z.max (ilog2 n d - (prec - 1)) emin.

Definition RNpos (n d : Z) : Q :=
  let e := ulp_exp n d in
  let m := round_half_even (scaled_num n e) (scaled_den d e) in
  Qred (inject_Z m * bpow e).

(** Round to nearest, ties to even. *)
Definition RN (q : Q) : float :=
  let r := Qred q in
  match Qnum r with
  | 0 => 0%Q
  | Zpos _ => RNpos (Qnum r) (Zpos (Qden r))
  | Zneg p => Qopp (RNpos (Zpos p) (Zpos (Qden r)))
  end.

(** [float(z)], and the conversion an [int] operand undergoes in mixed
    arithmetic. *)
Definition of_int (z : Z) : float := RN (inject_Z z).

(** [a / b] on two [int]s (true division), [b <> 0]. *)
Definition int_truediv (a b : Z) : float := RN (inject_Z a / inject_Z b).

(** [x / y] and [x * y] on floats. *)
Definition div (x y : float) : float := RN (x / y).
Definition mul (x y : float) : float := RN (x * y).

(** [int(x)]: truncation towards zero. *)
Definition trunc (x : float) : Z := Z.quot (Qnum x) (Zpos (Qden x)).

(** C [fmod]: the remainder has the sign of [x] and is exact. *)
Definition fmod (x y : float) : Q := (x - y * inject_Z (trunc (x / y)))%Q.

Definition Qltb (x y : Q) : bool :=
  match (x ?= y)%Q with Lt => true | _ => false end.

Definition Qeqb (x y : Q) : bool :=
  match (x ?= y)%Q with Eq => true | _ => false end.

(** [x % y] on floats: [fmod], moved into the sign of [y] by one rounded
    addition when the signs differ. *)
Definition mod_ (x y : float) : float :=
  let m := fmod x y in
  if Qeqb m 0 then 0%Q
  else if negb (Bool.eqb (Qltb y 0) (Qltb m 0)) then RN (m + y) else m.

(** [max(a, b)] with two arguments: [b] only when it is strictly greater. *)
Definition max (a b : float) : float := if Qltb a b then b else a.

End pyfloat.

(* ===================================================================== *)
(** ** Datetimes *)
(* ===================================================================== *)

Module pytime.

(** A [timedelta] is a signed number of microseconds. *)
Definition timedelta := Z.

(** A [datetime] is what its fields read, as a number of microseconds
    since 0001-01-01T00:00:00, together with its UTC offset when it
    carries one: [utcoffset] is [None] for a naive datetime, as
    [datetime.now()] gives, and [Some] for an offset-aware one, as
    [datetime.fromisoformat] gives for a text that ends in an offset. *)
Record datetime := mkdatetime {
  relogio : Z;
  utcoffset : option timedelta
}.

#[export] Instance datetime_eq_dec : EqDecision datetime.
Proof. solve_decision. Defined.

Definition naive (relogio : Z) : datetime :=
  {| relogio := relogio; utcoffset := None |}.

(** One microsecond past [datetime.max] (9999-12-31T23:59:59.999999), and
    one day: an offset lies strictly within a day of zero. *)
Definition datetime_end : Z := 3652059 * 86400 * 1000000.
Definition dia : Z := 86400 * 1000000.

Definition valid (t : datetime) : Prop :=
  0 <= relogio t < datetime_end
  /\ match utcoffset t with
     | None => True
     | Some o => - dia < o < dia
     end.

(** [a - b]: the difference of the readings when both are naive, the
    difference of the instants when both are aware; [None] is the
    [TypeError] raised when one is naive and the other aware. *)
Definition sub (a b : datetime) : option timedelta :=
  match utcoffset a, utcoffset b with
  | None, None => Some (relogio a - relogio b)
  | Some oa, Some ob => Some (relogio a - relogio b + ob - oa)
  | _, _ => None
  end.

(** [timedelta.total_seconds()]: the microsecond count divided by [10**6]
    with [int] true division. *)
Definition total_seconds (d : timedelta) : pyfloat.float :=
  pyfloat.int_truediv d 1000000.

(** One minute in microseconds, and the elapsed time, [2^34] seconds in
    microseconds, below which [total_seconds] still tells whole minutes from
    the rest. *)
Definition minuto : Z := 60000000.
Definition limite : Z := 2 ^ 34 * 1000000.

(** [datetime(y, 1, 1, 0, 0, 0, us)] needs the day number of January 1st. *)
Definition days_before_year (y : Z) : Z :=
  let p := y - 1 in p * 365 + p / 4 - p / 100 + p / 400.

Definition jan1 (y : Z) (us : Z) : datetime :=
  naive (days_before_year y * 86400 * 1000000 + us).

(** [datetime(2024, 1, 1, h, m, s)], the day of the repository's tests. *)
Definition on_2024_01_01 (h m s : Z) : datetime :=
  jan1 2024 (((h * 60 + m) * 60 + s) * 1000000).

(** The same reading with an offset of [horas] hours: what
    [fromisoformat] makes of a text such as [2024-01-01T10:30:00+00:00]. *)
Definition com_offset (horas : Z) (t : datetime) : datetime :=
  {| relogio := relogio t; utcoffset := Some (horas * 3600 * 1000000) |}.

End pytime.

(* ===================================================================== *)
(** ** models/veiculo.py *)
(* ===================================================================== *)

Module veiculo.
Import pytime.

Inductive StatusVeiculo := ESTACIONADO | SAIU | BLOQUEADO.

Record Veiculo := mkVeiculo {
  placa : string;
  timestamp_entrada : datetime;
  timestamp_saida : option datetime;
  andar : string;
  vaga : option Z;
  status : StatusVeiculo;
  valor_calculado : option pyfloat.float;
  tempo_permanencia_minutos : option Z
}.

(** [Veiculo(placa, timestamp_entrada, andar)]. *)
Definition __init__ (placa : string) (timestamp_entrada : datetime)
    (andar : string) (vaga : option Z) : Veiculo :=
  {| placa := placa;
     timestamp_entrada := timestamp_entrada;
     timestamp_saida := None;
     andar := andar;
     vaga := vaga;
     status := ESTACIONADO;
     valor_calculado := None;
     tempo_permanencia_minutos := None |}.

(** The minutes [calcular_tempo_permanencia] makes of a difference
    [delta]. *)
Definition minutos_do_delta (delta : timedelta) : Z :=
  let minutos :=
    pyfloat.trunc (pyfloat.div (total_seconds delta) (pyfloat.of_int 60)) in
  if pyfloat.Qltb (pyfloat.of_int 0)
       (pyfloat.mod_ (total_seconds delta) (pyfloat.of_int 60))
  then minutos + 1
  else minutos.

(** The argument [timestamp_saida] of the two methods below is written
    [t_saida]; the field keeps the name.  [None] is the [TypeError] of the
    subtraction in the first line. *)
Definition calcular_tempo_permanencia (self : Veiculo)
    (t_saida : datetime) : option Z :=
  match sub t_saida (timestamp_entrada self) with
  | None => None
  | Some delta => Some (minutos_do_delta delta)
  end.

Definition calcular_valor (self : Veiculo)
    (preco_por_minuto valor_minimo : pyfloat.float) : pyfloat.float :=
  match tempo_permanencia_minutos self with
  | None => valor_minimo
  | Some t =>
      let valor := pyfloat.mul (pyfloat.of_int t) preco_por_minuto in
      pyfloat.max valor valor_minimo
  end.

(** The assignments [veiculo.timestamp_saida = t] and
    [veiculo.tempo_permanencia_minutos = t]. *)
Definition set_timestamp_saida (t : option datetime) (self : Veiculo)
    : Veiculo :=
  {| placa := placa self;
     timestamp_entrada := timestamp_entrada self;
     timestamp_saida := t;
     andar := andar self;
     vaga := vaga self;
     status := status self;
     valor_calculado := valor_calculado self;
     tempo_permanencia_minutos := tempo_permanencia_minutos self |}.

Definition set_tempo_permanencia_minutos (t : option Z) (self : Veiculo)
    : Veiculo :=
  {| placa := placa self;
     timestamp_entrada := timestamp_entrada self;
     timestamp_saida := timestamp_saida self;
     andar := andar self;
     vaga := vaga self;
     status := status self;
     valor_calculado := valor_calculado self;
     tempo_permanencia_minutos := t |}.

(** The exact seconds of a difference, and the number of minutes billing
    is meant to use: their sixtieth, rounded up. *)
Definition segundos_decorridos (delta : timedelta) : Q :=
  (inject_Z delta / 1000000)%Q.

Definition minutos_arredondados (delta : timedelta) : Z :=
  Qceiling (segundos_decorridos delta / 60).

(** The dictionary [processar_saida] returns. *)
Record ResultadoSaida := mkResultadoSaida {
  r_placa : string;
  r_tempo_permanencia_minutos : option Z;
  r_valor_calculado : option pyfloat.float;
  r_timestamp_entrada : datetime;
  r_timestamp_saida : option datetime
}.

(** [processar_saida] updates the object in place and returns the summary:
    the pair is (the object afterwards, the returned dictionary).  When the
    subtraction raises, [timestamp_saida] has already been assigned: the
    object keeps it, and there is no dictionary. *)
Definition processar_saida (self : Veiculo) (t_saida : datetime)
    (preco_por_minuto valor_minimo : pyfloat.float)
    : Veiculo * option ResultadoSaida :=
  let self0 := set_timestamp_saida (Some t_saida) self in
  match calcular_tempo_permanencia self0 t_saida with
  | None => (self0, None)
  | Some minutos =>
      let self1 := set_tempo_permanencia_minutos (Some minutos) self0 in
      let self2 :=
        {| placa := placa self1;
           timestamp_entrada := timestamp_entrada self1;
           timestamp_saida := timestamp_saida self1;
           andar := andar self1;
           vaga := vaga self1;
           status := SAIU;
           valor_calculado :=
             Some (calcular_valor self1 preco_por_minuto valor_minimo);
           tempo_permanencia_minutos := tempo_permanencia_minutos self1 |} in
      (self2,
       Some {| r_placa := placa self2;
               r_tempo_permanencia_minutos := tempo_permanencia_minutos self2;
               r_valor_calculado := valor_calculado self2;
               r_timestamp_entrada := timestamp_entrada self2;
               r_timestamp_saida := timestamp_saida self2 |})
  end.

End veiculo.

(* ===================================================================== *)
(** ** models/evento.py *)
(* ===================================================================== *)

Module evento.
Import pytime.

Inductive TipoEvento := ENTRADA | SAIDA | ERRO | MANUTENCAO.

(** [TipoEvento.value]. *)
Definition TipoEvento_value (t : TipoEvento) : string :=
  match t with
  | ENTRADA => "entrada"
  | SAIDA => "saida"
  | ERRO => "erro"
  | MANUTENCAO => "manutencao"
  end.

(** [TipoEvento(s)]: lookup by value; [None] is the [ValueError]. *)
Definition TipoEvento_of_value (s : string) : option TipoEvento :=
  if String.eqb s "entrada" then Some ENTRADA
  else if String.eqb s "saida" then Some SAIDA
  else if String.eqb s "erro" then Some ERRO
  else if String.eqb s "manutencao" then Some MANUTENCAO
  else None.

Inductive StatusEvento := PENDENTE | PROCESSANDO | CONCLUIDO | ERRO_STATUS.

(** The plate of an event is the value of the request's [placa] key.  The
    protocol makes it a string; the code takes any JSON value and uses it
    as a dictionary key, which an array or an object cannot be
    ([TypeError: unhashable type]).  A value that can be a key stands here
    as the string that names the key. *)
Inductive Placa :=
  | str (s : string)
  | nao_hashable.

Record Evento := mkEvento {
  id : option string;
  placa : Placa;
  tipo : TipoEvento;
  timestamp : datetime;
  confianca_lpr : pyfloat.float;
  andar : string;
  status : StatusEvento;
  valor_calculado : option pyfloat.float;
  tempo_permanencia_minutos : option Z;
  erro_descricao : option string
}.

(** [Evento(placa=..., tipo=..., timestamp=..., confianca_lpr=...,
    andar=...)] with the remaining arguments at their defaults. *)
Definition __init__ (placa : Placa) (tipo : TipoEvento)
    (timestamp : datetime) (confianca_lpr : pyfloat.float) (andar : string)
    : Evento :=
  {| id := None;
     placa := placa;
     tipo := tipo;
     timestamp := timestamp;
     confianca_lpr := confianca_lpr;
     andar := andar;
     status := PENDENTE;
     valor_calculado := None;
     tempo_permanencia_minutos := None;
     erro_descricao := None |}.

(** The [acao] strings the server sends. *)
Inductive Acao :=
  abrir_cancela | cobrar_valor | negar_entrada | negar_saida | erro.

(** What an exception raised while the event is built or processed says
    about itself ([str(e)] is sent as the message): subscripting a JSON
    value that is not an object, a missing key, an unknown kind, a text
    that is not a timestamp, a plate that cannot be a dictionary key, and
    the difference of a naive and an offset-aware datetime. *)
Inductive Excecao :=
  | TypeError
  | KeyError (chave : string)
  | ValueError_tipo (valor : string)
  | ValueError_isoformat (texto : string)
  | TypeError_unhashable
  | TypeError_naive_aware.

(** The message texts of the server.  The two texts that interpolate a
    value keep it as an argument. *)
Inductive Mensagem :=
  | Estacionamento_fechado
  | Andar_bloqueado
  | Tipo_de_evento_nao_suportado (valor : string)
  | Veiculo_ja_esta_estacionado
  | Entrada_autorizada
  | Veiculo_nao_encontrado
  | Valor_a_pagar (valor : option pyfloat.float)
  | str_excecao (e : Excecao).

(** Event identifiers: [str(cursor.lastrowid)] when the row was stored,
    [f"evt_{datetime.now().timestamp()}"] otherwise. *)
Inductive EventoId :=
  | id_linha (lastrowid : Z)
  | id_local (agora : pyfloat.float).

Record EventoResposta := mkEventoResposta {
  evento_id : EventoId;
  sucesso : bool;
  acao : Acao;
  valor : option pyfloat.float;
  tempo_permanencia : option Z;
  mensagem : option Mensagem
}.

End evento.

(* ===================================================================== *)
(** ** servidor_central.py *)
(* ===================================================================== *)

Module servidor_central.
Import pytime evento.

(** *** Inbound data *)

(** The text of a timestamp field, by what [datetime.fromisoformat] makes of
    it: a datetime, or a [ValueError]. *)
Inductive TextoIso :=
  | iso (t : datetime)
  | nao_iso (texto : string).

(** The JSON object of a request, with the fields the server reads; [None]
    is an absent key.  Fields are typed as the protocol gives them, the
    plate apart. *)
Record Dados := mkDados {
  d_placa : option Placa;
  d_tipo : option string;
  d_timestamp : option TextoIso;
  d_confianca_lpr : option pyfloat.float;
  d_andar : option string
}.

(** What [json.loads] returns: an object, or any other JSON value (on which
    [dados["placa"]] raises [TypeError]). *)
Inductive Json :=
  | objeto (d : Dados)
  | outro_valor.

(** *** Exceptions *)

Definition Talvez (A : Type) : Type := Excecao + A.

Definition levanta {A} (e : Excecao) : Talvez A := inl e.
Definition retorna {A} (a : A) : Talvez A := inr a.

Definition liga {A B} (m : Talvez A) (k : A -> Talvez B) : Talvez B :=
  match m with
  | inl e => inl e
  | inr a => k a
  end.

Notation "x <- m ;; k" := (liga m (fun x => k))
  (at level 100, m at next level, right associativity).

(** [dados[chave]] on an object. *)
Definition item {A} (chave : string) (campo : option A) : Talvez A :=
  match campo with
  | Some a => retorna a
  | None => levanta (KeyError chave)
  end.

Definition fromisoformat (texto : TextoIso) : Talvez datetime :=
  match texto with
  | iso t => retorna t
  | nao_iso s => levanta (ValueError_isoformat s)
  end.

Definition TipoEvento_ (valor : string) : Talvez TipoEvento :=
  match TipoEvento_of_value valor with
  | Some t => retorna t
  | None => levanta (ValueError_tipo valor)
  end.

(** The [Evento(...)] construction that opens [_processar_evento]; the
    keyword arguments are evaluated in the order they are written. *)
Definition criar_evento (dados : Json) : Talvez Evento :=
  match dados with
  | outro_valor => levanta TypeError
  | objeto d =>
      placa <- item "placa" (d_placa d) ;;
      valor_tipo <- item "tipo" (d_tipo d) ;;
      tipo <- TipoEvento_ valor_tipo ;;
      texto <- item "timestamp" (d_timestamp d) ;;
      timestamp <- fromisoformat texto ;;
      confianca_lpr <- item "confianca_lpr" (d_confianca_lpr d) ;;
      retorna (evento.__init__ placa tipo timestamp confianca_lpr
                 (default "terreo" (d_andar d)))
  end.

(** *** State *)

(** The server object together with the two tables of the SQLite file at
    [db_path].  A table is the list of its rows in insertion order; row
    identifiers count from 1 and rows are never deleted. *)
Record ServidorCentral := mkServidorCentral {
  preco_por_minuto : pyfloat.float;
  valor_minimo : pyfloat.float;
  veiculos_estacionados : gmap string veiculo.Veiculo;
  estacionamento_fechado : bool;
  andar_bloqueado : bool;
  tabela_eventos : list Evento;
  tabela_veiculos : list veiculo.Veiculo
}.

Definition set_veiculos_estacionados (m : gmap string veiculo.Veiculo)
    (self : ServidorCentral) : ServidorCentral :=
  {| preco_por_minuto := preco_por_minuto self;
     valor_minimo := valor_minimo self;
     veiculos_estacionados := m;
     estacionamento_fechado := estacionamento_fechado self;
     andar_bloqueado := andar_bloqueado self;
     tabela_eventos := tabela_eventos self;
     tabela_veiculos := tabela_veiculos self |}.

Definition set_estacionamento_fechado (b : bool) (self : ServidorCentral)
    : ServidorCentral :=
  {| preco_por_minuto := preco_por_minuto self;
     valor_minimo := valor_minimo self;
     veiculos_estacionados := veiculos_estacionados self;
     estacionamento_fechado := b;
     andar_bloqueado := andar_bloqueado self;
     tabela_eventos := tabela_eventos self;
     tabela_veiculos := tabela_veiculos self |}.

Definition set_andar_bloqueado (b : bool) (self : ServidorCentral)
    : ServidorCentral :=
  {| preco_por_minuto := preco_por_minuto self;
     valor_minimo := valor_minimo self;
     veiculos_estacionados := veiculos_estacionados self;
     estacionamento_fechado := estacionamento_fechado self;
     andar_bloqueado := b;
     tabela_eventos := tabela_eventos self;
     tabela_veiculos := tabela_veiculos self |}.

Definition set_tabela_eventos (l : list Evento) (self : ServidorCentral)
    : ServidorCentral :=
  {| preco_por_minuto := preco_por_minuto self;
     valor_minimo := valor_minimo self;
     veiculos_estacionados := veiculos_estacionados self;
     estacionamento_fechado := estacionamento_fechado self;
     andar_bloqueado := andar_bloqueado self;
     tabela_eventos := l;
     tabela_veiculos := tabela_veiculos self |}.

Definition set_tabela_veiculos (l : list veiculo.Veiculo)
    (self : ServidorCentral) : ServidorCentral :=
  {| preco_por_minuto := preco_por_minuto self;
     valor_minimo := valor_minimo self;
     veiculos_estacionados := veiculos_estacionados self;
     estacionamento_fechado := estacionamento_fechado self;
     andar_bloqueado := andar_bloqueado self;
     tabela_eventos := tabela_eventos self;
     tabela_veiculos := l |}.

(** [ServidorCentral()] with the configured prices, on the tables the
    database file already holds. *)
Definition __init__ (preco_por_minuto valor_minimo : pyfloat.float)
    (eventos : list Evento) (veiculos : list veiculo.Veiculo)
    : ServidorCentral :=
  {| preco_por_minuto := preco_por_minuto;
     valor_minimo := valor_minimo;
     veiculos_estacionados := ∅;
     estacionamento_fechado := false;
     andar_bloqueado := false;
     tabela_eventos := eventos;
     tabela_veiculos := veiculos |}.

(** What the surroundings decide during one request: the clock read for a
    local identifier, whether the SQLite statements on each table go
    through, and whether the reply can be written to the socket. *)
Record Ambiente := mkAmbiente {
  agora : pyfloat.float;
  sqlite_eventos_ok : bool;
  sqlite_veiculos_ok : bool;
  escrita_ok : bool
}.

(** *** Persistence *)

Definition _salvar_evento (amb : Ambiente) (self : ServidorCentral)
    (ev : Evento) : EventoId * ServidorCentral :=
  if sqlite_eventos_ok amb then
    let linhas := tabela_eventos self ++ [ev] in
    (id_linha (Z.of_nat (length linhas)), set_tabela_eventos linhas self)
  else
    (id_local (agora amb), self).

Definition _salvar_veiculo (amb : Ambiente) (self : ServidorCentral)
    (v : veiculo.Veiculo) : ServidorCentral :=
  if sqlite_veiculos_ok amb then
    set_tabela_veiculos (tabela_veiculos self ++ [v]) self
  else self.

(** [UPDATE veiculos SET ... WHERE placa = ? AND timestamp_entrada = ?]. *)
Definition atualizar_linha (v linha : veiculo.Veiculo) : veiculo.Veiculo :=
  if String.eqb (veiculo.placa linha) (veiculo.placa v)
     && bool_decide
          (veiculo.timestamp_entrada linha = veiculo.timestamp_entrada v)
  then
    {| veiculo.placa := veiculo.placa linha;
       veiculo.timestamp_entrada := veiculo.timestamp_entrada linha;
       veiculo.timestamp_saida := veiculo.timestamp_saida v;
       veiculo.andar := veiculo.andar linha;
       veiculo.vaga := veiculo.vaga linha;
       veiculo.status := veiculo.status v;
       veiculo.valor_calculado := veiculo.valor_calculado v;
       veiculo.tempo_permanencia_minutos :=
         veiculo.tempo_permanencia_minutos v |}
  else linha.

Definition _atualizar_veiculo (amb : Ambiente) (self : ServidorCentral)
    (v : veiculo.Veiculo) : ServidorCentral :=
  if sqlite_veiculos_ok amb then
    set_tabela_veiculos (map (atualizar_linha v) (tabela_veiculos self)) self
  else self.

(** *** Event processing *)

Definition set_status (s : StatusEvento) (ev : Evento) : Evento :=
  {| id := id ev;
     placa := placa ev;
     tipo := tipo ev;
     timestamp := timestamp ev;
     confianca_lpr := confianca_lpr ev;
     andar := andar ev;
     status := s;
     valor_calculado := valor_calculado ev;
     tempo_permanencia_minutos := tempo_permanencia_minutos ev;
     erro_descricao := erro_descricao ev |}.

Definition set_valores (valor : option pyfloat.float) (tempo : option Z)
    (ev : Evento) : Evento :=
  {| id := id ev;
     placa := placa ev;
     tipo := tipo ev;
     timestamp := timestamp ev;
     confianca_lpr := confianca_lpr ev;
     andar := andar ev;
     status := status ev;
     valor_calculado := valor;
     tempo_permanencia_minutos := tempo;
     erro_descricao := erro_descricao ev |}.

(** [EventoResposta(evento_id=..., sucesso=..., acao=..., mensagem=...)]. *)
Definition resposta (i : EventoId) (sucesso : bool) (acao : Acao)
    (mensagem : Mensagem) : EventoResposta :=
  {| evento_id := i;
     sucesso := sucesso;
     acao := acao;
     valor := None;
     tempo_permanencia := None;
     mensagem := Some mensagem |}.

(** The two branches below return a reply or raise; either way the state
    is what the statements run so far have made of it. *)
Definition _processar_entrada (amb : Ambiente) (self : ServidorCentral)
    (ev : Evento) : Talvez EventoResposta * ServidorCentral :=
  match placa ev with
  | nao_hashable => (levanta TypeError_unhashable, self)
  | str placa =>
      match veiculos_estacionados self !! placa with
      | Some _ =>
          let '(i, self) := _salvar_evento amb self ev in
          (retorna (resposta i false negar_entrada
                      Veiculo_ja_esta_estacionado), self)
      | None =>
          let v := veiculo.__init__ placa (timestamp ev) (andar ev) None in
          let self :=
            set_veiculos_estacionados
              (<[placa := v]> (veiculos_estacionados self)) self in
          let ev := set_status CONCLUIDO ev in
          let '(i, self) := _salvar_evento amb self ev in
          let self := _salvar_veiculo amb self v in
          (retorna (resposta i true abrir_cancela Entrada_autorizada), self)
      end
  end.

(** [veiculo] is the object the map holds: what [processar_saida] has
    assigned before it raises stays in the map. *)
Definition _processar_saida (amb : Ambiente) (self : ServidorCentral)
    (ev : Evento) : Talvez EventoResposta * ServidorCentral :=
  match placa ev with
  | nao_hashable => (levanta TypeError_unhashable, self)
  | str placa =>
      match veiculos_estacionados self !! placa with
      | None =>
          let '(i, self) := _salvar_evento amb self ev in
          (retorna (resposta i false negar_saida Veiculo_nao_encontrado),
           self)
      | Some v =>
          match veiculo.processar_saida v (timestamp ev)
                  (preco_por_minuto self) (valor_minimo self) with
          | (v, None) =>
              (levanta TypeError_naive_aware,
               set_veiculos_estacionados
                 (<[placa := v]> (veiculos_estacionados self)) self)
          | (v, Some resultado) =>
              let ev :=
                set_status CONCLUIDO
                  (set_valores (veiculo.r_valor_calculado resultado)
                     (veiculo.r_tempo_permanencia_minutos resultado) ev) in
              let self :=
                set_veiculos_estacionados
                  (delete placa (veiculos_estacionados self)) self in
              let '(i, self) := _salvar_evento amb self ev in
              let self := _atualizar_veiculo amb self v in
              (retorna
                 {| evento_id := i;
                    sucesso := true;
                    acao := cobrar_valor;
                    valor := veiculo.r_valor_calculado resultado;
                    tempo_permanencia :=
                      veiculo.r_tempo_permanencia_minutos resultado;
                    mensagem :=
                      Some (Valor_a_pagar
                              (veiculo.r_valor_calculado resultado)) |},
               self)
          end
      end
  end.

(** [except Exception as e] of [_processar_evento]: an exception becomes
    the error reply. *)
Definition except_Exception (amb : Ambiente)
    (r : Talvez EventoResposta * ServidorCentral)
    : EventoResposta * ServidorCentral :=
  match r.1 with
  | inl e => (resposta (id_local (agora amb)) false erro (str_excecao e), r.2)
  | inr resp => (resp, r.2)
  end.

Definition _processar_evento (amb : Ambiente) (self : ServidorCentral)
    (dados : Json) : EventoResposta * ServidorCentral :=
  match criar_evento dados with
  | inl e => except_Exception amb (levanta e, self)
  | inr ev =>
      if estacionamento_fechado self then
        (resposta (id_local (agora amb)) false negar_entrada
           Estacionamento_fechado, self)
      else if andar_bloqueado self && String.eqb (andar ev) "terreo" then
        (resposta (id_local (agora amb)) false negar_entrada
           Andar_bloqueado, self)
      else
        match tipo ev with
        | ENTRADA => except_Exception amb (_processar_entrada amb self ev)
        | SAIDA => except_Exception amb (_processar_saida amb self ev)
        | _ =>
            (resposta (id_local (agora amb)) false erro
               (Tipo_de_evento_nao_suportado (TipoEvento_value (tipo ev))),
             self)
        end
  end.

(** *** Administrative operations *)

Definition fechar_estacionamento := set_estacionamento_fechado true.
Definition abrir_estacionamento := set_estacionamento_fechado false.
Definition bloquear_andar := set_andar_bloqueado true.
Definition desbloquear_andar := set_andar_bloqueado false.

(** *** Connection handler *)

(** What one [await reader.read(1024)] of the loop brings, by the way the
    loop body treats it. *)
Inductive Leitura :=
  | fim_do_fluxo                            (* [b''] *)
  | leitura_falhou                          (* [read] raises *)
  | bytes_nao_utf8                          (* [decode] raises *)
  | json_invalido (mensagem : string)       (* [json.loads] raises *)
  | json_valido (dados : Json).

(** The connection as the handler leaves it: the reply lines written so far
    and whether [writer.close()] has run.  The list [clientes_conectados]
    only mirrors which connections are open and is not kept. *)
Record Conexao := mkConexao {
  respostas_escritas : list EventoResposta;
  fechada : bool
}.

Definition conexao_aberta : Conexao :=
  {| respostas_escritas := []; fechada := false |}.

Definition fechar (con : Conexao) : Conexao :=
  {| respostas_escritas := respostas_escritas con; fechada := true |}.

Definition escrever (r : EventoResposta) (con : Conexao) : Conexao :=
  {| respostas_escritas := respostas_escritas con ++ [r];
     fechada := fechada con |}.

(** One turn of the [while True] loop on an open connection. *)
Definition iteracao (amb : Ambiente) (self : ServidorCentral) (con : Conexao)
    (l : Leitura) : ServidorCentral * Conexao :=
  match l with
  | fim_do_fluxo => (self, fechar con)
  | leitura_falhou => (self, fechar con)
  | bytes_nao_utf8 => (self, fechar con)
  | json_invalido _ => (self, con)
  | json_valido dados =>
      let '(r, self) := _processar_evento amb self dados in
      if escrita_ok amb then (self, escrever r con) else (self, con)
  end.

(** The handler over what the successive reads bring; it stops at the first
    read that closes the connection, and otherwise waits for the next. *)
Fixpoint _handle_cliente (self : ServidorCentral) (con : Conexao)
    (leituras : list (Ambiente * Leitura)) : ServidorCentral * Conexao :=
  match leituras with
  | [] => (self, con)
  | (amb, l) :: resto =>
      let '(self, con) := iteracao amb self con l in
      if fechada con then (self, con) else _handle_cliente self con resto
  end.

(** Successive requests, one call of [_processar_evento] each, as the event
    loop serves them; the replies come in the same order. *)
Fixpoint processar_todos (self : ServidorCentral)
    (pedidos : list (Ambiente * Json))
    : list EventoResposta * ServidorCentral :=
  match pedidos with
  | [] => ([], self)
  | (amb, dados) :: resto =>
      let '(r, self) := _processar_evento amb self dados in
      let '(rs, self) := processar_todos self resto in
      (r :: rs, self)
  end.

(** Every entry of the parked map is a vehicle filed under its own plate
    that has not left: parked status, no fee and no duration.  It carries
    an exit timestamp only when an exit raised on it, and that timestamp
    is one the entry timestamp cannot be subtracted from. *)
Definition registro_estacionado (placa : string) (v : veiculo.Veiculo)
    : Prop :=
  veiculo.placa v = placa
  /\ veiculo.status v = veiculo.ESTACIONADO
  /\ veiculo.valor_calculado v = None
  /\ veiculo.tempo_permanencia_minutos v = None
  /\ forall t, veiculo.timestamp_saida v = Some t ->
       sub t (veiculo.timestamp_entrada v) = None.

(** The reads of a connection on which each message is a request that
    parses as JSON. *)
Definition ler_pedidos (pedidos : list (Ambiente * Json))
    : list (Ambiente * Leitura) :=
  (fun p => (p.1, json_valido p.2)) <$> pedidos.

(** Two states with the same administrative flags and prices. *)
Definition mesma_configuracao (a b : ServidorCentral) : Prop :=
  estacionamento_fechado a = estacionamento_fechado b
  /\ andar_bloqueado a = andar_bloqueado b
  /\ preco_por_minuto a = preco_por_minuto b
  /\ valor_minimo a = valor_minimo b.

(** What a reply decides, apart from the identifier it carries. *)
Definition decisao (r : EventoResposta)
    : bool * Acao * option pyfloat.float * option Z * option Mensagem :=
  (sucesso r, acao r, valor r, tempo_permanencia r, mensagem r).

#[export] Instance Acao_eq_dec : EqDecision Acao.
Proof. solve_decision. Defined.

(** How many replies carry a given action. *)
Definition contar_acao (a : Acao) (rs : list EventoResposta) : nat :=
  length (filter (fun r => acao r = a) rs).

End servidor_central.

(* ===================================================================== *)
(** ** The dictionary forms of the model classes *)
(* ===================================================================== *)

Module dicionarios.
Import pytime evento servidor_central.

(** What [from_dict] can raise. *)
Inductive ErroDict :=
  | KeyError_ (chave : string)
  | ValueError_enum (classe valor : string)
  | ValueError_iso (texto : string).

Definition ligar {E A B} (m : E + A) (k : A -> E + B) : E + B :=
  match m with
  | inl e => inl e
  | inr a => k a
  end.

Notation "x <-- m ;; k" := (ligar m (fun x => k))
  (at level 100, m at next level, right associativity).

(** [data[chave]]. *)
Definition obrigatorio {A} (chave : string) (campo : option A)
    : ErroDict + A :=
  match campo with
  | Some a => inr a
  | None => inl (KeyError_ chave)
  end.

(** [data.get(chave)] on a key whose value may be [None]. *)
Definition opcional {A} (campo : option (option A)) : option A :=
  match campo with
  | Some a => a
  | None => None
  end.

Definition de_iso (texto : TextoIso) : ErroDict + datetime :=
  match texto with
  | iso t => inr t
  | nao_iso s => inl (ValueError_iso s)
  end.

(** *** StatusVeiculo and StatusEvento by value *)

Definition StatusVeiculo_value (s : veiculo.StatusVeiculo) : string :=
  match s with
  | veiculo.ESTACIONADO => "estacionado"
  | veiculo.SAIU => "saiu"
  | veiculo.BLOQUEADO => "bloqueado"
  end.

Definition StatusVeiculo_ (valor : string)
    : ErroDict + veiculo.StatusVeiculo :=
  if String.eqb valor "estacionado" then inr veiculo.ESTACIONADO
  else if String.eqb valor "saiu" then inr veiculo.SAIU
  else if String.eqb valor "bloqueado" then inr veiculo.BLOQUEADO
  else inl (ValueError_enum "StatusVeiculo" valor).

Definition StatusEvento_value (s : StatusEvento) : string :=
  match s with
  | PENDENTE => "pendente"
  | PROCESSANDO => "processando"
  | CONCLUIDO => "concluido"
  | ERRO_STATUS => "erro"
  end.

Definition StatusEvento_ (valor : string) : ErroDict + StatusEvento :=
  if String.eqb valor "pendente" then inr PENDENTE
  else if String.eqb valor "processando" then inr PROCESSANDO
  else if String.eqb valor "concluido" then inr CONCLUIDO
  else if String.eqb valor "erro" then inr ERRO_STATUS
  else inl (ValueError_enum "StatusEvento" valor).

Definition TipoEvento_dict (valor : string) : ErroDict + TipoEvento :=
  match TipoEvento_of_value valor with
  | Some t => inr t
  | None => inl (ValueError_enum "TipoEvento" valor)
  end.

(** *** Veiculo *)

(** A dictionary with the keys of [Veiculo.to_dict]; [None] is an absent
    key, and the value of a key that may hold [None] is itself an option. *)
Record DictVeiculo := mkDictVeiculo {
  dv_placa : option string;
  dv_timestamp_entrada : option TextoIso;
  dv_timestamp_saida : option (option TextoIso);
  dv_andar : option string;
  dv_vaga : option (option Z);
  dv_status : option string;
  dv_valor_calculado : option (option pyfloat.float);
  dv_tempo_permanencia_minutos : option (option Z)
}.

Definition Veiculo_to_dict (self : veiculo.Veiculo) : DictVeiculo :=
  {| dv_placa := Some (veiculo.placa self);
     dv_timestamp_entrada := Some (iso (veiculo.timestamp_entrada self));
     dv_timestamp_saida := Some (iso <$> veiculo.timestamp_saida self);
     dv_andar := Some (veiculo.andar self);
     dv_vaga := Some (veiculo.vaga self);
     dv_status := Some (StatusVeiculo_value (veiculo.status self));
     dv_valor_calculado := Some (veiculo.valor_calculado self);
     dv_tempo_permanencia_minutos :=
       Some (veiculo.tempo_permanencia_minutos self) |}.

(** [if data.get("timestamp_saida"): ... fromisoformat(...)]: an absent
    key, [None] and the empty text skip the assignment. *)
Definition ler_timestamp_saida (campo : option (option TextoIso))
    : ErroDict + option datetime :=
  match opcional campo with
  | None => inr None
  | Some (iso t) => inr (Some t)
  | Some (nao_iso s) =>
      if String.eqb s "" then inr None else inl (ValueError_iso s)
  end.

Definition Veiculo_from_dict (data : DictVeiculo)
    : ErroDict + veiculo.Veiculo :=
  placa <-- obrigatorio "placa" (dv_placa data) ;;
  texto <-- obrigatorio "timestamp_entrada" (dv_timestamp_entrada data) ;;
  timestamp_entrada <-- de_iso texto ;;
  let v :=
    veiculo.__init__ placa timestamp_entrada
      (default "terreo" (dv_andar data)) (opcional (dv_vaga data)) in
  timestamp_saida <-- ler_timestamp_saida (dv_timestamp_saida data) ;;
  status <-- StatusVeiculo_ (default "estacionado" (dv_status data)) ;;
  inr {| veiculo.placa := veiculo.placa v;
         veiculo.timestamp_entrada := veiculo.timestamp_entrada v;
         veiculo.timestamp_saida := timestamp_saida;
         veiculo.andar := veiculo.andar v;
         veiculo.vaga := veiculo.vaga v;
         veiculo.status := status;
         veiculo.valor_calculado := opcional (dv_valor_calculado data);
         veiculo.tempo_permanencia_minutos :=
           opcional (dv_tempo_permanencia_minutos data) |}.

(** *** Evento *)

Record DictEvento := mkDictEvento {
  de_id : option (option string);
  de_placa : option Placa;
  de_tipo : option string;
  de_timestamp : option TextoIso;
  de_confianca_lpr : option pyfloat.float;
  de_andar : option string;
  de_status : option string;
  de_valor_calculado : option (option pyfloat.float);
  de_tempo_permanencia_minutos : option (option Z);
  de_erro_descricao : option (option string)
}.

Definition Evento_to_dict (self : Evento) : DictEvento :=
  {| de_id := Some (id self);
     de_placa := Some (placa self);
     de_tipo := Some (TipoEvento_value (tipo self));
     de_timestamp := Some (iso (timestamp self));
     de_confianca_lpr := Some (confianca_lpr self);
     de_andar := Some (andar self);
     de_status := Some (StatusEvento_value (status self));
     de_valor_calculado := Some (valor_calculado self);
     de_tempo_permanencia_minutos := Some (tempo_permanencia_minutos self);
     de_erro_descricao := Some (erro_descricao self) |}.

Definition Evento_from_dict (data : DictEvento) : ErroDict + Evento :=
  placa <-- obrigatorio "placa" (de_placa data) ;;
  valor_tipo <-- obrigatorio "tipo" (de_tipo data) ;;
  tipo <-- TipoEvento_dict valor_tipo ;;
  texto <-- obrigatorio "timestamp" (de_timestamp data) ;;
  timestamp <-- de_iso texto ;;
  confianca_lpr <-- obrigatorio "confianca_lpr" (de_confianca_lpr data) ;;
  status <-- StatusEvento_ (default "pendente" (de_status data)) ;;
  inr {| id := opcional (de_id data);
         placa := placa;
         tipo := tipo;
         timestamp := timestamp;
         confianca_lpr := confianca_lpr;
         andar := default "terreo" (de_andar data);
         status := status;
         valor_calculado := opcional (de_valor_calculado data);
         tempo_permanencia_minutos :=
           opcional (de_tempo_permanencia_minutos data);
         erro_descricao := opcional (de_erro_descricao data) |}.

(** The request object the server gets when a lane sends
    [json.dumps(evento.to_dict())]: the keys [_processar_evento] reads. *)
Definition pedido_json (data : DictEvento) : Json :=
  objeto {| d_placa := de_placa data;
            d_tipo := de_tipo data;
            d_timestamp := de_timestamp data;
            d_confianca_lpr := de_confianca_lpr data;
            d_andar := de_andar data |}.

End dicionarios.

(* ===================================================================== *)
(** ** services/placar_service.py *)
(* ===================================================================== *)

Module placar_service.

(** The service object.  [vagas] is the dictionary from slot number to its
    occupied flag; [atualizacoes_agendadas] counts the display refreshes
    handed to the event loop by [asyncio.create_task]. *)
Record PlacarService := mkPlacarService {
  endereco_modbus : Z;
  total_vagas : Z;
  endereco_inicial_vagas : Z;
  modo_simulacao : bool;
  vagas : gmap Z bool;
  vagas_livres : Z;
  atualizacoes_agendadas : nat
}.

(** [{i: False for i in range(total_vagas)}]. *)
Definition vagas_iniciais (total_vagas : Z) : gmap Z bool :=
  list_to_map ((fun i => (i, false)) <$> seqZ 0 total_vagas).

Definition __init__ (endereco_modbus total_vagas endereco_inicial_vagas : Z)
    (modo_simulacao : bool) : PlacarService :=
  {| endereco_modbus := endereco_modbus;
     total_vagas := total_vagas;
     endereco_inicial_vagas := endereco_inicial_vagas;
     modo_simulacao := modo_simulacao;
     vagas := vagas_iniciais total_vagas;
     vagas_livres := total_vagas;
     atualizacoes_agendadas := 0 |}.

(** The three assignments of a successful call: the flag, the free count
    and the scheduled refresh. *)
Definition marcar (numero_vaga : Z) (ocupada : bool) (livres : Z)
    (self : PlacarService) : PlacarService :=
  {| endereco_modbus := endereco_modbus self;
     total_vagas := total_vagas self;
     endereco_inicial_vagas := endereco_inicial_vagas self;
     modo_simulacao := modo_simulacao self;
     vagas := <[numero_vaga := ocupada]> (vagas self);
     vagas_livres := livres;
     atualizacoes_agendadas := S (atualizacoes_agendadas self) |}.

(** [ocupar_vaga] gives the returned boolean and the object afterwards;
    [None] is the [KeyError] of [self.vagas[numero_vaga]] on a missing
    key. *)
Definition ocupar_vaga (self : PlacarService) (numero_vaga : Z)
    : option (bool * PlacarService) :=
  if (numero_vaga <? 0) || (numero_vaga >=? total_vagas self) then
    Some (false, self)
  else
    match vagas self !! numero_vaga with
    | None => None
    | Some true => Some (false, self)
    | Some false =>
        Some (true, marcar numero_vaga true (vagas_livres self - 1) self)
    end.

Definition liberar_vaga (self : PlacarService) (numero_vaga : Z)
    : option (bool * PlacarService) :=
  if (numero_vaga <? 0) || (numero_vaga >=? total_vagas self) then
    Some (false, self)
  else
    match vagas self !! numero_vaga with
    | None => None
    | Some false => Some (false, self)
    | Some true =>
        Some (true, marcar numero_vaga false (vagas_livres self + 1) self)
    end.

(** From [obter_estatisticas]: the derived occupied count and the two
    listings of slot numbers by flag. *)
Definition vagas_ocupadas (self : PlacarService) : Z :=
  total_vagas self - vagas_livres self.

Definition com_estado (ocupada : bool) (item : Z * bool) : Prop :=
  item.2 = ocupada.

#[export] Instance com_estado_dec ocupada item : Decision (com_estado ocupada item).
Proof. unfold com_estado. apply _. Defined.

Definition vagas_ocupadas_numeros (self : PlacarService) : list Z :=
  (map_to_list (filter (com_estado true) (vagas self))).*1.

Definition vagas_livres_numeros (self : PlacarService) : list Z :=
  (map_to_list (filter (com_estado false) (vagas self))).*1.

(** The number of slots whose flag says occupied. *)
Definition n_ocupadas (self : PlacarService) : Z :=
  Z.of_nat (length (vagas_ocupadas_numeros self)).

(** The dictionary has exactly the slots [0 .. total_vagas - 1], and the
    slots flagged occupied together with the free counter make up the
    total. *)
Definition consistente (self : PlacarService) : Prop :=
  (forall i, is_Some (vagas self !! i) <-> 0 <= i < total_vagas self)
  /\ n_ocupadas self + vagas_livres self = total_vagas self.

(** A call on the board. *)
Inductive Chamada :=
  | Ocupar (numero_vaga : Z)
  | Liberar (numero_vaga : Z).

Definition chamar (self : PlacarService) (c : Chamada)
    : option (bool * PlacarService) :=
  match c with
  | Ocupar n => ocupar_vaga self n
  | Liberar n => liberar_vaga self n
  end.

(** The boards that some sequence of calls produces from a new one. *)
Inductive alcancavel (inicial : PlacarService) : PlacarService -> Prop :=
  | alcancavel_inicio : alcancavel inicial inicial
  | alcancavel_chamada self c b self' :
      alcancavel inicial self ->
      chamar self c = Some (b, self') ->
      alcancavel inicial self'.

(** Running a list of calls; [None] when one of them raises. *)
Fixpoint executar (self : PlacarService) (cs : list Chamada)
    : option (list bool * PlacarService) :=
  match cs with
  | [] => Some ([], self)
  | c :: cs =>
      match chamar self c with
      | None => None
      | Some (b, self) =>
          match executar self cs with
          | None => None
          | Some (bs, self) => Some (b :: bs, self)
          end
      end
  end.


(** *** Scanning, statistics and the sensor reading *)

(** The dictionary has exactly the keys [__init__] gave it. *)
Definition chaves_intactas (self : PlacarService) : Prop :=
  forall i, is_Some (vagas self !! i) <-> 0 <= i < total_vagas self.

(** [self.vagas.items()].  A dictionary lists its keys in the order of
    their first insertion: [__init__] inserts [range(total_vagas)] in
    order, and no method of the class adds or removes a key. *)
Definition items (self : PlacarService) : list (Z * bool) :=
  omap
    (fun numero =>
       (fun ocupada => (numero, ocupada)) <$> vagas self !! numero)
       (seqZ 0 (total_vagas self)).

(** The loop of [encontrar_vaga_livre]. *)
Fixpoint primeira_livre (itens : list (Z * bool)) : Z :=
  match itens with
  | [] => -1
  | (numero, ocupada) :: itens =>
      if negb ocupada then numero else primeira_livre itens
  end.

Definition encontrar_vaga_livre (self : PlacarService) : Z :=
  primeira_livre (items self).

(** The two list comprehensions of [obter_estatisticas]. *)
Definition numeros_com_estado (ocupada : bool) (self : PlacarService)
    : list Z :=
  (filter (com_estado ocupada) (items self)).*1.

Record Estatisticas := mkEstatisticas {
  e_total_vagas : Z;
  e_vagas_livres : Z;
  e_vagas_ocupadas : Z;
  e_percentual_ocupacao : pyfloat.float;
  e_vagas_ocupadas_numeros : list Z;
  e_vagas_livres_numeros : list Z;
  e_estacionamento_cheio : bool
}.

(** [None] is the [ZeroDivisionError] of the percentage on a board of no
    slots. *)
Definition obter_estatisticas (self : PlacarService) : option Estatisticas :=
  let ocupadas := numeros_com_estado true self in
  let livres := numeros_com_estado false self in
  if total_vagas self =? 0 then None
  else
    Some {| e_total_vagas := total_vagas self;
            e_vagas_livres := vagas_livres self;
            e_vagas_ocupadas := total_vagas self - vagas_livres self;
            e_percentual_ocupacao :=
              pyfloat.mul
                (pyfloat.int_truediv (total_vagas self - vagas_livres self)
                   (total_vagas self))
                (pyfloat.of_int 100);
            e_vagas_ocupadas_numeros := ocupadas;
            e_vagas_livres_numeros := livres;
            e_estacionamento_cheio := vagas_livres self =? 0 |}.

(** The loop of [_simular_leitura_vagas] over [range(total_vagas)]:
    [mudou vaga] says whether the draw for that slot fell below 0.05.  The
    dictionary is changed in place; the boolean is [false] when
    [self.vagas[vaga]] raised [KeyError], with the changes made so far
    kept. *)
Fixpoint laco_leitura (mudou : Z -> bool) (range : list Z)
    (vagas : gmap Z bool) : gmap Z bool * bool :=
  match range with
  | [] => (vagas, true)
  | vaga :: range =>
      if mudou vaga then
        match vagas !! vaga with
        | None => (vagas, false)
        | Some ocupada =>
            laco_leitura mudou range (<[vaga := negb ocupada]> vagas)
        end
      else laco_leitura mudou range vagas
  end.

Definition _simular_leitura_vagas (mudou : Z -> bool) (self : PlacarService)
    : gmap Z bool * bool :=
  laco_leitura mudou (seqZ 0 (total_vagas self)) (vagas self).

(** [ler_sensores_vagas]: the hardware reading returns the current flags. *)
Definition ler_sensores_vagas (mudou : Z -> bool) (self : PlacarService)
    : gmap Z bool * bool :=
  if modo_simulacao self then _simular_leitura_vagas mudou self
  else (vagas self, true).

Definition com_vagas (novas : gmap Z bool) (livres : Z)
    (self : PlacarService) : PlacarService :=
  {| endereco_modbus := endereco_modbus self;
     total_vagas := total_vagas self;
     endereco_inicial_vagas := endereco_inicial_vagas self;
     modo_simulacao := modo_simulacao self;
     vagas := novas;
     vagas_livres := livres;
     atualizacoes_agendadas := atualizacoes_agendadas self |}.

(** [atualizar_vagas] gives the returned [mudancas] and the object
    afterwards; [None] when the reading raised, which leaves the flags
    changed so far and the old counter.  The display refresh is awaited,
    not scheduled.  The returned boolean is that of a call during which no
    other task changed the flags. *)
Definition atualizar_vagas (mudou : Z -> bool) (self : PlacarService)
    : option bool * PlacarService :=
  let estado_anterior := vagas self in
  let '(novo_estado, leu) := ler_sensores_vagas mudou self in
  if leu then
    let livres :=
      Z.of_nat (size (filter (com_estado false) novo_estado)) in
    (Some (bool_decide (estado_anterior <> novo_estado)),
     com_vagas novo_estado livres self)
  else (None, com_vagas novo_estado (vagas_livres self) self).

End placar_service.

(* ===================================================================== *)
(** ** services/lpr_service.py *)
(* ===================================================================== *)

Module lpr_service.

(** A Python [str] is a sequence of Unicode code points. *)
Definition str := list N.

(** Code points of a text given in ASCII. *)
Definition ascii_str (s : string) : str :=
  (fun c => Ascii.N_of_ascii c) <$> String.list_ascii_of_string s.

(** The part of the Unicode character database the two string tests read
    beyond ASCII: which code points from 128 up are alphabetic, and which
    are digits. *)
Record Unicode := mkUnicode {
  alfabetico : N -> bool;
  digito : N -> bool
}.

Definition entre (a b c : N) : bool := ((a <=? c) && (c <=? b))%N.

Definition letra_maiuscula_ascii (c : N) : bool := entre 65 90 c.
Definition letra_minuscula_ascii (c : N) : bool := entre 97 122 c.
Definition digito_ascii (c : N) : bool := entre 48 57 c.

Definition char_isalpha (u : Unicode) (c : N) : bool :=
  if (c <? 128)%N
  then letra_maiuscula_ascii c || letra_minuscula_ascii c
  else alfabetico u c.

Definition char_isdigit (u : Unicode) (c : N) : bool :=
  if (c <? 128)%N then digito_ascii c else digito u c.

(** [s.isalpha()] and [s.isdigit()]: every character passes and there is at
    least one. *)
Definition isalpha (u : Unicode) (s : str) : bool :=
  negb (bool_decide (s = [])) && forallb (char_isalpha u) s.

Definition isdigit (u : Unicode) (s : str) : bool :=
  negb (bool_decide (s = [])) && forallb (char_isdigit u) s.

Definition validar_placa (u : Unicode) (placa : str)
    (confianca_minima : pyfloat.float) : bool :=
  if bool_decide (placa = []) then false
  else if negb (length placa =? 7)%nat then false
  else if negb (isalpha u (take 3 placa)) then false
  else if negb (isdigit u (drop 3 placa)) then false
  else true.

(** The canonical plate format: three uppercase letters, then four
    digits. *)
Definition formato_canonico (placa : str) : Prop :=
  length placa = 7%nat
  /\ forallb letra_maiuscula_ascii (take 3 placa) = true
  /\ forallb digito_ascii (drop 3 placa) = true.


(** *** Capture *)

Definition placas_simuladas : list string :=
  ["ABC1234"; "DEF5678"; "GHI9012"; "JKL3456"; "MNO7890";
   "PQR1234"; "STU5678"; "VWX9012"; "YZA3456"; "BCD7890"].

Definition ascii_uppercase : string := "ABCDEFGHIJKLMNOPQRSTUVWXYZ".
Definition digits : string := "0123456789".

(** [''.join(random.choices(population, k=...))]: [sorteio] lists the
    indices drawn, one per character, each below [len(population)]. *)
Definition choices (population : string) (sorteio : list nat) : string :=
  String.string_of_list_ascii
    (omap (fun i => String.get i population) sorteio).

Definition _gerar_placa_aleatoria (letras numeros : list nat) : string :=
  String.append (choices ascii_uppercase letras) (choices digits numeros).

(** What the random generator gives during one capture. *)
Record Sorteio := mkSorteio {
  acerto : bool;                  (* [random.random() < 0.9] *)
  indice_placa : nat;             (* [random.choice] over the ten plates *)
  confianca_sorteada : pyfloat.float;
  letras_sorteadas : list nat;
  numeros_sorteados : list nat
}.

Definition _simular_captura (s : Sorteio)
    : option string * pyfloat.float :=
  if acerto s then (placas_simuladas !! indice_placa s, confianca_sorteada s)
  else (None, 0%Q).

Definition _capturar_hardware (s : Sorteio)
    : option string * pyfloat.float :=
  (Some (_gerar_placa_aleatoria (letras_sorteadas s) (numeros_sorteados s)),
   confianca_sorteada s).

Definition capturar_placa (modo_simulacao : bool) (s : Sorteio)
    : option string * pyfloat.float :=
  if modo_simulacao then _simular_captura s else _capturar_hardware s.

(** A draw as the generator makes it: the plate index below ten, three
    letter indices below 26 and four digit indices below ten. *)
Definition sorteio_valido (s : Sorteio) : Prop :=
  (indice_placa s < 10)%nat
  /\ length (letras_sorteadas s) = 3%nat
  /\ Forall (fun i => (i < 26)%nat) (letras_sorteadas s)
  /\ length (numeros_sorteados s) = 4%nat
  /\ Forall (fun i => (i < 10)%nat) (numeros_sorteados s).

End lpr_service.

(* ===================================================================== *)
(** ** cancela_service.py *)
(* ===================================================================== *)

Module cancela_service.

Inductive StatusCancela := FECHADA | ABRINDO | ABERTA | FECHANDO | ERRO.

Inductive TipoCancela := ENTRADA | SAIDA.

Record CancelaService := mkCancelaService {
  tipo : TipoCancela;
  endereco_modbus : Z;
  modo_simulacao : bool;
  status : StatusCancela;
  sensor_presenca : bool;
  sensor_passagem : bool;
  timeout_abertura : Z
}.

Definition __init__ (tipo : TipoCancela) (endereco_modbus : Z)
    (modo_simulacao : bool) : CancelaService :=
  {| tipo := tipo;
     endereco_modbus := endereco_modbus;
     modo_simulacao := modo_simulacao;
     status := FECHADA;
     sensor_presenca := false;
     sensor_passagem := false;
     timeout_abertura := 10 |}.

Definition set_status (s : StatusCancela) (self : CancelaService)
    : CancelaService :=
  {| tipo := tipo self;
     endereco_modbus := endereco_modbus self;
     modo_simulacao := modo_simulacao self;
     status := s;
     sensor_presenca := sensor_presenca self;
     sensor_passagem := sensor_passagem self;
     timeout_abertura := timeout_abertura self |}.

Definition set_sensor_presenca (b : bool) (self : CancelaService)
    : CancelaService :=
  {| tipo := tipo self;
     endereco_modbus := endereco_modbus self;
     modo_simulacao := modo_simulacao self;
     status := status self;
     sensor_presenca := b;
     sensor_passagem := sensor_passagem self;
     timeout_abertura := timeout_abertura self |}.

(** What the surroundings decide during one use of a gate: the draw of the
    simulated presence sensor, whether the actuation of the barrier returns
    or raises, and whether [aguardar_passagem], which only watches the
    event loop's clock, sees the vehicle pass before the timeout. *)
Record Ambiente := mkAmbiente {
  presenca_sorteada : bool;
  abertura_ok : bool;
  veiculo_passou : bool;
  fechamento_ok : bool
}.

(** The hardware sensor reading is a stand-in that finds no vehicle. *)
Definition detectar_presenca (amb : Ambiente) (self : CancelaService)
    : bool * CancelaService :=
  if modo_simulacao self then
    (presenca_sorteada amb, set_sensor_presenca (presenca_sorteada amb) self)
  else (false, set_sensor_presenca false self).

Definition abrir_cancela (amb : Ambiente) (self : CancelaService)
    : bool * CancelaService :=
  match status self with
  | ABERTA => (true, self)
  | _ =>
      let self := set_status ABRINDO self in
      if abertura_ok amb then (true, set_status ABERTA self)
      else (false, set_status ERRO self)
  end.

Definition fechar_cancela (amb : Ambiente) (self : CancelaService)
    : bool * CancelaService :=
  match status self with
  | FECHADA => (true, self)
  | _ =>
      let self := set_status FECHANDO self in
      if fechamento_ok amb then (true, set_status FECHADA self)
      else (false, set_status ERRO self)
  end.

Definition aguardar_passagem (amb : Ambiente) (self : CancelaService)
    : bool :=
  veiculo_passou amb.

Definition ciclo_completo (amb : Ambiente) (self : CancelaService)
    : bool * CancelaService :=
  let '(abriu, self) := abrir_cancela amb self in
  if negb abriu then (false, self)
  else if negb (aguardar_passagem amb self) then
    let '(_, self) := fechar_cancela amb self in
    (false, self)
  else
    let '(fechou, self) := fechar_cancela amb self in
    if negb fechou then (false, self) else (true, self).

End cancela_service.

(* ===================================================================== *)
(** ** servidor_terreo.py *)
(* ===================================================================== *)

(** The ground-floor server runs the entry machine, the exit machine and
    the slot monitor as tasks of one event loop.  Each function below is
    one call run to its end, or, for [_processar_entrada] and
    [_processar_saida], up to the [await] on the central server when that
    one never completes.  The two touch the board only after their last
    [await], and the gate and lane state they write belong to their own
    machine, so a call acts on the shared board as one step placed at that
    point. *)
Module servidor_terreo.
Import pytime.

Inductive EstadoCancela :=
  | AGUARDANDO
  | DETECTOU_VEICULO
  | CAPTURANDO_PLACA
  | ENVIANDO_CENTRAL
  | AGUARDANDO_RESPOSTA
  | ABRINDO_CANCELA
  | AGUARDANDO_PASSAGEM
  | FECHANDO_CANCELA
  | ERRO.

(** The fields the two machines and the monitor read or write. *)
Record ServidorTerreo := mkServidorTerreo {
  modo_simulacao : bool;
  lpr_confidence_min : pyfloat.float;
  cancela_entrada : cancela_service.CancelaService;
  cancela_saida : cancela_service.CancelaService;
  placar_service : placar_service.PlacarService;
  estado_entrada : EstadoCancela;
  estado_saida : EstadoCancela
}.

(** The arguments are the values read from the environment variables
    [MODE], [MODBUS_ADDRESS_*], [LPR_CONFIDENCE_MIN], [TOTAL_VAGAS] and
    [ENDERECO_INICIAL_VAGAS]. *)
Definition __init__ (modo_simulacao : bool)
    (endereco_entrada endereco_saida endereco_placar : Z)
    (lpr_confidence_min : pyfloat.float)
    (total_vagas endereco_inicial_vagas : Z) : ServidorTerreo :=
  {| modo_simulacao := modo_simulacao;
     lpr_confidence_min := lpr_confidence_min;
     cancela_entrada :=
       cancela_service.__init__ cancela_service.ENTRADA endereco_entrada
         modo_simulacao;
     cancela_saida :=
       cancela_service.__init__ cancela_service.SAIDA endereco_saida
         modo_simulacao;
     placar_service :=
       placar_service.__init__ endereco_placar total_vagas
         endereco_inicial_vagas modo_simulacao;
     estado_entrada := AGUARDANDO;
     estado_saida := AGUARDANDO |}.

Definition set_estado_entrada (e : EstadoCancela) (self : ServidorTerreo)
    : ServidorTerreo :=
  {| modo_simulacao := modo_simulacao self;
     lpr_confidence_min := lpr_confidence_min self;
     cancela_entrada := cancela_entrada self;
     cancela_saida := cancela_saida self;
     placar_service := placar_service self;
     estado_entrada := e;
     estado_saida := estado_saida self |}.

Definition set_estado_saida (e : EstadoCancela) (self : ServidorTerreo)
    : ServidorTerreo :=
  {| modo_simulacao := modo_simulacao self;
     lpr_confidence_min := lpr_confidence_min self;
     cancela_entrada := cancela_entrada self;
     cancela_saida := cancela_saida self;
     placar_service := placar_service self;
     estado_entrada := estado_entrada self;
     estado_saida := e |}.

Definition set_cancela_entrada (c : cancela_service.CancelaService)
    (self : ServidorTerreo) : ServidorTerreo :=
  {| modo_simulacao := modo_simulacao self;
     lpr_confidence_min := lpr_confidence_min self;
     cancela_entrada := c;
     cancela_saida := cancela_saida self;
     placar_service := placar_service self;
     estado_entrada := estado_entrada self;
     estado_saida := estado_saida self |}.

Definition set_cancela_saida (c : cancela_service.CancelaService)
    (self : ServidorTerreo) : ServidorTerreo :=
  {| modo_simulacao := modo_simulacao self;
     lpr_confidence_min := lpr_confidence_min self;
     cancela_entrada := cancela_entrada self;
     cancela_saida := c;
     placar_service := placar_service self;
     estado_entrada := estado_entrada self;
     estado_saida := estado_saida self |}.

Definition set_placar_service (p : placar_service.PlacarService)
    (self : ServidorTerreo) : ServidorTerreo :=
  {| modo_simulacao := modo_simulacao self;
     lpr_confidence_min := lpr_confidence_min self;
     cancela_entrada := cancela_entrada self;
     cancela_saida := cancela_saida self;
     placar_service := p;
     estado_entrada := estado_entrada self;
     estado_saida := estado_saida self |}.

(** What [await self._enviar_evento_central(evento)] comes to.  The
    coroutine returns the reply of the central server as a dictionary, or
    [None] when connecting, sending, receiving or parsing raised; and it
    reads the reply with no timeout, so against a peer that accepts the
    connection and stays silent it does not return at all.  A reply is
    taken to be the dictionary of an [EventoResposta], as the central
    server of this repository sends. *)
Inductive RespostaCentral :=
  | sem_retorno
  | devolve (resposta : option evento.EventoResposta).

(** What the surroundings give during one call: the Unicode tables, the
    result of [capturar_placa], the reading of [datetime.now()], which is
    naive, what [_enviar_evento_central] comes to, and the gate's
    surroundings. *)
Record Ambiente := mkAmbiente {
  unicode : lpr_service.Unicode;
  captura : option string * pyfloat.float;
  agora : Z;
  _enviar_evento_central : evento.Evento -> RespostaCentral;
  cancela : cancela_service.Ambiente
}.

(** What one call did besides changing the object: the lane states it
    assigned, in order, the event it sent to the central server, and
    whether it returned. *)
Record Execucao := mkExecucao {
  estados : list EstadoCancela;
  enviado : option evento.Evento;
  retornou : bool
}.

(** [if not placa or confianca < self.lpr_confidence_min] followed by
    [validar_placa(placa)], whose default minimum confidence is 0.7. *)
Definition placa_aceita (amb : Ambiente) (self : ServidorTerreo)
    : option string :=
  match (captura amb).1 with
  | None => None
  | Some placa =>
      if String.eqb placa ""
         || pyfloat.Qltb (captura amb).2 (lpr_confidence_min self)
      then None
      else if lpr_service.validar_placa (unicode amb)
                (lpr_service.ascii_str placa) (pyfloat.RN (7 # 10))
      then Some placa
      else None
  end.

(** The slot marking at the end of a granted entry; [None] is a
    [KeyError]. *)
Definition marcar_vaga_ocupada (p : placar_service.PlacarService)
    : option placar_service.PlacarService :=
  let vaga_livre := placar_service.encontrar_vaga_livre p in
  if vaga_livre =? -1 then Some p
  else
    match placar_service.ocupar_vaga p vaga_livre with
    | None => None
    | Some (_, p) => Some p
    end.

Definition _processar_entrada (amb : Ambiente) (self : ServidorTerreo)
    : ServidorTerreo * Execucao :=
  match placa_aceita amb self with
  | None =>
      (set_estado_entrada ERRO self,
       {| estados := [CAPTURANDO_PLACA; ERRO];
          enviado := None;
          retornou := true |})
  | Some placa =>
      let ev :=
        evento.__init__ (evento.str placa) evento.ENTRADA (naive (agora amb))
          (captura amb).2 "terreo" in
      let falha self estados :=
        (set_estado_entrada ERRO self,
         {| estados := CAPTURANDO_PLACA :: ENVIANDO_CENTRAL :: estados
                       ++ [ERRO];
            enviado := Some ev;
            retornou := true |}) in
      let termina self estados :=
        (set_estado_entrada AGUARDANDO self,
         {| estados := CAPTURANDO_PLACA :: ENVIANDO_CENTRAL :: estados
                       ++ [AGUARDANDO];
            enviado := Some ev;
            retornou := true |}) in
      match _enviar_evento_central amb ev with
      | sem_retorno =>
          (set_estado_entrada ENVIANDO_CENTRAL self,
           {| estados := [CAPTURANDO_PLACA; ENVIANDO_CENTRAL];
              enviado := Some ev;
              retornou := false |})
      | devolve None => falha self []
      | devolve (Some resposta) =>
          if negb (evento.sucesso resposta) then falha self []
          else
            match evento.acao resposta with
            | evento.abrir_cancela =>
                let '(ok, c) :=
                  cancela_service.ciclo_completo (cancela amb)
                    (cancela_entrada self) in
                let self := set_cancela_entrada c self in
                if ok then
                  match marcar_vaga_ocupada (placar_service self) with
                  | None => falha self [ABRINDO_CANCELA]
                  | Some p =>
                      termina (set_placar_service p self) [ABRINDO_CANCELA]
                  end
                else falha self [ABRINDO_CANCELA]
            | _ => termina self []
            end
      end
  end.

(** The loop of a granted exit over [range(total_vagas)]: the first slot
    flagged occupied, if any; the outer [None] is the [KeyError] of
    [vagas[vaga]]. *)
Fixpoint primeira_ocupada (vagas : gmap Z bool) (range : list Z)
    : option (option Z) :=
  match range with
  | [] => Some None
  | vaga :: range =>
      match vagas !! vaga with
      | None => None
      | Some true => Some (Some vaga)
      | Some false => primeira_ocupada vagas range
      end
  end.

Definition liberar_vaga_ocupada (p : placar_service.PlacarService)
    : option placar_service.PlacarService :=
  match primeira_ocupada (placar_service.vagas p)
          (seqZ 0 (placar_service.total_vagas p)) with
  | None => None
  | Some None => Some p
  | Some (Some vaga) =>
      match placar_service.liberar_vaga p vaga with
      | None => None
      | Some (_, p) => Some p
      end
  end.

(** On [cobrar_valor] the amount is formatted with [:.2f] for the log
    before the gate is operated, which raises on [None]. *)
Definition _processar_saida (amb : Ambiente) (self : ServidorTerreo)
    : ServidorTerreo * Execucao :=
  match placa_aceita amb self with
  | None =>
      (set_estado_saida ERRO self,
       {| estados := [CAPTURANDO_PLACA; ERRO];
          enviado := None;
          retornou := true |})
  | Some placa =>
      let ev :=
        evento.__init__ (evento.str placa) evento.SAIDA (naive (agora amb))
          (captura amb).2 "terreo" in
      let falha self estados :=
        (set_estado_saida ERRO self,
         {| estados := CAPTURANDO_PLACA :: ENVIANDO_CENTRAL :: estados
                       ++ [ERRO];
            enviado := Some ev;
            retornou := true |}) in
      let termina self estados :=
        (set_estado_saida AGUARDANDO self,
         {| estados := CAPTURANDO_PLACA :: ENVIANDO_CENTRAL :: estados
                       ++ [AGUARDANDO];
            enviado := Some ev;
            retornou := true |}) in
      match _enviar_evento_central amb ev with
      | sem_retorno =>
          (set_estado_saida ENVIANDO_CENTRAL self,
           {| estados := [CAPTURANDO_PLACA; ENVIANDO_CENTRAL];
              enviado := Some ev;
              retornou := false |})
      | devolve None => falha self []
      | devolve (Some resposta) =>
          if negb (evento.sucesso resposta) then falha self []
          else
            match evento.acao resposta with
            | evento.cobrar_valor =>
                match evento.valor resposta with
                | None => falha self []
                | Some _ =>
                    let '(ok, c) :=
                      cancela_service.ciclo_completo (cancela amb)
                        (cancela_saida self) in
                    let self := set_cancela_saida c self in
                    if ok then
                      match liberar_vaga_ocupada (placar_service self) with
                      | None => falha self [ABRINDO_CANCELA]
                      | Some p =>
                          termina (set_placar_service p self) [ABRINDO_CANCELA]
                      end
                    else falha self [ABRINDO_CANCELA]
                end
            | _ => termina self []
            end
      end
  end.

Definition _aguardar_veiculo_entrada (amb : Ambiente) (self : ServidorTerreo)
    : ServidorTerreo :=
  let '(presente, c) :=
    cancela_service.detectar_presenca (cancela amb) (cancela_entrada self) in
  let self := set_cancela_entrada c self in
  if presente then set_estado_entrada DETECTOU_VEICULO self else self.

Definition _aguardar_veiculo_saida (amb : Ambiente) (self : ServidorTerreo)
    : ServidorTerreo :=
  let '(presente, c) :=
    cancela_service.detectar_presenca (cancela amb) (cancela_saida self) in
  let self := set_cancela_saida c self in
  if presente then set_estado_saida DETECTOU_VEICULO self else self.

Definition _recuperar_erro_entrada := set_estado_entrada AGUARDANDO.
Definition _recuperar_erro_saida := set_estado_saida AGUARDANDO.

(** One turn of the loop of [_maquina_estado_entrada], of
    [_maquina_estado_saida] and of [_monitorar_vagas]; the monitor logs an
    exception of [atualizar_vagas] and goes on.  A machine whose call did
    not return is not at the top of its loop again: it has no further
    turn, which is the last case of the [match]. *)
Definition iteracao_entrada (amb : Ambiente) (self : ServidorTerreo)
    : ServidorTerreo :=
  match estado_entrada self with
  | AGUARDANDO => _aguardar_veiculo_entrada amb self
  | DETECTOU_VEICULO => (_processar_entrada amb self).1
  | ERRO => _recuperar_erro_entrada self
  | _ => self
  end.

Definition iteracao_saida (amb : Ambiente) (self : ServidorTerreo)
    : ServidorTerreo :=
  match estado_saida self with
  | AGUARDANDO => _aguardar_veiculo_saida amb self
  | DETECTOU_VEICULO => (_processar_saida amb self).1
  | ERRO => _recuperar_erro_saida self
  | _ => self
  end.

Definition iteracao_vagas (mudou : Z -> bool) (self : ServidorTerreo)
    : ServidorTerreo :=
  set_placar_service
    (placar_service.atualizar_vagas mudou (placar_service self)).2 self.

(** The turns of the three tasks in the order the event loop runs them. *)
Inductive Turno :=
  | turno_entrada (amb : Ambiente)
  | turno_saida (amb : Ambiente)
  | turno_vagas (mudou : Z -> bool).

Definition turno (self : ServidorTerreo) (t : Turno) : ServidorTerreo :=
  match t with
  | turno_entrada amb => iteracao_entrada amb self
  | turno_saida amb => iteracao_saida amb self
  | turno_vagas mudou => iteracao_vagas mudou self
  end.

Definition executar (self : ServidorTerreo) (turnos : list Turno)
    : ServidorTerreo :=
  foldl turno self turnos.

(** A turn during which every call to the central server returns. *)
Definition central_retorna (t : Turno) : Prop :=
  match t with
  | turno_entrada amb | turno_saida amb =>
      forall ev, _enviar_evento_central amb ev <> sem_retorno
  | turno_vagas _ => True
  end.

(** The lane against a central server [central] in the surroundings [amb]:
    the event goes out as [to_dict] on a new connection, the handler of the
    server serves that one message, and the lane reads the reply line the
    handler wrote, if it wrote one. *)
Definition atender (amb : servidor_central.Ambiente)
    (central : servidor_central.ServidorCentral) (ev : evento.Evento)
    : servidor_central.ServidorCentral * servidor_central.Conexao :=
  servidor_central._handle_cliente central servidor_central.conexao_aberta
    [(amb,
      servidor_central.json_valido
        (dicionarios.pedido_json (dicionarios.Evento_to_dict ev)))].

Definition central_responde (amb : servidor_central.Ambiente)
    (central : servidor_central.ServidorCentral) (ev : evento.Evento)
    : RespostaCentral :=
  devolve
    (head (servidor_central.respostas_escritas (atender amb central ev).2)).

(** The states in which a machine can be at the top of its loop, the
    states in which it can be between turns (one more: the state in which
    it waits for the central server), a gate that is not left open, and
    what holds of a server between turns. *)
Definition estado_de_laco (e : EstadoCancela) : Prop :=
  e = AGUARDANDO \/ e = DETECTOU_VEICULO \/ e = ERRO.

Definition estado_entre_turnos (e : EstadoCancela) : Prop :=
  estado_de_laco e \/ e = ENVIANDO_CENTRAL.

Definition cancela_em_repouso (c : cancela_service.CancelaService) : Prop :=
  cancela_service.status c = cancela_service.FECHADA
  \/ cancela_service.status c = cancela_service.ERRO.

Definition invariante (self : ServidorTerreo) : Prop :=
  estado_entre_turnos (estado_entrada self)
  /\ estado_entre_turnos (estado_saida self)
  /\ cancela_em_repouso (cancela_entrada self)
  /\ cancela_em_repouso (cancela_saida self)
  /\ placar_service.consistente (placar_service self)
  /\ 0 <= placar_service.total_vagas (placar_service self).

End servidor_terreo.

(* ===================================================================== *)
(** ** Concrete inputs *)
(* ===================================================================== *)

Module exemplos.
Import pytime evento servidor_central.

(** The default prices as the floats Python reads them. *)
Definition preco_padrao : pyfloat.float := pyfloat.RN (15 # 100).
Definition minimo_padrao : pyfloat.float := pyfloat.RN 2.

(** A vehicle that came in at 10:00:00, and the same with a duration
    assigned. *)
Definition veiculo_ABC1234 : veiculo.Veiculo :=
  veiculo.__init__ "ABC1234" (on_2024_01_01 10 0 0) "terreo" None.

Definition veiculo_com_tempo (t : Z) : veiculo.Veiculo :=
  veiculo.set_tempo_permanencia_minutos (Some t) veiculo_ABC1234.

(** Surroundings in which every database statement and socket write goes
    through. *)
Definition amb0 : Ambiente :=
  {| agora := 1704103200%Q;
     sqlite_eventos_ok := true;
     sqlite_veiculos_ok := true;
     escrita_ok := true |}.

(** The request a lane sends for a plate read with confidence 0.95 on the
    ground floor. *)
Definition pedido (placa tipo : string) (t : datetime) : Json :=
  objeto {| d_placa := Some (str placa);
            d_tipo := Some tipo;
            d_timestamp := Some (iso t);
            d_confianca_lpr := Some (pyfloat.RN (95 # 100));
            d_andar := Some "terreo" |}.

(** A server started on an empty database with the default prices
    ([PRECO_POR_MINUTO=0.15], [VALOR_MINIMO=2.00]). *)
Definition central_nova : ServidorCentral :=
  servidor_central.__init__ (pyfloat.RN (15 # 100)) (pyfloat.RN 2) [] [].

(** The same server after ABC1234 entered at 10:00:00. *)
Definition central_com_ABC1234 : ServidorCentral :=
  (_processar_evento amb0 central_nova
     (pedido "ABC1234" "entrada" (on_2024_01_01 10 0 0))).2.

Definition central_fechada_com_ABC1234 : ServidorCentral :=
  fechar_estacionamento central_com_ABC1234.

(** The database restricted to Latin-1: the letters and digits among the
    code points 128 to 255, and nothing classified beyond them. *)
Definition unicode_latin1 : lpr_service.Unicode :=
  {| lpr_service.alfabetico := fun c =>
       (c =? 170)%N || (c =? 181)%N || (c =? 186)%N
       || lpr_service.entre 192 214 c || lpr_service.entre 216 246 c
       || lpr_service.entre 248 255 c;
     lpr_service.digito := fun c =>
       lpr_service.entre 178 179 c || (c =? 185)%N |}.

(** The board of the tests (eight slots), new and with slot 0 taken. *)
Definition placar_novo : placar_service.PlacarService :=
  placar_service.__init__ 3 8 0 true.

Definition placar_com_vaga_0 : placar_service.PlacarService :=
  placar_service.marcar 0 true 7 placar_novo.

(** A board whose counter has drifted from its flags: slot 0 is the only
    one taken, and the counter says three free. *)
Definition placar_dessincronizado : placar_service.PlacarService :=
  placar_service.com_vagas (placar_service.vagas placar_com_vaga_0) 3
    placar_com_vaga_0.

(** A draw of the plate reader: the first simulated plate, or the letters
    J, K, L and the digits 3, 4, 5, 6. *)
Definition sorteio_exemplo : lpr_service.Sorteio :=
  {| lpr_service.acerto := true;
     lpr_service.indice_placa := 0;
     lpr_service.confianca_sorteada := pyfloat.RN (95 # 100);
     lpr_service.letras_sorteadas := [9; 10; 11]%nat;
     lpr_service.numeros_sorteados := [3; 4; 5; 6]%nat |}.

(** A gate around which everything works. *)
Definition cancela_sem_falhas : cancela_service.Ambiente :=
  {| cancela_service.presenca_sorteada := true;
     cancela_service.abertura_ok := true;
     cancela_service.veiculo_passou := true;
     cancela_service.fechamento_ok := true |}.

(** A ground-floor server with eight slots and minimum confidence 0.8; the
    surroundings of an entry of ABC1234 at 10:00:00 against the new central
    server, and of its exit at 10:30:00 against the central server that
    has it parked. *)
Definition terreo_novo : servidor_terreo.ServidorTerreo :=
  servidor_terreo.__init__ true 1 2 3 (pyfloat.RN (8 # 10)) 8 0.

Definition amb_terreo : servidor_terreo.Ambiente :=
  {| servidor_terreo.unicode := unicode_latin1;
     servidor_terreo.captura := (Some "ABC1234", pyfloat.RN (95 # 100));
     servidor_terreo.agora := relogio (on_2024_01_01 10 0 0);
     servidor_terreo._enviar_evento_central :=
       servidor_terreo.central_responde amb0 central_nova;
     servidor_terreo.cancela := cancela_sem_falhas |}.

(** The surroundings of the same entry against a peer that accepts the
    connection and never answers. *)
Definition amb_terreo_sem_resposta : servidor_terreo.Ambiente :=
  {| servidor_terreo.unicode := unicode_latin1;
     servidor_terreo.captura := (Some "ABC1234", pyfloat.RN (95 # 100));
     servidor_terreo.agora := relogio (on_2024_01_01 10 0 0);
     servidor_terreo._enviar_evento_central :=
       fun _ => servidor_terreo.sem_retorno;
     servidor_terreo.cancela := cancela_sem_falhas |}.

Definition amb_terreo_saida : servidor_terreo.Ambiente :=
  {| servidor_terreo.unicode := unicode_latin1;
     servidor_terreo.captura := (Some "ABC1234", pyfloat.RN (95 # 100));
     servidor_terreo.agora := relogio (on_2024_01_01 10 30 0);
     servidor_terreo._enviar_evento_central :=
       servidor_terreo.central_responde amb0 central_com_ABC1234;
     servidor_terreo.cancela := cancela_sem_falhas |}.

End exemplos.

(* ===================================================================== *)
(** ** Properties of the float arithmetic and of billing *)
(* ===================================================================== *)

Section faturamento.
Import pyfloat pytime veiculo exemplos.

Lemma round_half_even_near a b :
  0 < b ->
  2 * a - b <= 2 * (round_half_even a b * b) <= 2 * a + b.
Proof.
  intros Hb. unfold round_half_even.
  pose proof (Z.div_mod a b ltac:(lia)) as Hdiv.
  pose proof (Z.mod_pos_bound a b Hb) as Hmod.
  destruct (Z.compare_spec (2 * (a mod b)) b) as [H|H|H];
    [destruct (Z.even (a / b))| |]; nia.
Qed.

Lemma bpow_Qpower e : (bpow e == 2 ^ e)%Q.
Proof.
  unfold bpow. destruct e as [|p|p].
  - reflexivity.
  - rewrite Z.max_r by lia. replace (Z.max 0 (- Z.pos p)) with 0 by lia.
    simpl (Z.to_pos (2 ^ 0)).
    rewrite <- (Zpower_Qpower 2 (Z.pos p)) by lia. reflexivity.
  - rewrite Z.max_l by lia. replace (Z.max 0 (- Z.neg p)) with (Z.pos p) by lia.
    change (Z.neg p) with (- Z.pos p). rewrite Qpower_opp.
    rewrite <- (Zpower_Qpower 2 (Z.pos p)) by lia.
    assert (H : 0 < 2 ^ Z.pos p) by (apply Z.pow_pos_nonneg; lia).
    destruct (2 ^ Z.pos p) as [|q|q] eqn:E; try lia.
    simpl. reflexivity.
Qed.

Lemma pow2_pos e : (0 < 2 ^ e)%Q.
Proof. apply Qpower_0_lt. reflexivity. Qed.

Lemma pow2_add a b : (2 ^ (a + b) == 2 ^ a * 2 ^ b)%Q.
Proof. apply Qpower_plus. discriminate. Qed.

Lemma pow2_le a b : a <= b -> (2 ^ a <= 2 ^ b)%Q.
Proof. intros. apply Qpower_le_compat_l; [lia | discriminate]. Qed.

Lemma pow2_lt_inv a b : (2 ^ a < 2 ^ b)%Q -> a < b.
Proof. intros H. apply (Qpower_lt_compat_l_inv 2); [exact H | reflexivity]. Qed.

Lemma pow2_Z n : 0 <= n -> (inject_Z (2 ^ n) == 2 ^ n)%Q.
Proof. intros. apply (Zpower_Qpower 2). lia. Qed.

(** [n / d] scaled by [2^-e], as a quotient of integers. *)
Lemma scaled_quotient n d e :
  0 < d ->
  (inject_Z (scaled_num n e) * 2 ^ e
   == inject_Z n / inject_Z d * inject_Z (scaled_den d e))%Q.
Proof.
  intros Hd. unfold scaled_num, scaled_den.
  rewrite !inject_Z_mult.
  assert (Hd' : ~ (inject_Z d == 0)%Q).
  { unfold Qeq. simpl. lia. }
  destruct (Z.le_ge_cases 0 e) as [He|He].
  - rewrite (Z.max_l 0 (- e)) by lia. rewrite (Z.max_r 0 e) by lia.
    change (2 ^ 0)%Z with 1%Z. rewrite pow2_Z by lia.
    change (inject_Z 1) with 1%Q.
    generalize (2 ^ e)%Q. intros P. field. exact Hd'.
  - rewrite (Z.max_r 0 (- e)) by lia. rewrite (Z.max_l 0 e) by lia.
    change (2 ^ 0)%Z with 1%Z. change (inject_Z 1) with 1%Q.
    assert (Hf : exists f, 0 <= f /\ e = - f) by (exists (- e); lia).
    destruct Hf as (f & Hf & ->). rewrite Z.opp_involutive.
    rewrite pow2_Z by lia. rewrite Qpower_opp.
    pose proof (pow2_pos f) as Hp. revert Hp.
    generalize (2 ^ f)%Q. intros P Hp. field. split; [exact Hd'|].
    intros H. rewrite H in Hp. exact (Qlt_irrefl _ Hp).
Qed.


Lemma inject_Z_pos z : 0 < z -> (0 < inject_Z z)%Q.
Proof. intros. change 0%Q with (inject_Z 0). rewrite <- Zlt_Qlt. lia. Qed.

Lemma log2_bounds n :
  0 < n -> (2 ^ Z.log2 n <= inject_Z n < 2 ^ (Z.log2 n + 1))%Q.
Proof.
  intros Hn. destruct (Z.log2_spec n Hn) as [H1 H2].
  pose proof (Z.log2_nonneg n) as H0.
  rewrite <- !pow2_Z by lia. rewrite <- Zle_Qle, <- Zlt_Qlt.
  replace (Z.log2 n + 1) with (Z.succ (Z.log2 n)) by lia. auto.
Qed.

Lemma scaled_den_pos d e : 0 < d -> 0 < scaled_den d e.
Proof.
  intros. unfold scaled_den. apply Z.mul_pos_pos; [lia|].
  apply Z.pow_pos_nonneg; lia.
Qed.

(** [ilog2] is the floor of the binary logarithm. *)
Lemma ilog2_spec n d :
  0 < n -> 0 < d ->
  (2 ^ ilog2 n d <= inject_Z n / inject_Z d < 2 ^ (ilog2 n d + 1))%Q.
Proof.
  intros Hn Hd.
  pose proof (log2_bounds n Hn) as [Hn1 Hn2].
  pose proof (log2_bounds d Hd) as [Hd1 Hd2].
  pose proof (inject_Z_pos d Hd) as Hdpos.
  unfold ilog2. set (l := Z.log2 n - Z.log2 d).
  pose proof (scaled_quotient n d l Hd) as Hs.
  pose proof (inject_Z_pos _ (scaled_den_pos d l Hd)) as Hsd.
  pose proof (pow2_pos l) as Hl.
  assert (Hlo : (2 ^ (l - 1) <= inject_Z n / inject_Z d)%Q).
  { apply Qle_shift_div_l; [exact Hdpos|].
    apply Qle_trans with (2 ^ (l - 1) * 2 ^ (Z.log2 d + 1))%Q.
    - apply Qmult_le_l; [apply pow2_pos | apply Qlt_le_weak, Hd2].
    - rewrite <- pow2_add. replace (l - 1 + (Z.log2 d + 1)) with (Z.log2 n)
        by (unfold l; lia). exact Hn1. }
  assert (Hhi : (inject_Z n / inject_Z d < 2 ^ (l + 1))%Q).
  { apply Qlt_shift_div_r; [exact Hdpos|].
    apply Qlt_le_trans with (2 ^ (Z.log2 n + 1))%Q; [exact Hn2|].
    replace (Z.log2 n + 1) with (l + 1 + Z.log2 d) by (unfold l; lia).
    rewrite pow2_add. apply Qmult_le_l; [apply pow2_pos | exact Hd1]. }
  destruct (Z.ltb_spec (scaled_num n l) (scaled_den d l)) as [Hlt|Hge].
  - split; [exact Hlo|]. replace (l - 1 + 1) with l by lia.
    rewrite Zlt_Qlt in Hlt.
    apply (Qmult_lt_r _ _ _ Hsd). rewrite <- Hs.
    rewrite (Qmult_comm (2 ^ l)). apply Qmult_lt_r; assumption.
  - split; [|exact Hhi].
    rewrite Zle_Qle in Hge.
    apply (Qmult_le_r _ _ _ Hsd). rewrite <- Hs.
    rewrite (Qmult_comm (2 ^ l)). apply Qmult_le_r; assumption.
Qed.

(** What [RNpos] returns: a multiple [m * 2^e] of the unit in the last
    place, within half a unit of the exact value. *)
Lemma inject_Z_sub x y : inject_Z (x - y) = (inject_Z x - inject_Z y)%Q.
Proof.
  unfold Z.sub, Qminus. by rewrite inject_Z_plus, inject_Z_opp.
Qed.

Lemma RNpos_spec n d :
  0 < n -> 0 < d ->
  exists m L,
    let q := (inject_Z n / inject_Z d)%Q in
    let e := Z.max (L - 52) emin in
    (RNpos n d == inject_Z m * 2 ^ e)%Q
    /\ (2 ^ L <= q < 2 ^ (L + 1))%Q
    /\ (2 * q - 2 ^ e <= 2 * (inject_Z m * 2 ^ e) <= 2 * q + 2 ^ e)%Q.
Proof.
  intros Hn Hd.
  exists (round_half_even (scaled_num n (ulp_exp n d))
            (scaled_den d (ulp_exp n d))), (ilog2 n d).
  intros q e. change (Z.max (ilog2 n d - 52) emin) with (ulp_exp n d) in e.
  split; [|split].
  - unfold RNpos. rewrite Qred_correct, bpow_Qpower. reflexivity.
  - apply ilog2_spec; assumption.
  - change (ulp_exp n d) with e.
    pose proof (scaled_den_pos d e Hd) as Hsd.
    pose proof (round_half_even_near (scaled_num n e) (scaled_den d e) Hsd)
      as [H1 H2].
    pose proof (scaled_quotient n d e Hd) as Hs. fold q in Hs.
    pose proof (inject_Z_pos _ Hsd) as HS.
    pose proof (pow2_pos e) as HP.
    rewrite Zle_Qle in H1, H2.
    rewrite inject_Z_sub, !inject_Z_mult in H1.
    rewrite inject_Z_plus, !inject_Z_mult in H2.
    change (inject_Z 2) with 2%Q in H1, H2.
    revert H1 H2 Hs HS HP.
    generalize (inject_Z (round_half_even (scaled_num n e) (scaled_den d e))).
    generalize (inject_Z (scaled_num n e)).
    generalize (inject_Z (scaled_den d e)).
    generalize (2 ^ e)%Q. clearbody q. intros P S N M H1 H2 Hs HS HP.
    assert (H1' : ((2 * N - S) * P <= 2 * (M * S) * P)%Q)
      by (apply Qmult_le_compat_r; [assumption | apply Qlt_le_weak, HP]).
    assert (H2' : (2 * (M * S) * P <= (2 * N + S) * P)%Q)
      by (apply Qmult_le_compat_r; [assumption | apply Qlt_le_weak, HP]).
    split; apply (Qmult_le_r _ _ _ HS); lra.
Qed.


Lemma RN_comp x y : (x == y)%Q -> RN x = RN y.
Proof. intros H. unfold RN. by rewrite (Qred_complete x y H). Qed.

Lemma RN_zero x : (x == 0)%Q -> RN x = 0%Q.
Proof. intros H. rewrite (RN_comp x 0 H). reflexivity. Qed.

Lemma RN_pos_spec q :
  (0 < q)%Q ->
  exists m L,
    let e := Z.max (L - 52) emin in
    (RN q == inject_Z m * 2 ^ e)%Q
    /\ (2 ^ L <= q < 2 ^ (L + 1))%Q
    /\ (2 * q - 2 ^ e <= 2 * (inject_Z m * 2 ^ e) <= 2 * q + 2 ^ e)%Q.
Proof.
  intros Hq. unfold RN.
  pose proof (Qred_correct q) as Hr.
  destruct (Qred q) as [n d] eqn:E. simpl Qnum. simpl Qden.
  assert (Hn : 0 < n).
  { rewrite <- Hr in Hq. unfold Qlt in Hq. simpl in Hq. lia. }
  destruct n as [|p|p]; try lia.
  destruct (RNpos_spec (Z.pos p) (Z.pos d) Hn ltac:(lia))
    as (m & L & H1 & H2 & H3).
  exists m, L. cbv zeta in *.
  assert (Hqd : (inject_Z (Z.pos p) / inject_Z (Z.pos d) == q)%Q).
  { rewrite <- Hr. symmetry. apply Qmake_Qdiv. }
  rewrite Hqd in H2, H3. auto.
Qed.

(** In the normal range the unit in the last place is [2^-52] times the
    leading power of two, and the significand has at most 53 bits. *)
Lemma RN_normal q :
  (2 ^ (-1022) <= q)%Q ->
  exists m e,
    (RN q == inject_Z m * 2 ^ e)%Q
    /\ (2 ^ (e + 52) <= q < 2 ^ (e + 53))%Q
    /\ (2 * q - 2 ^ e <= 2 * (inject_Z m * 2 ^ e) <= 2 * q + 2 ^ e)%Q
    /\ (inject_Z m * 2 ^ e <= 2 ^ (e + 53))%Q.
Proof.
  intros Hq.
  assert (Hq0 : (0 < q)%Q)
    by (eapply Qlt_le_trans; [apply (pow2_pos (-1022)) | exact Hq]).
  destruct (RN_pos_spec q Hq0) as (m & L & H1 & [H2 H2'] & H3 & H3').
  assert (HL : -1022 <= L).
  { assert (-1022 < L + 1); [|lia]. apply pow2_lt_inv.
    eapply Qle_lt_trans; eassumption. }
  replace (Z.max (L - 52) emin) with (L - 52) in * by (unfold emin; lia).
  exists m, (L - 52).
  replace (L - 52 + 52) with L by lia.
  replace (L - 52 + 53) with (L + 1) by lia.
  repeat split; auto.
  assert (Hm : m <= 2 ^ 53).
  { assert (H : (2 * inject_Z m < 2 * inject_Z (2 ^ 53) + 1)%Q).
    { apply (Qmult_lt_r _ _ (2 ^ (L - 52))); [apply pow2_pos|].
      pose proof (pow2_add (L - 52) 53) as Ha.
      replace (L - 52 + 53) with (L + 1) in Ha by lia.
      rewrite pow2_Z by lia. change (2 ^ 53)%Q with (inject_Z (2 ^ 53)) in *.
      revert Ha H2' H3'. generalize (2 ^ (L + 1))%Q (2 ^ (L - 52))%Q.
      generalize (inject_Z m). intros M A P Ha H2' H3'.
      rewrite Ha in H2'. lra. }
    assert (H' : (inject_Z (2 * m) < inject_Z (2 * 2 ^ 53 + 1))%Q).
    { rewrite inject_Z_plus, !inject_Z_mult. exact H. }
    rewrite <- Zlt_Qlt in H'. lia. }
  rewrite Zle_Qle in Hm.
  pose proof (pow2_add (L - 52) 53) as Ha.
  replace (L - 52 + 53) with (L + 1) in Ha by lia.
  rewrite Ha. rewrite (Qmult_comm (2 ^ (L - 52))).
  apply Qmult_le_compat_r; [|apply Qlt_le_weak, pow2_pos].
  rewrite <- pow2_Z by lia. exact Hm.
Qed.


(** Integers are multiples of [2^e] when [e <= 0]; a multiple of [2^e]
    strictly below (above) an integer is at least [2^e] away from it. *)
Lemma int_on_grid j e :
  e <= 0 -> (inject_Z j == inject_Z (j * 2 ^ (- e)) * 2 ^ e)%Q.
Proof.
  intros He. rewrite inject_Z_mult, pow2_Z by lia.
  rewrite <- Qmult_assoc, <- pow2_add.
  replace (- e + e) with 0 by lia. change (2 ^ 0)%Q with 1%Q. ring.
Qed.

Lemma grid_below m e j :
  e <= 0 ->
  (inject_Z m * 2 ^ e < inject_Z j)%Q ->
  (inject_Z m * 2 ^ e + 2 ^ e <= inject_Z j)%Q.
Proof.
  intros He H. rewrite (int_on_grid j e He) in *.
  apply Qmult_lt_r in H; [|apply pow2_pos]. rewrite <- Zlt_Qlt in H.
  assert (H' : m + 1 <= j * 2 ^ (- e)) by lia.
  rewrite Zle_Qle, inject_Z_plus in H'.
  apply (Qmult_le_compat_r _ _ (2 ^ e)) in H';
    [|apply Qlt_le_weak, pow2_pos].
  change (inject_Z 1) with 1%Q in H'. lra.
Qed.

Lemma grid_above m e j :
  e <= 0 ->
  (inject_Z j < inject_Z m * 2 ^ e)%Q ->
  (inject_Z j + 2 ^ e <= inject_Z m * 2 ^ e)%Q.
Proof.
  intros He H. rewrite (int_on_grid j e He) in *.
  apply Qmult_lt_r in H; [|apply pow2_pos]. rewrite <- Zlt_Qlt in H.
  assert (H' : j * 2 ^ (- e) + 1 <= m) by lia.
  rewrite Zle_Qle, inject_Z_plus in H'.
  apply (Qmult_le_compat_r _ _ (2 ^ e)) in H';
    [|apply Qlt_le_weak, pow2_pos].
  change (inject_Z 1) with 1%Q in H'. lra.
Qed.

(** Integers of at most 53 bits are floats. *)
Lemma RN_int z : 0 < z < 2 ^ 53 -> (RN (inject_Z z) == inject_Z z)%Q.
Proof.
  intros [Hz0 Hz].
  assert (Hz1 : (1 <= inject_Z z)%Q).
  { change 1%Q with (inject_Z 1). rewrite <- Zle_Qle. lia. }
  assert (Hn : (2 ^ (-1022) <= inject_Z z)%Q).
  { eapply Qle_trans; [apply (pow2_le (-1022) 0); lia | exact Hz1]. }
  destruct (RN_normal _ Hn) as (m & e & H1 & [H2 _] & [H3 H3'] & _).
  assert (He : e <= 0).
  { assert (e + 52 < 53); [|lia]. apply pow2_lt_inv.
    eapply Qle_lt_trans; [exact H2|]. rewrite <- pow2_Z by lia.
    rewrite <- Zlt_Qlt. exact Hz. }
  rewrite H1. pose proof (pow2_pos e) as HP.
  destruct (Q_dec (inject_Z m * 2 ^ e) (inject_Z z)) as [[Hlt|Hgt]|Heq].
  - pose proof (grid_below _ _ _ He Hlt). lra.
  - pose proof (grid_above _ _ _ He Hgt). lra.
  - exact Heq.
Qed.

Lemma trunc_nonneg x : (0 <= x)%Q -> trunc x = Qfloor x.
Proof.
  destruct x as [n d]. unfold Qle, trunc, Qfloor. simpl. intros H.
  apply Z.quot_div_nonneg; lia.
Qed.

Lemma Qfloor_unique x k :
  (inject_Z k <= x < inject_Z k + 1)%Q -> Qfloor x = k.
Proof.
  intros [H1 H2].
  pose proof (Qfloor_le x) as H3. pose proof (Qlt_floor x) as H4.
  rewrite inject_Z_plus in H4. change (inject_Z 1) with 1%Q in H4.
  assert (Ha : (inject_Z (Qfloor x) < inject_Z (k + 1))%Q)
    by (rewrite inject_Z_plus; change (inject_Z 1) with 1%Q; lra).
  assert (Hb : (inject_Z k < inject_Z (Qfloor x + 1))%Q)
    by (rewrite inject_Z_plus; change (inject_Z 1) with 1%Q; lra).
  rewrite <- Zlt_Qlt in Ha, Hb. lia.
Qed.

Lemma trunc_unique x k :
  0 <= k -> (inject_Z k <= x < inject_Z k + 1)%Q -> trunc x = k.
Proof.
  intros Hk H. rewrite trunc_nonneg; [by apply Qfloor_unique|].
  apply Qle_trans with (inject_Z k); [|apply H].
  change 0%Q with (inject_Z 0). rewrite <- Zle_Qle. exact Hk.
Qed.

Lemma Qltb_true a b : (a < b)%Q -> Qltb a b = true.
Proof.
  intros H. unfold Qltb. destruct (Qcompare_spec a b); auto; lra.
Qed.

Lemma Qltb_false a b : (b <= a)%Q -> Qltb a b = false.
Proof.
  intros H. unfold Qltb. destruct (Qcompare_spec a b); auto; lra.
Qed.

Lemma Qeqb_true a b : (a == b)%Q -> Qeqb a b = true.
Proof.
  intros H. unfold Qeqb. destruct (Qcompare_spec a b); auto; lra.
Qed.

Lemma Qeqb_false a b : ~ (a == b)%Q -> Qeqb a b = false.
Proof.
  intros H. unfold Qeqb. destruct (Qcompare_spec a b); auto; contradiction.
Qed.

(** The sign test on [x % 60] for a float [x] between [60 k] and
    [60 (k + 1)]. *)
Lemma mod_60_sign x k :
  0 <= k ->
  (inject_Z (60 * k) <= x < inject_Z (60 * (k + 1)))%Q ->
  Qltb 0%Q (mod_ x 60%Q) = Qltb (inject_Z (60 * k)) x.
Proof.
  intros Hk [H1 H2].
  rewrite inject_Z_mult in H1. rewrite inject_Z_mult, inject_Z_plus in H2.
  change (inject_Z 60) with 60%Q in *. change (inject_Z 1) with 1%Q in *.
  assert (Ht : trunc (x / 60)%Q = k).
  { apply trunc_unique; [exact Hk|].
    split; [apply Qle_shift_div_l | apply Qlt_shift_div_r]; lra. }
  assert (Hf : (fmod x 60%Q == x - 60 * inject_Z k)%Q).
  { unfold fmod. rewrite Ht. reflexivity. }
  rewrite inject_Z_mult. change (inject_Z 60) with 60%Q.
  unfold mod_. destruct (Q_dec (60 * inject_Z k) x) as [[Hlt|Hgt]|Heq].
  - rewrite Qeqb_false by (rewrite Hf; lra).
    rewrite (Qltb_false 60%Q 0%Q) by lra.
    rewrite (Qltb_false (fmod x 60%Q) 0%Q) by (rewrite Hf; lra). simpl.
    rewrite (Qltb_true _ _ Hlt). apply Qltb_true. rewrite Hf. lra.
  - lra.
  - rewrite Qeqb_true by (rewrite Hf; lra).
    rewrite (Qltb_false (60 * inject_Z k)%Q x) by lra. reflexivity.
Qed.


(** The body of [calcular_tempo_permanencia] on the elapsed time, and the
    method when the subtraction goes through. *)
Lemma minutos_do_delta_eq d :
  minutos_do_delta d =
    let ts := total_seconds d in
    if Qltb 0%Q (mod_ ts 60%Q)
    then trunc (div ts 60%Q) + 1
    else trunc (div ts 60%Q).
Proof. reflexivity. Qed.

Lemma calcular_tempo_permanencia_delta self t_saida d :
  sub t_saida (timestamp_entrada self) = Some d ->
  calcular_tempo_permanencia self t_saida = Some (minutos_do_delta d).
Proof. unfold calcular_tempo_permanencia. intros ->. reflexivity. Qed.

(** The difference of two naive datetimes is the difference of their
    readings; the difference of two valid datetimes of the same kind is
    less than two days beyond the span of the calendar; and there is a
    difference exactly when both are of the same kind. *)
Lemma sub_naive a b :
  utcoffset a = None -> utcoffset b = None ->
  sub a b = Some (relogio a - relogio b).
Proof. unfold sub. intros -> ->. reflexivity. Qed.

Lemma sub_valid a b d :
  valid a -> valid b -> sub a b = Some d ->
  - (datetime_end + 2 * dia) < d < datetime_end + 2 * dia.
Proof.
  unfold valid, sub, datetime_end, dia. intros [Ha Hoa] [Hb Hob].
  destruct (utcoffset a), (utcoffset b); intros H; simplify_eq; lia.
Qed.

Lemma sub_is_Some a b :
  is_Some (sub a b) <-> (is_Some (utcoffset a) <-> is_Some (utcoffset b)).
Proof.
  unfold sub. destruct (utcoffset a), (utcoffset b);
    rewrite ?is_Some_alt; tauto.
Qed.

Lemma segundos_exatos d :
  (inject_Z d / inject_Z 1000000 * 1000000 == inject_Z d)%Q.
Proof. change (inject_Z 1000000) with 1000000%Q. field. Qed.

(** A whole number of minutes. *)
Lemma tempo_exato d k :
  0 < k -> d = minuto * k -> d < limite ->
  let ts := total_seconds d in
  (if Qltb 0%Q (mod_ ts 60%Q)
   then trunc (div ts 60%Q) + 1 else trunc (div ts 60%Q)) = k.
Proof.
  unfold minuto, limite. intros Hk Hd Hlim. cbv zeta.
  set (ts := total_seconds d).
  assert (Hts : (ts == inject_Z (60 * k))%Q).
  { unfold ts, total_seconds, int_truediv.
    rewrite (RN_comp _ (inject_Z (60 * k))).
    - apply RN_int. lia.
    - subst d. rewrite !inject_Z_mult.
      change (inject_Z 60000000) with 60000000%Q.
      change (inject_Z 1000000) with 1000000%Q.
      change (inject_Z 60) with 60%Q. field. }
  assert (Hdiv : (div ts 60 == inject_Z k)%Q).
  { unfold div. rewrite (RN_comp _ (inject_Z k)).
    - apply RN_int. lia.
    - rewrite Hts, inject_Z_mult. change (inject_Z 60) with 60%Q. field. }
  rewrite (mod_60_sign ts k);
    [|lia | split; rewrite Hts;
            [apply Qle_refl | rewrite <- Zlt_Qlt; lia]].
  rewrite Qltb_false by (rewrite Hts; apply Qle_refl).
  apply trunc_unique; [lia|]. rewrite Hdiv. lra.
Qed.

(** The float quotient by sixty of a float strictly between two whole
    minutes truncates to the lower one: the quotient is rounded on a grid
    at least 32 times finer than the one [x] lies on, so it cannot reach
    the next integer. *)
Lemma quociente_60 x m e k :
  0 <= k -> e <= 0 ->
  (x == inject_Z m * 2 ^ e)%Q ->
  (x <= 2 ^ (e + 53))%Q ->
  (2 ^ (-1000) <= x)%Q ->
  (60 * inject_Z k < x < 60 * (inject_Z k + 1))%Q ->
  trunc (div x 60%Q) = k.
Proof.
  intros Hk He00 Hx Hx3 Hmin Hts.
  assert (Hk0 : (0 <= inject_Z k)%Q)
    by (change 0%Q with (inject_Z 0); rewrite <- Zle_Qle; lia).
  pose proof (pow2_pos e) as HP.
  unfold div. set (y := (x / 60)%Q).
  assert (Hy : (y * 60 == x)%Q) by (unfold y; field).
  assert (Hny : (2 ^ (-1022) <= y)%Q).
  { eapply Qle_trans; [apply (pow2_le (-1022) (-1006)); lia |].
    pose proof (pow2_add (-1006) 6) as Ha.
    change (-1006 + 6) with (-1000) in Ha.
    change (2 ^ 6)%Q with 64%Q in Ha.
    pose proof (pow2_pos (-1006)). lra. }
  destruct (RN_normal y Hny) as (m' & e' & Hz & [He1' He2'] & [Hz1 Hz2] & _).
  pose proof (pow2_pos e') as HP'.
  assert (He' : e' + 5 <= e).
  { assert (e' + 57 < e + 53); [|lia]. apply pow2_lt_inv.
    eapply Qlt_le_trans; [|exact Hx3].
    pose proof (pow2_add (e' + 52) 5) as Ha.
    replace (e' + 52 + 5) with (e' + 57) in Ha by lia.
    change (2 ^ 5)%Q with 32%Q in Ha. rewrite Ha.
    pose proof (pow2_pos (e' + 52)). lra. }
  assert (HPP : (32 * 2 ^ e' <= 2 ^ e)%Q).
  { pose proof (pow2_le (e' + 5) e He') as Hle.
    rewrite pow2_add in Hle. change (2 ^ 5)%Q with 32%Q in Hle. lra. }
  assert (He0 : e' <= 0) by lia.
  apply trunc_unique; [exact Hk|]. rewrite Hz.
  split.
  - destruct (Qlt_le_dec (inject_Z m' * 2 ^ e') (inject_Z k)) as [Hlt|Hge];
      [|exact Hge].
    pose proof (grid_below _ _ _ He0 Hlt). lra.
  - destruct (Qlt_le_dec (inject_Z m' * 2 ^ e') (inject_Z k + 1))
      as [Hlt|Hge]; [exact Hlt|].
    assert (Hg : (x < inject_Z (60 * (k + 1)))%Q).
    { rewrite inject_Z_mult, inject_Z_plus.
      change (inject_Z 60) with 60%Q. change (inject_Z 1) with 1%Q. lra. }
    rewrite Hx in Hg. apply (grid_below _ _ _ He00) in Hg.
    rewrite <- Hx in Hg. rewrite inject_Z_mult, inject_Z_plus in Hg.
    change (inject_Z 60) with 60%Q in Hg.
    change (inject_Z 1) with 1%Q in Hg. lra.
Qed.

(** Some seconds or microseconds past a whole number of minutes. *)
Lemma tempo_inexato d k r :
  0 <= k -> 0 < r < minuto -> d = minuto * k + r -> d < limite ->
  let ts := total_seconds d in
  (if Qltb 0%Q (mod_ ts 60%Q)
   then trunc (div ts 60%Q) + 1 else trunc (div ts 60%Q)) = k + 1.
Proof.
  unfold minuto, limite. intros Hk Hr Hd Hlim. cbv zeta.
  set (ts := total_seconds d).
  set (q := (inject_Z d / inject_Z 1000000)%Q).
  pose proof (segundos_exatos d) as Hs. fold q in Hs.
  (* the exact number of seconds is at least a microsecond away from the
     two whole minutes around it *)
  assert (Hlo : (inject_Z (60000000 * k + 1) <= inject_Z d)%Q)
    by (rewrite <- Zle_Qle; lia).
  assert (Hhi : (inject_Z d <= inject_Z (60000000 * (k + 1) - 1))%Q)
    by (rewrite <- Zle_Qle; lia).
  assert (Hmax : (inject_Z d < inject_Z (2 ^ 34 * 1000000))%Q)
    by (rewrite <- Zlt_Qlt; lia).
  assert (Hk0 : (0 <= inject_Z k)%Q)
    by (change 0%Q with (inject_Z 0); rewrite <- Zle_Qle; lia).
  rewrite inject_Z_plus, inject_Z_mult in Hlo.
  rewrite inject_Z_sub, inject_Z_mult, inject_Z_plus in Hhi.
  change (inject_Z 60000000) with 60000000%Q in *.
  change (inject_Z 1) with 1%Q in *.
  change (inject_Z (2 ^ 34 * 1000000)) with 17179869184000000%Q in Hmax.
  (* the float [ts] is within [2^-20] of it *)
  assert (Hn : (2 ^ (-1022) <= q)%Q).
  { eapply Qle_trans; [apply (pow2_le (-1022) (-20)); lia |].
    change (2 ^ (-20))%Q with (1 # 1048576)%Q. lra. }
  destruct (RN_normal q Hn) as (m & e & Hx & [He1 He2] & [Hx1 Hx2] & Hx3).
  change (RN q) with ts in Hx.
  assert (He : e <= -19).
  { assert (e + 52 < 34); [|lia]. apply pow2_lt_inv.
    eapply Qle_lt_trans; [exact He1|].
    change (2 ^ 34)%Q with 17179869184%Q. lra. }
  pose proof (pow2_pos e) as HP.
  pose proof (pow2_le e (-19) He) as HP19.
  change (2 ^ (-19))%Q with (1 # 524288)%Q in HP19.
  rewrite <- Hx in Hx1, Hx2, Hx3.
  assert (Hts : (60 * inject_Z k < ts < 60 * (inject_Z k + 1))%Q) by lra.
  (* the sign test sees the remainder *)
  rewrite (mod_60_sign ts k);
    [|lia | rewrite !inject_Z_mult, inject_Z_plus;
            change (inject_Z 60) with 60%Q; change (inject_Z 1) with 1%Q;
            lra].
  rewrite Qltb_true
    by (rewrite inject_Z_mult; change (inject_Z 60) with 60%Q; lra).
  f_equal.
  apply (quociente_60 ts m e k); [exact Hk | lia | exact Hx | exact Hx3
                                 | | exact Hts].
  eapply Qle_trans; [apply (pow2_le (-1000) (-40)); lia |].
  change (2 ^ (-40))%Q with (1 # 1099511627776)%Q. lra.
Qed.

Lemma Qceiling_unique x k :
  (inject_Z k - 1 < x <= inject_Z k)%Q -> Qceiling x = k.
Proof.
  intros [H1 H2].
  pose proof (Qle_ceiling x) as H3. pose proof (Qceiling_lt x) as H4.
  rewrite inject_Z_sub in H4. change (inject_Z 1) with 1%Q in H4.
  assert (Ha : (inject_Z (Qceiling x) < inject_Z (k + 1))%Q)
    by (rewrite inject_Z_plus; change (inject_Z 1) with 1%Q; lra).
  assert (Hb : (inject_Z k < inject_Z (Qceiling x + 1))%Q)
    by (rewrite inject_Z_plus; change (inject_Z 1) with 1%Q; lra).
  rewrite <- Zlt_Qlt in Ha, Hb. lia.
Qed.

(** Below [2^34] seconds of stay (some 544 years) the float computation of
    [calcular_tempo_permanencia] is the ceiling of the elapsed seconds over
    sixty: any remainder, down to one microsecond, adds a minute, and an
    exact multiple of sixty seconds adds none. *)
Lemma tempo_permanencia_arredonda_para_cima self t_saida d :
  sub t_saida (timestamp_entrada self) = Some d ->
  0 <= d < limite ->
  calcular_tempo_permanencia self t_saida = Some (minutos_arredondados d).
Proof.
  intros Hsub [Hd0 Hlim].
  rewrite (calcular_tempo_permanencia_delta _ _ _ Hsub). f_equal.
  clear Hsub. rewrite minutos_do_delta_eq. cbv zeta.
  unfold minutos_arredondados, segundos_decorridos.
  destruct (Z.eq_dec d 0) as [->|Hne]; [reflexivity|].
  pose proof (Z.div_mod d minuto ltac:(unfold minuto; lia)) as Hdm.
  pose proof (Z.mod_pos_bound d minuto ltac:(unfold minuto; lia)) as Hr.
  assert (Hk : 0 <= d / minuto) by (apply Z.div_pos; unfold minuto; lia).
  assert (Hq : (inject_Z d / 1000000 / 60 * 60000000 == inject_Z d)%Q)
    by field.
  destruct (Z.eq_dec (d mod minuto) 0) as [Hz|Hnz].
  - rewrite (tempo_exato d (d / minuto)); [|nia | lia | exact Hlim].
    symmetry. apply Qceiling_unique.
    assert (He : (inject_Z d == 60000000 * inject_Z (d / minuto))%Q).
    { rewrite Hdm at 1. rewrite Hz, Z.add_0_r, inject_Z_mult. reflexivity. }
    lra.
  - rewrite (tempo_inexato d (d / minuto) (d mod minuto));
      [|exact Hk | lia | exact Hdm | exact Hlim].
    symmetry. apply Qceiling_unique.
    assert (H1 : (inject_Z (minuto * (d / minuto)) < inject_Z d)%Q)
      by (rewrite <- Zlt_Qlt; lia).
    assert (H2 : (inject_Z d < inject_Z (minuto * (d / minuto + 1)))%Q)
      by (rewrite <- Zlt_Qlt; lia).
    rewrite inject_Z_mult in H1. rewrite inject_Z_mult, inject_Z_plus in H2.
    rewrite inject_Z_plus.
    change (inject_Z minuto) with 60000000%Q in *.
    change (inject_Z 1) with 1%Q in *. lra.
Qed.

(** For every pair of valid datetimes that can be subtracted, however far
    apart, the result is the ceiling of the float [total_seconds()] over
    sixty. *)
Lemma minutos_do_delta_do_float d :
  0 <= d < datetime_end + 2 * dia ->
  minutos_do_delta d = Qceiling (total_seconds d / 60).
Proof.
  unfold datetime_end, dia. intros [Hd0 Hd1].
  rewrite minutos_do_delta_eq. cbv zeta.
  destruct (Z.eq_dec d 0) as [->|Hne]; [reflexivity|].
  set (ts := total_seconds d).
  set (q := (inject_Z d / inject_Z 1000000)%Q).
  pose proof (segundos_exatos d) as Hq. fold q in Hq.
  assert (Hlo : (inject_Z 1 <= inject_Z d)%Q) by (rewrite <- Zle_Qle; lia).
  assert (Hhi : (inject_Z d < inject_Z 315538070400000000)%Q)
    by (rewrite <- Zlt_Qlt; lia).
  change (inject_Z 1) with 1%Q in Hlo.
  change (inject_Z 315538070400000000) with 315538070400000000%Q in Hhi.
  assert (Hn : (2 ^ (-1022) <= q)%Q).
  { eapply Qle_trans; [apply (pow2_le (-1022) (-20)); lia |].
    change (2 ^ (-20))%Q with (1 # 1048576)%Q. lra. }
  destruct (RN_normal q Hn) as (m & e & Hx & [He1 He2] & [Hx1 Hx2] & Hx3).
  change (RN q) with ts in Hx. rewrite <- Hx in Hx1, Hx2, Hx3.
  assert (He : -73 <= e <= -14).
  { split.
    - assert (-20 < e + 53); [|lia]. apply pow2_lt_inv.
      eapply Qle_lt_trans; [|exact He2].
      change (2 ^ (-20))%Q with (1 # 1048576)%Q. lra.
    - assert (e + 52 < 39); [|lia]. apply pow2_lt_inv.
      eapply Qle_lt_trans; [exact He1|].
      change (2 ^ 39)%Q with 549755813888%Q. lra. }
  pose proof (pow2_pos e) as HP.
  assert (Hts0 : (2 ^ (-22) <= ts)%Q).
  { pose proof (pow2_le (-21) (e + 52) ltac:(lia)) as H1.
    pose proof (pow2_le e (-14) ltac:(lia)) as H2.
    pose proof (pow2_add (-22) 1) as H3. change (-22 + 1) with (-21) in H3.
    change (2 ^ 1)%Q with 2%Q in H3.
    pose proof (pow2_le e (e + 52) ltac:(lia)) as H4.
    pose proof (pow2_pos (-22)).  lra. }
  assert (Hts1 : (ts <= 549755813888)%Q).
  { pose proof (pow2_le (e + 53) 39 ltac:(lia)) as H1.
    change (2 ^ 39)%Q with 549755813888%Q in H1. lra. }
  assert (Hmin : (2 ^ (-1000) <= ts)%Q).
  { eapply Qle_trans; [apply (pow2_le (-1000) (-22)); lia | exact Hts0]. }
  assert (Hpos : (0 < ts)%Q).
  { eapply Qlt_le_trans; [apply (pow2_pos (-22)) | exact Hts0]. }
  (* the whole minutes in the float *)
  set (k := Qfloor (ts / 60)).
  pose proof (Qfloor_le (ts / 60)) as Hk1.
  pose proof (Qlt_floor (ts / 60)) as Hk2. fold k in Hk1, Hk2.
  rewrite inject_Z_plus in Hk2. change (inject_Z 1) with 1%Q in Hk2.
  assert (Hy : (ts / 60 * 60 == ts)%Q) by field.
  assert (Hk : 0 <= k).
  { change 0 with (Qfloor 0). apply Qfloor_resp_le.
    apply Qle_shift_div_l; lra. }
  assert (Hk0 : (0 <= inject_Z k)%Q)
    by (change 0%Q with (inject_Z 0); rewrite <- Zle_Qle; lia).
  assert (Hkmax : k < 2 ^ 53).
  { assert (H : (inject_Z k < inject_Z (2 ^ 53))%Q).
    { change (inject_Z (2 ^ 53)) with 9007199254740992%Q. lra. }
    rewrite <- Zlt_Qlt in H. exact H. }
  rewrite (mod_60_sign ts k);
    [|exact Hk | rewrite !inject_Z_mult, inject_Z_plus;
                 change (inject_Z 60) with 60%Q;
                 change (inject_Z 1) with 1%Q; lra].
  rewrite inject_Z_mult. change (inject_Z 60) with 60%Q.
  destruct (Qlt_le_dec (60 * inject_Z k) ts) as [Hlt|Hge].
  - rewrite (Qltb_true _ _ Hlt).
    rewrite (quociente_60 ts m e k);
      [|exact Hk | lia | exact Hx | exact Hx3 | exact Hmin | lra].
    symmetry. apply Qceiling_unique.
    rewrite inject_Z_plus. change (inject_Z 1) with 1%Q. lra.
  - rewrite (Qltb_false _ _ Hge).
    assert (Heq : (ts / 60 == inject_Z k)%Q) by lra.
    assert (Hk' : 0 < k).
    { destruct (Z.eq_dec k 0) as [E|E]; [|lia].
      rewrite E in Heq. change (inject_Z 0) with 0%Q in Heq. lra. }
    unfold div. rewrite (RN_comp _ _ Heq).
    rewrite (Qceiling_unique (ts / 60) k) by lra.
    apply trunc_unique; [exact Hk|].
    rewrite (RN_int k) by lia. lra.
Qed.

Lemma tempo_permanencia_do_float self t_saida d :
  valid (timestamp_entrada self) -> valid t_saida ->
  sub t_saida (timestamp_entrada self) = Some d ->
  0 <= d ->
  calcular_tempo_permanencia self t_saida
  = Some (Qceiling (total_seconds d / 60)).
Proof.
  intros He Hs Hsub Hd.
  rewrite (calcular_tempo_permanencia_delta _ _ _ Hsub). f_equal.
  apply minutos_do_delta_do_float.
  pose proof (sub_valid _ _ _ Hs He Hsub). lia.
Qed.

Lemma tempo_permanencia_arredonda_para_cima_witness :
  sub (on_2024_01_01 11 5 30) (timestamp_entrada veiculo_ABC1234)
  = Some 3930000000
  /\ 0 <= 3930000000 < limite
  /\ calcular_tempo_permanencia veiculo_ABC1234 (on_2024_01_01 11 5 30)
     = Some 66.
Proof.
  split; [reflexivity|].
  split; [vm_compute; split; [discriminate | reflexivity]|].
  rewrite (tempo_permanencia_arredonda_para_cima veiculo_ABC1234
             (on_2024_01_01 11 5 30) 3930000000);
    [reflexivity | reflexivity
    | vm_compute; split; [discriminate | reflexivity]].
Defined.

(** C1.  The duration is meant to be the ceiling of the elapsed seconds
    over sixty, for every entry and later exit; the code misses it on very
    long stays.  Between 0001-01-01T00:00:00 and 9999-01-01T00:00:00.000001
    there are 5258439360 whole minutes and one microsecond, so the ceiling
    is 5258439361; [total_seconds] cannot hold the microsecond next to that
    many seconds and returns 315506361600.0, the remainder test sees a
    multiple of sixty, and [calcular_tempo_permanencia] returns
    5258439360. *)
Theorem tempo_permanencia_perde_o_microssegundo :
  let entrada := jan1 1 0 in
  let saida := jan1 9999 1 in
  let decorrido := minuto * 5258439360 + 1 in
  let v := veiculo.__init__ "ABC1234" entrada "terreo" None in
  valid entrada /\ valid saida /\ relogio entrada <= relogio saida
  /\ utcoffset entrada = None /\ utcoffset saida = None
  /\ sub saida entrada = Some decorrido
  /\ minutos_arredondados decorrido = 5258439361
  /\ total_seconds decorrido = 315506361600%Q
  /\ calcular_tempo_permanencia v saida = Some 5258439360.
Proof.
  vm_compute. repeat split; intros H; discriminate H.
Qed.

Lemma max_Qmax a b : pyfloat.max a b = Qmax a b.
Proof.
  unfold pyfloat.max, Qltb, Qmax, GenericMinMax.gmax.
  destruct (a ?= b)%Q; reflexivity.
Qed.

(** C2.  The fee [processar_saida] computes on exit, and [calcular_valor]
    for any assigned duration, is the larger of the float product
    [minutes * rate] and the minimum fee, for every duration, rate and
    minimum: whenever [calcular_tempo_permanencia] gives a duration,
    [processar_saida] returns its dictionary, with that fee in it and on
    the vehicle (and when it raises, so does [processar_saida]).  With
    rate 0.15 and minimum 2.00: 10 minutes give 2.00, 20 minutes give 3.00
    and 30 minutes give 4.50. *)
Theorem valor_e_o_maximo self t_saida t preco_por_minuto valor_minimo :
  (forall minutos,
     calcular_tempo_permanencia self t_saida = Some minutos ->
     exists resultado,
       (processar_saida self t_saida preco_por_minuto valor_minimo).2
       = Some resultado
       /\ r_valor_calculado resultado
          = Some (Qmax (mul (of_int minutos) preco_por_minuto) valor_minimo)
       /\ r_tempo_permanencia_minutos resultado = Some minutos
       /\ valor_calculado
            (processar_saida self t_saida preco_por_minuto valor_minimo).1
          = r_valor_calculado resultado)
  /\ (calcular_tempo_permanencia self t_saida = None ->
      (processar_saida self t_saida preco_por_minuto valor_minimo).2 = None)
  /\ calcular_valor (set_tempo_permanencia_minutos (Some t) self)
       preco_por_minuto valor_minimo
     = Qmax (mul (of_int t) preco_por_minuto) valor_minimo
  /\ calcular_valor (veiculo_com_tempo 10) preco_padrao minimo_padrao = 2%Q
  /\ calcular_valor (veiculo_com_tempo 20) preco_padrao minimo_padrao = 3%Q
  /\ calcular_valor (veiculo_com_tempo 30) preco_padrao minimo_padrao
     = (9 # 2)%Q.
Proof.
  assert (Hc : calcular_tempo_permanencia
                 (set_timestamp_saida (Some t_saida) self) t_saida
               = calcular_tempo_permanencia self t_saida) by reflexivity.
  split; [|split; [|split]].
  - intros minutos Hm. unfold processar_saida. rewrite Hc, Hm.
    eexists. split; [reflexivity|]. simpl. unfold calcular_valor. simpl.
    by rewrite max_Qmax.
  - intros Hn. unfold processar_saida. rewrite Hc, Hn. reflexivity.
  - unfold calcular_valor. simpl. apply max_Qmax.
  - vm_compute. auto.
Qed.

End faturamento.

(* ===================================================================== *)
(** ** Properties of the central server *)
(* ===================================================================== *)

Section central.
Import pytime evento servidor_central exemplos.

(** With the garage closed, every well-formed event gets the same reply,
    whatever its kind and whatever is parked, and nothing changes. *)
Lemma fechado_nega amb self dados ev :
  criar_evento dados = inr ev ->
  estacionamento_fechado self = true ->
  _processar_evento amb self dados =
    (resposta (id_local (agora amb)) false negar_entrada
       Estacionamento_fechado, self).
Proof.
  intros Hev Hf. unfold _processar_evento. rewrite Hev, Hf. reflexivity.
Qed.

(** Past the two administrative checks, the event goes to the handler of
    its kind, and what the handler raises becomes the error reply. *)
Lemma despacho amb self dados ev :
  criar_evento dados = inr ev ->
  estacionamento_fechado self = false ->
  andar_bloqueado self && String.eqb (andar ev) "terreo" = false ->
  _processar_evento amb self dados =
    match tipo ev with
    | ENTRADA => except_Exception amb (_processar_entrada amb self ev)
    | SAIDA => except_Exception amb (_processar_saida amb self ev)
    | _ => (resposta (id_local (agora amb)) false erro
              (Tipo_de_evento_nao_suportado (TipoEvento_value (tipo ev))),
            self)
    end.
Proof.
  intros Hev Hf Hb. unfold _processar_evento. rewrite Hev, Hf, Hb.
  reflexivity.
Qed.

Lemma _salvar_evento_preserva amb self ev :
  veiculos_estacionados (_salvar_evento amb self ev).2
    = veiculos_estacionados self
  /\ tabela_veiculos (_salvar_evento amb self ev).2 = tabela_veiculos self
  /\ estacionamento_fechado (_salvar_evento amb self ev).2
     = estacionamento_fechado self
  /\ andar_bloqueado (_salvar_evento amb self ev).2 = andar_bloqueado self.
Proof. unfold _salvar_evento. destruct (sqlite_eventos_ok amb); auto. Qed.

Lemma _salvar_evento_tabela amb self ev :
  tabela_eventos (_salvar_evento amb self ev).2 =
    tabela_eventos self ++ (if sqlite_eventos_ok amb then [ev] else []).
Proof.
  unfold _salvar_evento. destruct (sqlite_eventos_ok amb); simpl; auto.
  by rewrite app_nil_r.
Qed.

Lemma _salvar_veiculo_tabela_eventos amb self v :
  tabela_eventos (_salvar_veiculo amb self v) = tabela_eventos self.
Proof. unfold _salvar_veiculo. by destruct (sqlite_veiculos_ok amb). Qed.

Lemma _atualizar_veiculo_tabela_eventos amb self v :
  tabela_eventos (_atualizar_veiculo amb self v) = tabela_eventos self.
Proof. unfold _atualizar_veiculo. by destruct (sqlite_veiculos_ok amb). Qed.

(** The branches of [_processar_entrada] and of [_processar_saida], by the
    plate of the event and what the parked map holds for it. *)
Lemma _processar_entrada_nao_hashable amb self ev :
  placa ev = nao_hashable ->
  _processar_entrada amb self ev = (levanta TypeError_unhashable, self).
Proof. unfold _processar_entrada. by intros ->. Qed.

Lemma _processar_saida_nao_hashable amb self ev :
  placa ev = nao_hashable ->
  _processar_saida amb self ev = (levanta TypeError_unhashable, self).
Proof. unfold _processar_saida. by intros ->. Qed.

Lemma _processar_entrada_estacionada amb self ev p v :
  placa ev = str p ->
  veiculos_estacionados self !! p = Some v ->
  _processar_entrada amb self ev =
    (retorna (resposta (_salvar_evento amb self ev).1 false negar_entrada
                Veiculo_ja_esta_estacionado),
     (_salvar_evento amb self ev).2).
Proof.
  unfold _processar_entrada. intros -> ->.
  by destruct (_salvar_evento amb self ev).
Qed.

Lemma _processar_entrada_livre amb self ev p :
  placa ev = str p ->
  veiculos_estacionados self !! p = None ->
  let v := veiculo.__init__ p (timestamp ev) (andar ev) None in
  let salvo :=
    _salvar_evento amb
      (set_veiculos_estacionados (<[p := v]> (veiculos_estacionados self))
         self)
      (set_status CONCLUIDO ev) in
  _processar_entrada amb self ev =
    (retorna (resposta salvo.1 true abrir_cancela Entrada_autorizada),
     _salvar_veiculo amb salvo.2 v).
Proof.
  unfold _processar_entrada. intros -> ->. cbv zeta.
  by destruct (_salvar_evento amb _ _).
Qed.

Lemma _processar_saida_ausente amb self ev p :
  placa ev = str p ->
  veiculos_estacionados self !! p = None ->
  _processar_saida amb self ev =
    (retorna (resposta (_salvar_evento amb self ev).1 false negar_saida
                Veiculo_nao_encontrado),
     (_salvar_evento amb self ev).2).
Proof.
  unfold _processar_saida. intros -> ->.
  by destruct (_salvar_evento amb self ev).
Qed.

(** [Veiculo.processar_saida] by whether the subtraction goes through. *)
Lemma processar_saida_levanta v t preco minimo :
  sub t (veiculo.timestamp_entrada v) = None ->
  veiculo.processar_saida v t preco minimo
  = (veiculo.set_timestamp_saida (Some t) v, None).
Proof.
  intros H. unfold veiculo.processar_saida, veiculo.calcular_tempo_permanencia.
  simpl. by rewrite H.
Qed.

Lemma processar_saida_retorna v t preco minimo d :
  sub t (veiculo.timestamp_entrada v) = Some d ->
  let minutos := veiculo.minutos_do_delta d in
  let valor :=
    Qmax (pyfloat.mul (pyfloat.of_int minutos) preco) minimo in
  veiculo.processar_saida v t preco minimo
  = ({| veiculo.placa := veiculo.placa v;
        veiculo.timestamp_entrada := veiculo.timestamp_entrada v;
        veiculo.timestamp_saida := Some t;
        veiculo.andar := veiculo.andar v;
        veiculo.vaga := veiculo.vaga v;
        veiculo.status := veiculo.SAIU;
        veiculo.valor_calculado := Some valor;
        veiculo.tempo_permanencia_minutos := Some minutos |},
     Some {| veiculo.r_placa := veiculo.placa v;
             veiculo.r_tempo_permanencia_minutos := Some minutos;
             veiculo.r_valor_calculado := Some valor;
             veiculo.r_timestamp_entrada := veiculo.timestamp_entrada v;
             veiculo.r_timestamp_saida := Some t |}).
Proof.
  intros H. cbv zeta.
  unfold veiculo.processar_saida, veiculo.calcular_tempo_permanencia.
  simpl. rewrite H. unfold veiculo.calcular_valor. simpl.
  by rewrite max_Qmax.
Qed.

Lemma _processar_saida_levanta amb self ev p v :
  placa ev = str p ->
  veiculos_estacionados self !! p = Some v ->
  sub (timestamp ev) (veiculo.timestamp_entrada v) = None ->
  _processar_saida amb self ev =
    (levanta TypeError_naive_aware,
     set_veiculos_estacionados
       (<[p := veiculo.set_timestamp_saida (Some (timestamp ev)) v]>
          (veiculos_estacionados self)) self).
Proof.
  unfold _processar_saida. intros -> -> H.
  by rewrite (processar_saida_levanta _ _ _ _ H).
Qed.

Lemma _processar_saida_cobra amb self ev p v d :
  placa ev = str p ->
  veiculos_estacionados self !! p = Some v ->
  sub (timestamp ev) (veiculo.timestamp_entrada v) = Some d ->
  let minutos := veiculo.minutos_do_delta d in
  let valor :=
    Qmax (pyfloat.mul (pyfloat.of_int minutos) (preco_por_minuto self))
      (valor_minimo self) in
  let salvo :=
    _salvar_evento amb
      (set_veiculos_estacionados (delete p (veiculos_estacionados self))
         self)
      (set_status CONCLUIDO (set_valores (Some valor) (Some minutos) ev)) in
  _processar_saida amb self ev =
    (retorna {| evento_id := salvo.1;
                sucesso := true;
                acao := cobrar_valor;
                valor := Some valor;
                tempo_permanencia := Some minutos;
                mensagem := Some (Valor_a_pagar (Some valor)) |},
     _atualizar_veiculo amb salvo.2
       {| veiculo.placa := veiculo.placa v;
          veiculo.timestamp_entrada := veiculo.timestamp_entrada v;
          veiculo.timestamp_saida := Some (timestamp ev);
          veiculo.andar := veiculo.andar v;
          veiculo.vaga := veiculo.vaga v;
          veiculo.status := veiculo.SAIU;
          veiculo.valor_calculado := Some valor;
          veiculo.tempo_permanencia_minutos := Some minutos |}).
Proof.
  unfold _processar_saida. intros -> -> H. cbv zeta.
  rewrite (processar_saida_retorna _ _ _ _ _ H). cbv zeta. simpl.
  by destruct (_salvar_evento amb _ _).
Qed.

(** What a dispatched entry or exit writes to the event table: one row
    for the event when it returns and the insert goes through, granted or
    denied alike; nothing when it raises. *)
Lemma _processar_entrada_tabela amb self ev :
  match (_processar_entrada amb self ev).1 with
  | inl _ =>
      placa ev = nao_hashable
      /\ tabela_eventos (_processar_entrada amb self ev).2
         = tabela_eventos self
  | inr _ =>
      exists linha,
        tabela_eventos (_processar_entrada amb self ev).2
        = tabela_eventos self
            ++ (if sqlite_eventos_ok amb then [linha] else [])
        /\ placa linha = placa ev /\ tipo linha = tipo ev
        /\ timestamp linha = timestamp ev
  end.
Proof.
  destruct (placa ev) as [p|] eqn:Hp.
  - destruct (veiculos_estacionados self !! p) as [v|] eqn:Hv.
    + rewrite (_processar_entrada_estacionada _ _ _ _ _ Hp Hv). simpl.
      exists ev. rewrite _salvar_evento_tabela. auto.
    + rewrite (_processar_entrada_livre _ _ _ _ Hp Hv). simpl.
      exists (set_status CONCLUIDO ev).
      rewrite _salvar_veiculo_tabela_eventos, _salvar_evento_tabela. auto.
  - rewrite (_processar_entrada_nao_hashable _ _ _ Hp). simpl. auto.
Qed.

Lemma _processar_saida_tabela amb self ev :
  match (_processar_saida amb self ev).1 with
  | inl _ =>
      (placa ev = nao_hashable
       \/ exists p v,
            placa ev = str p
            /\ veiculos_estacionados self !! p = Some v
            /\ sub (timestamp ev) (veiculo.timestamp_entrada v) = None)
      /\ tabela_eventos (_processar_saida amb self ev).2
         = tabela_eventos self
  | inr _ =>
      exists linha,
        tabela_eventos (_processar_saida amb self ev).2
        = tabela_eventos self
            ++ (if sqlite_eventos_ok amb then [linha] else [])
        /\ placa linha = placa ev /\ tipo linha = tipo ev
        /\ timestamp linha = timestamp ev
  end.
Proof.
  destruct (placa ev) as [p|] eqn:Hp.
  - destruct (veiculos_estacionados self !! p) as [v|] eqn:Hv.
    + destruct (sub (timestamp ev) (veiculo.timestamp_entrada v))
        as [d|] eqn:Hd.
      * rewrite (_processar_saida_cobra _ _ _ _ _ _ Hp Hv Hd). simpl.
        eexists.
        rewrite _atualizar_veiculo_tabela_eventos, _salvar_evento_tabela.
        split; [reflexivity|]. auto.
      * rewrite (_processar_saida_levanta _ _ _ _ _ Hp Hv Hd). simpl.
        split; [right; eauto | reflexivity].
    + rewrite (_processar_saida_ausente _ _ _ _ Hp Hv). simpl.
      exists ev. rewrite _salvar_evento_tabela. auto.
  - rewrite (_processar_saida_nao_hashable _ _ _ Hp). simpl. auto.
Qed.

(** A handler that returns does not answer [erro]. *)
Lemma entrada_nunca_erro amb self ev r :
  (_processar_entrada amb self ev).1 = inr r -> acao r <> erro.
Proof.
  unfold _processar_entrada.
  destruct (placa ev) as [p|]; [|discriminate].
  destruct (veiculos_estacionados self !! p).
  - destruct (_salvar_evento amb self ev). simpl. intros [= <-]. discriminate.
  - destruct (_salvar_evento amb _ _). simpl. intros [= <-]. discriminate.
Qed.

Lemma saida_nunca_erro amb self ev r :
  (_processar_saida amb self ev).1 = inr r -> acao r <> erro.
Proof.
  unfold _processar_saida.
  destruct (placa ev) as [p|]; [|discriminate].
  destruct (veiculos_estacionados self !! p).
  - destruct (veiculo.processar_saida _ _ _ _) as [v' [res|]];
      [|discriminate].
    destruct (_salvar_evento amb _ _). simpl. intros [= <-]. discriminate.
  - destruct (_salvar_evento amb self ev). simpl. intros [= <-]. discriminate.
Qed.

(** C3.  An Entry event for a plate that is already in the parked map, with
    the garage open and the floor check not firing, is answered with
    [sucesso = false] and [acao = negar_entrada]; the parked map is left as
    it was and no vehicle row is written. *)
Theorem entrada_placa_ja_estacionada amb self dados ev p v :
  criar_evento dados = inr ev ->
  tipo ev = ENTRADA ->
  estacionamento_fechado self = false ->
  andar_bloqueado self && String.eqb (andar ev) "terreo" = false ->
  placa ev = str p ->
  veiculos_estacionados self !! p = Some v ->
  sucesso (_processar_evento amb self dados).1 = false
  /\ acao (_processar_evento amb self dados).1 = negar_entrada
  /\ veiculos_estacionados (_processar_evento amb self dados).2
     = veiculos_estacionados self
  /\ tabela_veiculos (_processar_evento amb self dados).2
     = tabela_veiculos self.
Proof.
  intros Hev Ht Hf Hb Hp Hv.
  rewrite (despacho _ _ _ _ Hev Hf Hb), Ht.
  rewrite (_processar_entrada_estacionada _ _ _ _ _ Hp Hv).
  pose proof (_salvar_evento_preserva amb self ev) as (H1 & H2 & _).
  simpl. auto.
Qed.

Lemma entrada_placa_ja_estacionada_witness :
  let dados := pedido "ABC1234" "entrada" (on_2024_01_01 10 5 0) in
  veiculos_estacionados central_com_ABC1234 !! "ABC1234"
    = Some (veiculo.__init__ "ABC1234" (on_2024_01_01 10 0 0) "terreo" None)
  /\ sucesso (_processar_evento amb0 central_com_ABC1234 dados).1 = false
  /\ acao (_processar_evento amb0 central_com_ABC1234 dados).1
     = negar_entrada
  /\ veiculos_estacionados
       (_processar_evento amb0 central_com_ABC1234 dados).2
     = veiculos_estacionados central_com_ABC1234
  /\ tabela_veiculos (_processar_evento amb0 central_com_ABC1234 dados).2
     = tabela_veiculos central_com_ABC1234.
Proof.
  intros dados. split; [vm_compute; reflexivity|].
  apply (entrada_placa_ja_estacionada amb0 central_com_ABC1234 dados
           (evento.__init__ (str "ABC1234") ENTRADA (on_2024_01_01 10 5 0)
              (pyfloat.RN (95 # 100)) "terreo")
           "ABC1234"
           (veiculo.__init__ "ABC1234" (on_2024_01_01 10 0 0) "terreo"
              None));
    vm_compute; reflexivity.
Defined.

(** C4.  An Exit event for a plate that is not in the parked map, with the
    garage open and the floor check not firing, is answered with
    [sucesso = false] and [acao = negar_saida]; the parked map is left as
    it was. *)
Theorem saida_placa_ausente amb self dados ev p :
  criar_evento dados = inr ev ->
  tipo ev = SAIDA ->
  estacionamento_fechado self = false ->
  andar_bloqueado self && String.eqb (andar ev) "terreo" = false ->
  placa ev = str p ->
  veiculos_estacionados self !! p = None ->
  sucesso (_processar_evento amb self dados).1 = false
  /\ acao (_processar_evento amb self dados).1 = negar_saida
  /\ veiculos_estacionados (_processar_evento amb self dados).2
     = veiculos_estacionados self.
Proof.
  intros Hev Ht Hf Hb Hp Hv.
  rewrite (despacho _ _ _ _ Hev Hf Hb), Ht.
  rewrite (_processar_saida_ausente _ _ _ _ Hp Hv).
  pose proof (_salvar_evento_preserva amb self ev) as (H1 & _).
  simpl. auto.
Qed.

Lemma saida_placa_ausente_witness :
  let dados := pedido "XYZ9876" "saida" (on_2024_01_01 10 5 0) in
  veiculos_estacionados central_com_ABC1234 !! "XYZ9876" = None
  /\ sucesso (_processar_evento amb0 central_com_ABC1234 dados).1 = false
  /\ acao (_processar_evento amb0 central_com_ABC1234 dados).1 = negar_saida
  /\ veiculos_estacionados
       (_processar_evento amb0 central_com_ABC1234 dados).2
     = veiculos_estacionados central_com_ABC1234.
Proof.
  intros dados. split; [vm_compute; reflexivity|].
  apply (saida_placa_ausente amb0 central_com_ABC1234 dados
           (evento.__init__ (str "XYZ9876") SAIDA (on_2024_01_01 10 5 0)
              (pyfloat.RN (95 # 100)) "terreo")
           "XYZ9876");
    vm_compute; reflexivity.
Defined.

(** C5.  While the garage is closed, an Entry event for any plate is
    answered with [sucesso = false] and [acao = negar_entrada], and the
    server state (parked map, flags, tables) is exactly what it was. *)
Theorem entrada_com_estacionamento_fechado amb self dados ev :
  criar_evento dados = inr ev ->
  tipo ev = ENTRADA ->
  estacionamento_fechado self = true ->
  sucesso (_processar_evento amb self dados).1 = false
  /\ acao (_processar_evento amb self dados).1 = negar_entrada
  /\ (_processar_evento amb self dados).2 = self.
Proof.
  intros Hev _ Hf. rewrite (fechado_nega _ _ _ _ Hev Hf). auto.
Qed.

Lemma entrada_com_estacionamento_fechado_witness :
  let dados := pedido "not a plate" "entrada" (on_2024_01_01 10 5 0) in
  estacionamento_fechado central_fechada_com_ABC1234 = true
  /\ sucesso (_processar_evento amb0 central_fechada_com_ABC1234 dados).1
     = false
  /\ acao (_processar_evento amb0 central_fechada_com_ABC1234 dados).1
     = negar_entrada
  /\ (_processar_evento amb0 central_fechada_com_ABC1234 dados).2
     = central_fechada_com_ABC1234.
Proof.
  intros dados. split; [reflexivity|].
  apply (entrada_com_estacionamento_fechado amb0
           central_fechada_com_ABC1234 dados
           (evento.__init__ (str "not a plate") ENTRADA
              (on_2024_01_01 10 5 0) (pyfloat.RN (95 # 100)) "terreo"));
    vm_compute; reflexivity.
Defined.

(** C10.  While the garage is closed, an Exit event is answered with
    [sucesso = false] and [acao = negar_entrada] (not [negar_saida]), also
    for a plate that is parked: the reply is one fixed record that does not
    depend on the parked map, and the state, the map included, is exactly
    what it was, so the vehicle stays parked. *)
Theorem saida_com_estacionamento_fechado amb self dados ev :
  criar_evento dados = inr ev ->
  tipo ev = SAIDA ->
  estacionamento_fechado self = true ->
  (_processar_evento amb self dados).1 =
    resposta (id_local (agora amb)) false negar_entrada
      Estacionamento_fechado
  /\ sucesso (_processar_evento amb self dados).1 = false
  /\ acao (_processar_evento amb self dados).1 = negar_entrada
  /\ acao (_processar_evento amb self dados).1 <> negar_saida
  /\ (_processar_evento amb self dados).2 = self
  /\ veiculos_estacionados (_processar_evento amb self dados).2
     = veiculos_estacionados self
  /\ (forall p,
        placa ev = str p ->
        veiculos_estacionados (_processar_evento amb self dados).2 !! p
        = veiculos_estacionados self !! p).
Proof.
  intros Hev _ Hf. rewrite (fechado_nega _ _ _ _ Hev Hf). simpl.
  repeat split; auto; discriminate.
Qed.

Lemma saida_com_estacionamento_fechado_witness :
  let dados := pedido "ABC1234" "saida" (on_2024_01_01 10 30 0) in
  let r := _processar_evento amb0 central_fechada_com_ABC1234 dados in
  is_Some (veiculos_estacionados central_fechada_com_ABC1234 !! "ABC1234")
  /\ sucesso r.1 = false
  /\ acao r.1 = negar_entrada
  /\ is_Some (veiculos_estacionados r.2 !! "ABC1234").
Proof.
  intros dados r.
  destruct (saida_com_estacionamento_fechado amb0
              central_fechada_com_ABC1234 dados
              (evento.__init__ (str "ABC1234") SAIDA
                 (on_2024_01_01 10 30 0) (pyfloat.RN (95 # 100)) "terreo"))
    as (_ & Hs & Ha & _ & He & _); [vm_compute; reflexivity ..|].
  assert (Hp : is_Some
            (veiculos_estacionados central_fechada_com_ABC1234
               !! "ABC1234")) by (vm_compute; eauto).
  split; [exact Hp|]. split; [exact Hs|]. split; [exact Ha|].
  unfold r. rewrite He. exact Hp.
Defined.

(** The two granting paths, for completeness: an Entry for a plate that is
    not parked opens the gate and parks it; an Exit for a parked plate
    whose entry timestamp can be subtracted from the event's charges the
    fee of its stay and removes it. *)
Lemma entrada_autorizada amb self dados ev p :
  criar_evento dados = inr ev ->
  tipo ev = ENTRADA ->
  estacionamento_fechado self = false ->
  andar_bloqueado self && String.eqb (andar ev) "terreo" = false ->
  placa ev = str p ->
  veiculos_estacionados self !! p = None ->
  sucesso (_processar_evento amb self dados).1 = true
  /\ acao (_processar_evento amb self dados).1 = abrir_cancela
  /\ veiculos_estacionados (_processar_evento amb self dados).2
     = <[p := veiculo.__init__ p (timestamp ev) (andar ev) None]>
         (veiculos_estacionados self).
Proof.
  intros Hev Ht Hf Hb Hp Hv.
  rewrite (despacho _ _ _ _ Hev Hf Hb), Ht.
  rewrite (_processar_entrada_livre _ _ _ _ Hp Hv). cbv zeta.
  match goal with |- context [_salvar_evento amb ?s ?e] =>
    pose proof (_salvar_evento_preserva amb s e) as (H1 & _) end.
  simpl in *. unfold _salvar_veiculo.
  destruct (sqlite_veiculos_ok amb); simpl; auto.
Qed.

Lemma saida_autorizada amb self dados ev p v d :
  criar_evento dados = inr ev ->
  tipo ev = SAIDA ->
  estacionamento_fechado self = false ->
  andar_bloqueado self && String.eqb (andar ev) "terreo" = false ->
  placa ev = str p ->
  veiculos_estacionados self !! p = Some v ->
  sub (timestamp ev) (veiculo.timestamp_entrada v) = Some d ->
  let minutos := veiculo.minutos_do_delta d in
  veiculo.calcular_tempo_permanencia v (timestamp ev) = Some minutos
  /\ sucesso (_processar_evento amb self dados).1 = true
  /\ acao (_processar_evento amb self dados).1 = cobrar_valor
  /\ tempo_permanencia (_processar_evento amb self dados).1 = Some minutos
  /\ valor (_processar_evento amb self dados).1
     = Some (Qmax (pyfloat.mul (pyfloat.of_int minutos)
                     (preco_por_minuto self))
               (valor_minimo self))
  /\ veiculos_estacionados (_processar_evento amb self dados).2
     = delete p (veiculos_estacionados self).
Proof.
  intros Hev Ht Hf Hb Hp Hv Hd minutos.
  split; [exact (calcular_tempo_permanencia_delta _ _ _ Hd)|].
  rewrite (despacho _ _ _ _ Hev Hf Hb), Ht.
  rewrite (_processar_saida_cobra _ _ _ _ _ _ Hp Hv Hd). cbv zeta.
  match goal with |- context [_salvar_evento amb ?s ?e] =>
    pose proof (_salvar_evento_preserva amb s e) as (H1 & _) end.
  simpl in *. unfold _atualizar_veiculo.
  destruct (sqlite_veiculos_ok amb); simpl; auto.
Qed.

(** The run of the specification: ABC1234 enters at 10:00:00 with the
    garage open, and leaves thirty minutes later. *)
Example entrada_e_saida_apos_30_minutos :
  let r1 := _processar_evento amb0 central_nova
              (pedido "ABC1234" "entrada" (on_2024_01_01 10 0 0)) in
  let r2 := _processar_evento amb0 r1.2
              (pedido "ABC1234" "saida" (on_2024_01_01 10 30 0)) in
  acao r1.1 = abrir_cancela
  /\ acao r2.1 = cobrar_valor
  /\ tempo_permanencia r2.1 = Some 30
  /\ valor r2.1 = Some (9 # 2)%Q
  /\ veiculos_estacionados r2.2 = ∅.
Proof. vm_compute. auto. Qed.

(** C6, as stated, fails: with the garage closed a well-formed Entry event
    is processed and answered, and the event table holds what it held. *)
Lemma evento_negado_sem_registro :
  let dados := pedido "ABC1234" "entrada" (on_2024_01_01 10 5 0) in
  let r := _processar_evento amb0 (fechar_estacionamento central_nova)
             dados in
  acao r.1 = negar_entrada
  /\ tabela_eventos (fechar_estacionamento central_nova) = []
  /\ tabela_eventos r.2 = [].
Proof. vm_compute. auto. Qed.

(** C6, amended.  Processing an event appends at most one row to the event
    table.  It appends exactly one, carrying the plate, kind and timestamp
    of the event, when the event is well-formed, is an Entry or an Exit,
    passes the garage-closed and floor-blocked checks, its handler raises
    nothing (the plate is a string and, for the Exit of a parked plate, the
    entry timestamp on record can be subtracted from the event's: both
    naive or both offset-aware) and the insert goes through, whether the
    entry or exit is then granted or denied.  It appends none when the
    garage is closed, when the floor check fires, when the kind is another
    one, when the event cannot be built, when the handler raises (the
    plate is a JSON array or object, or the two timestamps of an Exit
    differ in kind), or when the insert fails; so never next to an error
    reply. *)
Theorem registro_de_eventos amb self dados :
  let depois := (_processar_evento amb self dados).2 in
  (exists linhas,
     tabela_eventos depois = tabela_eventos self ++ linhas
     /\ (length linhas <= 1)%nat)
  /\ (forall ev p,
        criar_evento dados = inr ev ->
        estacionamento_fechado self = false ->
        andar_bloqueado self && String.eqb (andar ev) "terreo" = false ->
        tipo ev = ENTRADA \/ tipo ev = SAIDA ->
        placa ev = str p ->
        (tipo ev = SAIDA ->
         forall v,
           veiculos_estacionados self !! p = Some v ->
           is_Some (sub (timestamp ev) (veiculo.timestamp_entrada v))) ->
        sqlite_eventos_ok amb = true ->
        exists linha,
          tabela_eventos depois = tabela_eventos self ++ [linha]
          /\ placa linha = placa ev /\ tipo linha = tipo ev
          /\ timestamp linha = timestamp ev)
  /\ (estacionamento_fechado self = true ->
      tabela_eventos depois = tabela_eventos self)
  /\ (forall ev,
        criar_evento dados = inr ev ->
        andar_bloqueado self && String.eqb (andar ev) "terreo" = true ->
        tabela_eventos depois = tabela_eventos self)
  /\ (forall ev,
        criar_evento dados = inr ev ->
        tipo ev = ERRO \/ tipo ev = MANUTENCAO ->
        tabela_eventos depois = tabela_eventos self)
  /\ (forall e,
        criar_evento dados = inl e ->
        tabela_eventos depois = tabela_eventos self)
  /\ (forall ev,
        criar_evento dados = inr ev ->
        placa ev = nao_hashable ->
        tabela_eventos depois = tabela_eventos self)
  /\ (forall ev p v,
        criar_evento dados = inr ev ->
        tipo ev = SAIDA ->
        placa ev = str p ->
        veiculos_estacionados self !! p = Some v ->
        sub (timestamp ev) (veiculo.timestamp_entrada v) = None ->
        tabela_eventos depois = tabela_eventos self)
  /\ (sqlite_eventos_ok amb = false ->
      tabela_eventos depois = tabela_eventos self)
  /\ (acao (_processar_evento amb self dados).1 = erro ->
      tabela_eventos depois = tabela_eventos self).
Proof.
  intros depois.
  assert (Hgeral : exists linhas,
            tabela_eventos depois = tabela_eventos self ++ linhas
            /\ (length linhas <= 1)%nat
            /\ (sqlite_eventos_ok amb = false -> linhas = [])
            /\ (acao (_processar_evento amb self dados).1 = erro ->
                linhas = [])).
  { subst depois. unfold _processar_evento.
    destruct (criar_evento dados) as [e|ev]; simpl.
    { exists []. rewrite app_nil_r. auto. }
    destruct (estacionamento_fechado self); simpl.
    { exists []. rewrite app_nil_r. auto. }
    destruct (andar_bloqueado self && String.eqb (andar ev) "terreo"); simpl.
    { exists []. rewrite app_nil_r. auto. }
    destruct (tipo ev).
    - pose proof (_processar_entrada_tabela amb self ev) as H.
      pose proof (entrada_nunca_erro amb self ev) as Ha.
      unfold except_Exception.
      destruct (_processar_entrada amb self ev).1 as [e|r]; simpl.
      + destruct H as [_ H]. exists []. rewrite app_nil_r. auto.
      + destruct H as (l & H & _). rewrite H.
        destruct (sqlite_eventos_ok amb);
          [exists [l] | exists []];
          (split; [reflexivity|]); (split; [simpl; lia|]);
          (split; [first [discriminate | reflexivity]|]);
          intros Hr; exfalso; exact (Ha r eq_refl Hr).
    - pose proof (_processar_saida_tabela amb self ev) as H.
      pose proof (saida_nunca_erro amb self ev) as Ha.
      unfold except_Exception.
      destruct (_processar_saida amb self ev).1 as [e|r]; simpl.
      + destruct H as [_ H]. exists []. rewrite app_nil_r. auto.
      + destruct H as (l & H & _). rewrite H.
        destruct (sqlite_eventos_ok amb);
          [exists [l] | exists []];
          (split; [reflexivity|]); (split; [simpl; lia|]);
          (split; [first [discriminate | reflexivity]|]);
          intros Hr; exfalso; exact (Ha r eq_refl Hr).
    - simpl. exists []. rewrite app_nil_r. auto.
    - simpl. exists []. rewrite app_nil_r. auto. }
  split.
  { destruct Hgeral as (l & H1 & H2 & _). eauto. }
  split.
  { intros ev p Hev Hf Hb Ht Hp Hsub Hok. subst depois.
    rewrite (despacho _ _ _ _ Hev Hf Hb).
    destruct Ht as [Ht|Ht]; rewrite Ht.
    - pose proof (_processar_entrada_tabela amb self ev) as H.
      unfold except_Exception.
      destruct (_processar_entrada amb self ev).1 as [e|r]; simpl.
      + destruct H as [H _]. congruence.
      + destruct H as (l & H & Hl). rewrite Hok in H. rewrite Ht in Hl.
        exists l. split; [exact H | exact Hl].
    - pose proof (_processar_saida_tabela amb self ev) as H.
      unfold except_Exception.
      destruct (_processar_saida amb self ev).1 as [e|r]; simpl.
      + destruct H as [[H|(p' & v & H1 & H2 & H3)] _]; [congruence|].
        assert (p' = p) as -> by congruence.
        destruct (Hsub Ht v H2) as [d Hd]. congruence.
      + destruct H as (l & H & Hl). rewrite Hok in H. rewrite Ht in Hl.
        exists l. split; [exact H | exact Hl]. }
  split.
  { intros Hf. subst depois. unfold _processar_evento.
    destruct (criar_evento dados); [reflexivity|]. rewrite Hf. reflexivity. }
  split.
  { intros ev Hev Hb. subst depois. unfold _processar_evento.
    rewrite Hev, Hb. destruct (estacionamento_fechado self); reflexivity. }
  split.
  { intros ev Hev Ht. subst depois. unfold _processar_evento. rewrite Hev.
    destruct (estacionamento_fechado self); [reflexivity|].
    destruct (andar_bloqueado self && String.eqb (andar ev) "terreo");
      [reflexivity|].
    destruct Ht as [Ht|Ht]; rewrite Ht; reflexivity. }
  split.
  { intros e He. subst depois. unfold _processar_evento. rewrite He.
    reflexivity. }
  split.
  { intros ev Hev Hp. subst depois. unfold _processar_evento. rewrite Hev.
    destruct (estacionamento_fechado self); [reflexivity|].
    destruct (andar_bloqueado self && String.eqb (andar ev) "terreo");
      [reflexivity|].
    destruct (tipo ev); try reflexivity.
    - by rewrite (_processar_entrada_nao_hashable _ _ _ Hp).
    - by rewrite (_processar_saida_nao_hashable _ _ _ Hp). }
  split.
  { intros ev p v Hev Ht Hp Hv Hd. subst depois. unfold _processar_evento.
    rewrite Hev.
    destruct (estacionamento_fechado self); [reflexivity|].
    destruct (andar_bloqueado self && String.eqb (andar ev) "terreo");
      [reflexivity|].
    rewrite Ht. by rewrite (_processar_saida_levanta _ _ _ _ _ Hp Hv Hd). }
  split.
  { intros Hok. destruct Hgeral as (l & H1 & _ & H3 & _).
    rewrite H1, (H3 Hok). apply app_nil_r. }
  intros Herro. destruct Hgeral as (l & H1 & _ & _ & H4).
  rewrite H1, (H4 Herro). apply app_nil_r.
Qed.

Lemma registro_de_eventos_witness :
  let dados := pedido "ABC1234" "entrada" (on_2024_01_01 10 5 0) in
  exists linha,
    tabela_eventos (_processar_evento amb0 central_com_ABC1234 dados).2
      = tabela_eventos central_com_ABC1234 ++ [linha]
    /\ placa linha = str "ABC1234" /\ tipo linha = ENTRADA
    /\ timestamp linha = on_2024_01_01 10 5 0.
Proof.
  intros dados.
  destruct (registro_de_eventos amb0 central_com_ABC1234 dados)
    as (_ & H & _).
  apply (H (evento.__init__ (str "ABC1234") ENTRADA (on_2024_01_01 10 5 0)
              (pyfloat.RN (95 # 100)) "terreo") "ABC1234");
    [vm_compute; reflexivity | reflexivity | reflexivity
    | left; reflexivity | reflexivity | discriminate | reflexivity].
Defined.

(** C9, as stated, fails: after a message that is not JSON the handler has
    written nothing but has not closed the connection either, and it goes
    on to answer the next message on the same connection. *)
Lemma json_invalido_conexao_continua :
  let leituras :=
    [(amb0, json_invalido "{placa");
     (amb0, json_valido
              (pedido "ABC1234" "entrada" (on_2024_01_01 10 0 0)))] in
  let apos_invalido :=
    _handle_cliente central_nova conexao_aberta (take 1 leituras) in
  let apos_ambos := _handle_cliente central_nova conexao_aberta leituras in
  respostas_escritas apos_invalido.2 = []
  /\ fechada apos_invalido.2 = false
  /\ acao <$> respostas_escritas apos_ambos.2 = [abrir_cancela]
  /\ fechada apos_ambos.2 = false.
Proof. vm_compute. auto. Qed.

(** The reads that end the loop, and what the handler does on them. *)
Lemma iteracao_fecha amb self con l :
  fechada con = false ->
  (fechada (iteracao amb self con l).2 = true
   <-> l = fim_do_fluxo \/ l = leitura_falhou \/ l = bytes_nao_utf8)
  /\ (fechada (iteracao amb self con l).2 = true ->
      iteracao amb self con l = (self, fechar con)).
Proof.
  intros Hab. destruct l as [| | |m|dados]; simpl.
  - split; [split; auto | reflexivity].
  - split; [split; auto | reflexivity].
  - split; [split; auto | reflexivity].
  - rewrite Hab. split; [split|]; [discriminate | | discriminate].
    intros [H|[H|H]]; discriminate H.
  - destruct (_processar_evento amb self dados) as [r s].
    destruct (escrita_ok amb); simpl; rewrite Hab;
      (split; [split|]; [discriminate | | discriminate]);
      intros [H|[H|H]]; discriminate H.
Qed.

(** C9, amended.  For a message that is text but not well-formed JSON the
    handler writes no reply and changes nothing in the server; it does not
    close the connection: the loop goes on to the next read, and the handler
    behaves from there as if the message had not arrived.  The connection
    is closed on end of stream, on a read that raises and on bytes that are
    not UTF-8 text, each time without a reply and without a change to the
    server, and on nothing else: after any sequence of reads it is closed
    exactly when one of the three was among them. *)
Theorem json_invalido_sem_resposta amb self con mensagem resto :
  fechada con = false ->
  iteracao amb self con (json_invalido mensagem) = (self, con)
  /\ fechada (iteracao amb self con (json_invalido mensagem)).2 = false
  /\ _handle_cliente self con ((amb, json_invalido mensagem) :: resto)
     = _handle_cliente self con resto
  /\ _handle_cliente self con ((amb, bytes_nao_utf8) :: resto)
     = (self, fechar con)
  /\ (forall l,
        fechada (iteracao amb self con l).2 = true
        <-> l = fim_do_fluxo \/ l = leitura_falhou \/ l = bytes_nao_utf8)
  /\ (forall l,
        fechada (iteracao amb self con l).2 = true ->
        (iteracao amb self con l).1 = self
        /\ respostas_escritas (iteracao amb self con l).2
           = respostas_escritas con)
  /\ (fechada (_handle_cliente self con resto).2 = true
      <-> exists a l,
            (a, l) ∈ resto
            /\ (l = fim_do_fluxo \/ l = leitura_falhou
                \/ l = bytes_nao_utf8)).
Proof.
  intros Hab.
  split; [reflexivity|]. split; [exact Hab|].
  split; [simpl; by rewrite Hab|]. split; [reflexivity|].
  split; [intros l; apply (iteracao_fecha amb self con l Hab)|].
  split.
  { intros l Hl.
    destruct (iteracao_fecha amb self con l Hab) as [_ H].
    rewrite (H Hl). auto. }
  clear amb mensagem. revert self con Hab.
  induction resto as [|[a l] resto IH]; intros self con Hab; simpl.
  - rewrite Hab. split; [discriminate|].
    intros (a & l & H & _). by apply elem_of_nil in H.
  - destruct (iteracao_fecha a self con l Hab) as [Hiff Heq].
    destruct (iteracao a self con l) as [s c] eqn:Hit. simpl in *.
    destruct (fechada c) eqn:Hc.
    + simpl. split; [intros _|auto].
      exists a, l. split; [apply list_elem_of_here | by apply Hiff].
    + rewrite (IH s c Hc). split.
      * intros (a' & l' & Hin & Hl'). exists a', l'.
        split; [by apply list_elem_of_further | exact Hl'].
      * intros (a' & l' & Hin & Hl').
        apply elem_of_cons in Hin as [Hin|Hin].
        -- injection Hin as -> ->. apply Hiff in Hl'. discriminate Hl'.
        -- exists a', l'. auto.
Qed.

Lemma json_invalido_sem_resposta_witness :
  fechada conexao_aberta = false
  /\ iteracao amb0 central_nova conexao_aberta (json_invalido "{placa")
     = (central_nova, conexao_aberta)
  /\ fechada
       (iteracao amb0 central_nova conexao_aberta
          (json_invalido "{placa")).2 = false
  /\ _handle_cliente central_nova conexao_aberta
       [(amb0, json_invalido "{placa"); (amb0, fim_do_fluxo)]
     = _handle_cliente central_nova conexao_aberta [(amb0, fim_do_fluxo)]
  /\ _handle_cliente central_nova conexao_aberta
       [(amb0, bytes_nao_utf8); (amb0, fim_do_fluxo)]
     = (central_nova, fechar conexao_aberta)
  /\ fechada
       (_handle_cliente central_nova conexao_aberta
          [(amb0, fim_do_fluxo)]).2 = true.
Proof.
  split; [reflexivity|].
  destruct (json_invalido_sem_resposta amb0 central_nova conexao_aberta
              "{placa" [(amb0, fim_do_fluxo)])
    as (H1 & H2 & H3 & H4 & _ & _ & H7); [reflexivity|].
  split; [exact H1|]. split; [exact H2|]. split; [exact H3|].
  split; [exact H4|].
  apply H7. exists amb0, fim_do_fluxo.
  split; [apply list_elem_of_here | left; reflexivity].
Defined.

End central.

(* ===================================================================== *)
(** ** Properties of the slot board *)
(* ===================================================================== *)

Section placar.
Import placar_service exemplos.

Lemma n_ocupadas_size self :
  n_ocupadas self = Z.of_nat (size (filter (com_estado true) (vagas self))).
Proof.
  unfold n_ocupadas, vagas_ocupadas_numeros.
  by rewrite length_fmap, length_map_to_list.
Qed.

Lemma chaves_iniciais (l : list Z) : ((fun i => (i, false)) <$> l).*1 = l.
Proof. induction l as [|x l IH]; [done|]. rewrite !fmap_cons. simpl. by f_equal. Qed.

Lemma vagas_iniciais_lookup total i :
  vagas_iniciais total !! i =
    if decide (0 <= i < total) then Some false else None.
Proof.
  unfold vagas_iniciais. case_decide as Hi.
  - apply elem_of_list_to_map.
    + rewrite chaves_iniciais. apply NoDup_seqZ.
    + apply list_elem_of_fmap. exists i. split; [done|].
      apply elem_of_seqZ. lia.
  - apply not_elem_of_list_to_map. rewrite chaves_iniciais.
    rewrite elem_of_seqZ. lia.
Qed.

Lemma consistente_inicial e t i m : consistente (__init__ e t i m).
Proof.
  split; simpl.
  - intros j. rewrite vagas_iniciais_lookup. case_decide.
    + split; [done | eauto].
    + split; [intros [? ?]; done | done].
  - rewrite n_ocupadas_size. simpl.
    replace (filter (com_estado true) (vagas_iniciais t)) with (∅ : gmap Z bool).
    + rewrite map_size_empty. lia.
    + symmetry. apply map_empty. intros j.
      apply map_lookup_filter_None. right. intros x Hx.
      rewrite vagas_iniciais_lookup in Hx. case_decide; [|done].
      injection Hx as <-. unfold com_estado. simpl. done.
Qed.

Lemma n_ocupadas_ocupar self n livres :
  vagas self !! n = Some false ->
  n_ocupadas (marcar n true livres self) = n_ocupadas self + 1.
Proof.
  intros Hn. rewrite !n_ocupadas_size. simpl.
  rewrite map_filter_insert_True by done.
  rewrite map_size_insert_None; [lia|].
  apply map_lookup_filter_None. right. intros x Hx.
  rewrite Hn in Hx. injection Hx as <-. unfold com_estado. simpl. done.
Qed.

Lemma n_ocupadas_liberar self n livres :
  vagas self !! n = Some true ->
  n_ocupadas (marcar n false livres self) = n_ocupadas self - 1.
Proof.
  intros Hn. rewrite !n_ocupadas_size. simpl.
  rewrite map_filter_insert_False by (unfold com_estado; simpl; done).
  rewrite map_filter_delete.
  assert (Hf : filter (com_estado true) (vagas self) !! n = Some true).
  { apply map_lookup_filter_Some. split; [done|]. by unfold com_estado. }
  rewrite map_size_delete, Hf.
  assert (size (filter (com_estado true) (vagas self)) <> 0%nat).
  { intros H0. apply map_size_empty_iff in H0. rewrite H0 in Hf.
    by rewrite lookup_empty in Hf. }
  lia.
Qed.

Lemma marcar_dominio self n b livres i :
  is_Some (vagas self !! n) ->
  is_Some (vagas (marcar n b livres self) !! i) <-> is_Some (vagas self !! i).
Proof.
  intros Hn. simpl. destruct (decide (n = i)) as [->|Hne].
  - rewrite lookup_insert_eq. split; eauto.
  - by rewrite lookup_insert_ne.
Qed.

Lemma ocupar_vaga_consistente self n :
  consistente self ->
  exists b self',
    ocupar_vaga self n = Some (b, self')
    /\ consistente self'
    /\ (n < 0 \/ total_vagas self <= n \/ vagas self !! n = Some true ->
        b = false /\ self' = self).
Proof.
  intros Hc. pose proof Hc as [Hdom Hcnt]. unfold ocupar_vaga.
  destruct (n <? 0) eqn:Hlo; simpl.
  { exists false, self. auto. }
  destruct (n >=? total_vagas self) eqn:Hhi; simpl.
  { exists false, self. auto. }
  assert (Hin : 0 <= n < total_vagas self) by lia.
  destruct (proj2 (Hdom n) Hin) as [o Ho]. rewrite Ho.
  destruct o.
  { exists false, self. auto. }
  eexists _, _. split; [reflexivity|]. split.
  - split.
    + intros i. rewrite marcar_dominio by eauto. apply Hdom.
    + rewrite (n_ocupadas_ocupar _ _ _ Ho). simpl. lia.
  - intros [H|[H|H]]; [lia | lia | congruence].
Qed.

Lemma liberar_vaga_consistente self n :
  consistente self ->
  exists b self',
    liberar_vaga self n = Some (b, self')
    /\ consistente self'
    /\ (n < 0 \/ total_vagas self <= n \/ vagas self !! n = Some false ->
        b = false /\ self' = self).
Proof.
  intros Hc. pose proof Hc as [Hdom Hcnt]. unfold liberar_vaga.
  destruct (n <? 0) eqn:Hlo; simpl.
  { exists false, self. auto. }
  destruct (n >=? total_vagas self) eqn:Hhi; simpl.
  { exists false, self. auto. }
  assert (Hin : 0 <= n < total_vagas self) by lia.
  destruct (proj2 (Hdom n) Hin) as [o Ho]. rewrite Ho.
  destruct o.
  2:{ exists false, self. auto. }
  eexists _, _. split; [reflexivity|]. split.
  - split.
    + intros i. rewrite marcar_dominio by eauto. apply Hdom.
    + rewrite (n_ocupadas_liberar _ _ _ Ho). simpl. lia.
  - intros [H|[H|H]]; [lia | lia | congruence].
Qed.

Lemma alcancavel_consistente inicial self :
  consistente inicial -> alcancavel inicial self -> consistente self.
Proof.
  intros Hi Hr. induction Hr as [|self c b self' Hr IH Hc]; [done|].
  destruct c as [n|n]; simpl in Hc.
  - destruct (ocupar_vaga_consistente self n IH) as (b' & s' & He & Hs & _).
    congruence.
  - destruct (liberar_vaga_consistente self n IH) as (b' & s' & He & Hs & _).
    congruence.
Qed.

(** No sequence of calls on a new board raises, and the board it leaves is
    consistent. *)
Lemma executar_consistente e t i m cs :
  exists bs self,
    executar (__init__ e t i m) cs = Some (bs, self) /\ consistente self.
Proof.
  pose proof (consistente_inicial e t i m) as Hc.
  generalize dependent (__init__ e t i m). intros self.
  revert self. induction cs as [|c cs IH]; intros self Hc; simpl.
  { eauto. }
  assert (Hch : exists b self', chamar self c = Some (b, self')
                                /\ consistente self').
  { destruct c as [n|n]; simpl.
    - destruct (ocupar_vaga_consistente self n Hc) as (b & s' & H & H' & _).
      eauto.
    - destruct (liberar_vaga_consistente self n Hc) as (b & s' & H & H' & _).
      eauto. }
  destruct Hch as (b & s' & Hch & Hc'). rewrite Hch.
  destruct (IH s' Hc') as (bs & s'' & He & Hc''). rewrite He. eauto.
Qed.

(** C7.  On every board reached from a new one by [ocupar_vaga] and
    [liberar_vaga] calls, the slots flagged occupied plus the free counter
    equal the total, and the occupied count the board reports is the number
    of flagged slots.  From such a board each of the two calls returns (no
    [KeyError]) and leaves a board with the same property; [ocupar_vaga] on
    an index out of range or on an occupied slot, and [liberar_vaga] on an
    index out of range or on a free slot, return [False] and leave the
    whole object, flags and counter included, as it was. *)
Theorem placar_contagem e t i m self :
  alcancavel (__init__ e t i m) self ->
  (n_ocupadas self + vagas_livres self = total_vagas self
   /\ vagas_ocupadas self = n_ocupadas self)
  /\ forall n,
       (exists b self',
          ocupar_vaga self n = Some (b, self')
          /\ n_ocupadas self' + vagas_livres self' = total_vagas self'
          /\ (n < 0 \/ total_vagas self <= n
              \/ vagas self !! n = Some true ->
              b = false /\ self' = self))
       /\ (exists b self',
             liberar_vaga self n = Some (b, self')
             /\ n_ocupadas self' + vagas_livres self' = total_vagas self'
             /\ (n < 0 \/ total_vagas self <= n
                 \/ vagas self !! n = Some false ->
                 b = false /\ self' = self)).
Proof.
  intros Hr.
  pose proof (alcancavel_consistente _ _ (consistente_inicial e t i m) Hr)
    as Hc.
  split.
  { destruct Hc as [_ Hc]. unfold vagas_ocupadas. split; lia. }
  intros n. split.
  - destruct (ocupar_vaga_consistente self n Hc) as (b & s' & H & [_ H'] & Hf).
    eauto.
  - destruct (liberar_vaga_consistente self n Hc)
      as (b & s' & H & [_ H'] & Hf).
    eauto.
Qed.

Lemma placar_contagem_witness :
  alcancavel placar_novo placar_com_vaga_0
  /\ n_ocupadas placar_com_vaga_0 = 1
  /\ vagas_livres placar_com_vaga_0 = 7
  /\ n_ocupadas placar_com_vaga_0 + vagas_livres placar_com_vaga_0
     = total_vagas placar_com_vaga_0
  /\ ocupar_vaga placar_com_vaga_0 0 = Some (false, placar_com_vaga_0).
Proof.
  assert (Hr : alcancavel placar_novo placar_com_vaga_0).
  { apply (alcancavel_chamada _ placar_novo (Ocupar 0) true).
    - apply alcancavel_inicio.
    - vm_compute. reflexivity. }
  destruct (placar_contagem 3 8 0 true placar_com_vaga_0 Hr)
    as [[Hc _] Hn].
  destruct (Hn 0) as [(b & s' & Ho & _ & Hf) _].
  destruct Hf as [-> ->]; [right; right; vm_compute; reflexivity|].
  split; [exact Hr|]. split; [vm_compute; reflexivity|].
  split; [reflexivity|]. split; [exact Hc | exact Ho].
Defined.

End placar.

(* ===================================================================== *)
(** ** Properties of plate validation *)
(* ===================================================================== *)

Section lpr.
Import lpr_service.

Lemma isalpha_forallb u s :
  s <> [] -> isalpha u s = forallb (char_isalpha u) s.
Proof. intros Hs. unfold isalpha. by rewrite bool_decide_eq_false_2. Qed.

Lemma isdigit_forallb u s :
  s <> [] -> isdigit u s = forallb (char_isdigit u) s.
Proof. intros Hs. unfold isdigit. by rewrite bool_decide_eq_false_2. Qed.

Lemma sete_caracteres (placa : str) :
  length placa = 7%nat -> placa <> [] /\ take 3 placa <> [] /\ drop 3 placa <> [].
Proof.
  intros Hl. do 7 (destruct placa as [|? placa]; [discriminate|]).
  repeat split; discriminate.
Qed.

Lemma maiuscula_isalpha u c :
  letra_maiuscula_ascii c = true -> char_isalpha u c = true.
Proof.
  unfold char_isalpha, letra_maiuscula_ascii, entre. intros H.
  apply andb_true_iff in H as [H1 H2]. apply N.leb_le in H1, H2.
  replace (c <? 128)%N with true by (symmetry; apply N.ltb_lt; lia).
  apply orb_true_iff. left. apply andb_true_iff.
  split; apply N.leb_le; lia.
Qed.

Lemma digito_isdigit u c :
  digito_ascii c = true -> char_isdigit u c = true.
Proof.
  unfold char_isdigit, digito_ascii, entre. intros H.
  pose proof H as H'.
  apply andb_true_iff in H' as [H1 H2]. apply N.leb_le in H1, H2.
  replace (c <? 128)%N with true by (symmetry; apply N.ltb_lt; lia).
  exact H.
Qed.

(** C8, as stated, fails: the lowercase text abc1234 is accepted, and it is
    not in the canonical format. *)
Lemma validar_placa_aceita_minusculas :
  (forall u confianca_minima,
     validar_placa u (ascii_str "abc1234") confianca_minima = true)
  /\ ~ formato_canonico (ascii_str "abc1234").
Proof.
  split.
  - intros u c. reflexivity.
  - intros (_ & H & _). vm_compute in H. discriminate.
Qed.

(** C8, amended.  [validar_placa] accepts a text exactly when it has seven
    characters, the first three are alphabetic in the sense of
    [str.isalpha] (uppercase or lowercase ASCII letters, and the letters
    beyond ASCII) and the last four are digits in the sense of
    [str.isdigit]; the confidence argument plays no part.  Every text in
    the canonical format is accepted. *)
Theorem validar_placa_aceita u placa confianca_minima :
  (validar_placa u placa confianca_minima = true <->
     length placa = 7%nat
     /\ forallb (char_isalpha u) (take 3 placa) = true
     /\ forallb (char_isdigit u) (drop 3 placa) = true)
  /\ (formato_canonico placa ->
      validar_placa u placa confianca_minima = true).
Proof.
  assert (Hiff : validar_placa u placa confianca_minima = true <->
     length placa = 7%nat
     /\ forallb (char_isalpha u) (take 3 placa) = true
     /\ forallb (char_isdigit u) (drop 3 placa) = true).
  { unfold validar_placa. split.
    - destruct (bool_decide (placa = [])) eqn:He; [discriminate|].
      destruct (length placa =? 7)%nat eqn:Hl; simpl; [|discriminate].
      apply Nat.eqb_eq in Hl.
      destruct (sete_caracteres placa Hl) as (_ & Ht & Hd).
      rewrite (isalpha_forallb u _ Ht), (isdigit_forallb u _ Hd).
      destruct (forallb (char_isalpha u) (take 3 placa)); simpl;
        [|discriminate].
      destruct (forallb (char_isdigit u) (drop 3 placa)); simpl;
        [auto | discriminate].
    - intros (Hl & Ha & Hd).
      destruct (sete_caracteres placa Hl) as (Hp & Ht & Hd').
      rewrite (bool_decide_eq_false_2 _ Hp).
      rewrite (isalpha_forallb u _ Ht), (isdigit_forallb u _ Hd').
      rewrite Ha, Hd. apply Nat.eqb_eq in Hl. rewrite Hl. reflexivity. }
  split; [exact Hiff|].
  intros (Hl & Ha & Hd). apply Hiff. split; [exact Hl|]. split.
  - apply forallb_forall. intros c Hc.
    apply maiuscula_isalpha. revert c Hc. apply forallb_forall. exact Ha.
  - apply forallb_forall. intros c Hc.
    apply digito_isdigit. revert c Hc. apply forallb_forall. exact Hd.
Qed.

Lemma validar_placa_aceita_witness :
  formato_canonico (ascii_str "ABC1234")
  /\ validar_placa exemplos.unicode_latin1 (ascii_str "ABC1234")
       (pyfloat.RN (7 # 10)) = true.
Proof.
  assert (Hc : formato_canonico (ascii_str "ABC1234")).
  { repeat split. }
  split; [exact Hc|].
  apply (proj2 (validar_placa_aceita exemplos.unicode_latin1
                  (ascii_str "ABC1234") (pyfloat.RN (7 # 10)))).
  exact Hc.
Defined.

End lpr.

(* ===================================================================== *)
(** ** Further properties of the central server *)
(* ===================================================================== *)

Section mais_central.
Import pytime evento servidor_central exemplos.

(** Case analysis on the path [_processar_evento] takes, down to the
    branch of the handler. *)
Ltac caminho self dados :=
  let e := fresh "e" in
  let ev := fresh "ev" in
  let p := fresh "p" in
  let v := fresh "v" in
  let d := fresh "d" in
  let Hp := fresh "Hplaca" in
  let Hm := fresh "Hmapa" in
  let Hd := fresh "Hsub" in
  unfold _processar_evento;
  destruct (criar_evento dados) as [e|ev] eqn:?Hcriar;
  [|destruct (estacionamento_fechado self) eqn:?Hfechado;
    [|destruct (andar_bloqueado self && String.eqb (andar ev) "terreo")
        eqn:?Hbloqueado;
      [|destruct (tipo ev) eqn:?Htipo;
        [ destruct (placa ev) as [p|] eqn:Hp;
          [ destruct (veiculos_estacionados self !! p) as [v|] eqn:Hm;
            [ rewrite !(_processar_entrada_estacionada _ _ _ _ _ Hp Hm)
            | rewrite !(_processar_entrada_livre _ _ _ _ Hp Hm) ]
          | rewrite !(_processar_entrada_nao_hashable _ _ _ Hp) ]
        | destruct (placa ev) as [p|] eqn:Hp;
          [ destruct (veiculos_estacionados self !! p) as [v|] eqn:Hm;
            [ destruct (sub (timestamp ev) (veiculo.timestamp_entrada v))
                as [d|] eqn:Hd;
              [ rewrite !(_processar_saida_cobra _ _ _ _ _ _ Hp Hm Hd)
              | rewrite !(_processar_saida_levanta _ _ _ _ _ Hp Hm Hd) ]
            | rewrite !(_processar_saida_ausente _ _ _ _ Hp Hm) ]
          | rewrite !(_processar_saida_nao_hashable _ _ _ Hp) ]
        | | ]]]];
  cbv zeta; unfold except_Exception; simpl.

Ltac abrir_persistencia :=
  unfold _salvar_evento, _salvar_veiculo, _atualizar_veiculo;
  repeat match goal with
         | |- context [sqlite_eventos_ok ?a] =>
             destruct (sqlite_eventos_ok a) eqn:?
         | |- context [sqlite_veiculos_ok ?a] =>
             destruct (sqlite_veiculos_ok a) eqn:?
         end; simpl.

Lemma _processar_evento_configuracao amb self dados :
  mesma_configuracao (_processar_evento amb self dados).2 self.
Proof.
  unfold mesma_configuracao.
  caminho self dados; auto; abrir_persistencia; auto.
Qed.

Lemma mesma_configuracao_trans a b c :
  mesma_configuracao a b -> mesma_configuracao b c -> mesma_configuracao a c.
Proof.
  unfold mesma_configuracao. intros (?&?&?&?) (?&?&?&?).
  repeat split; congruence.
Qed.

Lemma processar_todos_cons amb dados resto self :
  processar_todos self ((amb, dados) :: resto) =
    ((_processar_evento amb self dados).1
       :: (processar_todos (_processar_evento amb self dados).2 resto).1,
     (processar_todos (_processar_evento amb self dados).2 resto).2).
Proof.
  simpl. destruct (_processar_evento amb self dados) as [r s]. simpl.
  destruct (processar_todos s resto) as [rs s']. reflexivity.
Qed.

Lemma iteracao_estado amb self con l :
  (iteracao amb self con l).1 = self
  \/ exists dados,
       l = json_valido dados
       /\ (iteracao amb self con l).1 = (_processar_evento amb self dados).2.
Proof.
  destruct l; simpl; auto. right. exists dados. split; [done|].
  destruct (_processar_evento amb self dados) as [r s].
  destruct (escrita_ok amb); reflexivity.
Qed.

Lemma _handle_cliente_cons amb l resto self con :
  _handle_cliente self con ((amb, l) :: resto) =
    if fechada (iteracao amb self con l).2
    then iteracao amb self con l
    else _handle_cliente (iteracao amb self con l).1
           (iteracao amb self con l).2 resto.
Proof.
  simpl. destruct (iteracao amb self con l) as [s c]. reflexivity.
Qed.

(** X1.  Neither a sequence of requests nor a whole connection ever changes
    the administrative flags or the prices: only the four administrative
    operations do. *)
Theorem configuracao_inalterada self pedidos con leituras :
  mesma_configuracao (processar_todos self pedidos).2 self
  /\ mesma_configuracao (_handle_cliente self con leituras).1 self.
Proof.
  split.
  - revert self. induction pedidos as [|[amb dados] resto IH]; intros self.
    + repeat split.
    + rewrite processar_todos_cons. simpl.
      eapply mesma_configuracao_trans; [apply IH|].
      apply _processar_evento_configuracao.
  - revert self con.
    induction leituras as [|[amb l] resto IH]; intros self con.
    + repeat split.
    + rewrite _handle_cliente_cons.
      assert (Hit : mesma_configuracao (iteracao amb self con l).1 self).
      { destruct (iteracao_estado amb self con l) as [->|(d & _ & ->)].
        - repeat split.
        - apply _processar_evento_configuracao. }
      destruct (fechada (iteracao amb self con l).2); [exact Hit|].
      eapply mesma_configuracao_trans; [apply IH | exact Hit].
Qed.

(** The parked map after one request: a vehicle parked, a vehicle removed,
    an exit that raised on the timestamps and left its timestamp on the
    parked vehicle, or nothing at all. *)
Lemma _processar_evento_mapa amb self dados :
  let r := (_processar_evento amb self dados).1 in
  let depois := veiculos_estacionados (_processar_evento amb self dados).2 in
  (exists ev p,
     criar_evento dados = inr ev
     /\ placa ev = str p
     /\ veiculos_estacionados self !! p = None
     /\ acao r = abrir_cancela /\ sucesso r = true
     /\ depois = <[p := veiculo.__init__ p (timestamp ev) (andar ev) None]>
                   (veiculos_estacionados self))
  \/ (exists ev p,
        criar_evento dados = inr ev
        /\ placa ev = str p
        /\ is_Some (veiculos_estacionados self !! p)
        /\ acao r = cobrar_valor /\ sucesso r = true
        /\ depois = delete p (veiculos_estacionados self))
  \/ (exists ev p v,
        criar_evento dados = inr ev
        /\ tipo ev = SAIDA
        /\ placa ev = str p
        /\ veiculos_estacionados self !! p = Some v
        /\ sub (timestamp ev) (veiculo.timestamp_entrada v) = None
        /\ sucesso r = false /\ acao r = erro
        /\ depois = <[p := veiculo.set_timestamp_saida
                             (Some (timestamp ev)) v]>
                      (veiculos_estacionados self)
        /\ tabela_veiculos (_processar_evento amb self dados).2
           = tabela_veiculos self)
  \/ (sucesso r = false
      /\ acao r <> abrir_cancela /\ acao r <> cobrar_valor
      /\ depois = veiculos_estacionados self
      /\ tabela_veiculos (_processar_evento amb self dados).2
         = tabela_veiculos self).
Proof.
  cbv zeta. caminho self dados;
    try (right; right; right; abrir_persistencia;
         repeat split; auto; discriminate).
  - left. exists ev, p. abrir_persistencia; repeat split; auto.
  - right; left. exists ev, p. abrir_persistencia; repeat split; eauto.
  - right; right; left. exists ev, p, v. repeat split; auto.
Qed.

(** X2.  From a fresh server, whatever requests arrive, every entry of the
    parked map is a vehicle filed under its own plate, with parked status
    and no fee or duration; and it has an exit timestamp only when an exit
    raised on it, one that the entry timestamp cannot be subtracted from
    (one of the two naive, the other offset-aware). *)
Theorem mapa_so_tem_estacionados preco minimo eventos veiculos pedidos :
  map_Forall registro_estacionado
    (veiculos_estacionados
       (processar_todos
          (servidor_central.__init__ preco minimo eventos veiculos)
          pedidos).2).
Proof.
  assert (Hini : map_Forall registro_estacionado
            (veiculos_estacionados
               (servidor_central.__init__ preco minimo eventos veiculos)))
    by apply map_Forall_empty.
  revert Hini.
  generalize (servidor_central.__init__ preco minimo eventos veiculos).
  induction pedidos as [|[amb dados] resto IH]; intros self Hinv; [done|].
  rewrite processar_todos_cons. simpl. apply IH.
  destruct (_processar_evento_mapa amb self dados)
    as [(ev & p & _ & _ & _ & _ & _ & ->)
       |[(ev & p & _ & _ & _ & _ & _ & ->)
        |[(ev & p & v & _ & _ & _ & Hv & Hd & _ & _ & -> & _)
         |(_&_&_& -> &_)]]].
  - apply map_Forall_insert_2; [|exact Hinv].
    repeat split. discriminate.
  - apply map_Forall_delete. exact Hinv.
  - apply map_Forall_insert_2; [|exact Hinv].
    destruct (Hinv p v Hv) as (H1 & H2 & H3 & H4 & _).
    repeat split; auto. simpl. intros t [= <-]. exact Hd.
  - exact Hinv.
Qed.

Lemma mapa_so_tem_estacionados_witness :
  let pedidos :=
    [(amb0, pedido "ABC1234" "entrada" (on_2024_01_01 10 0 0));
     (amb0, pedido "ABC1234" "saida"
              (com_offset 0 (on_2024_01_01 10 30 0)))] in
  let v :=
    veiculo.set_timestamp_saida
      (Some (com_offset 0 (on_2024_01_01 10 30 0))) veiculo_ABC1234 in
  veiculos_estacionados (processar_todos central_nova pedidos).2
    !! "ABC1234" = Some v
  /\ registro_estacionado "ABC1234" v.
Proof.
  intros pedidos v.
  assert (Hl : veiculos_estacionados (processar_todos central_nova pedidos).2
                 !! "ABC1234" = Some v) by (vm_compute; reflexivity).
  split; [exact Hl|].
  exact (mapa_so_tem_estacionados (pyfloat.RN (15 # 100)) (pyfloat.RN 2)
           [] [] pedidos "ABC1234" v Hl).
Defined.

(** X3.  The number of parked vehicles moves with the replies: over any
    sequence of requests, vehicles parked at the end plus exits charged
    equal vehicles parked at the start plus entries granted. *)
Theorem ocupacao_e_autorizacoes self pedidos :
  let fim := processar_todos self pedidos in
  (size (veiculos_estacionados fim.2) + contar_acao cobrar_valor fim.1
   = size (veiculos_estacionados self) + contar_acao abrir_cancela fim.1)%nat.
Proof.
  cbv zeta. revert self.
  induction pedidos as [|[amb dados] resto IH]; intros self; [done|].
  rewrite processar_todos_cons. simpl.
  specialize (IH (_processar_evento amb self dados).2).
  unfold contar_acao in *. rewrite !filter_cons.
  destruct (_processar_evento_mapa amb self dados)
    as [(ev & p & _ & _ & Hn & Ha & _ & Hm)
       |[(ev & p & _ & _ & Hs & Ha & _ & Hm)
        |[(ev & p & v & _ & _ & _ & Hv & _ & _ & Ha & Hm & _)
         |(_ & Ha1 & Ha2 & Hm & _)]]].
  - rewrite Hm in IH. rewrite map_size_insert_None in IH by exact Hn.
    rewrite Ha. rewrite decide_False by discriminate.
    rewrite decide_True by reflexivity. simpl. lia.
  - rewrite Hm in IH. rewrite map_size_delete in IH.
    destruct Hs as [v Hs]. rewrite Hs in IH.
    assert (size (veiculos_estacionados self) <> 0%nat).
    { intros H0. apply map_size_empty_iff in H0. rewrite H0 in Hs.
      by rewrite lookup_empty in Hs. }
    rewrite Ha. rewrite decide_True by reflexivity.
    rewrite decide_False by discriminate. simpl. lia.
  - rewrite Hm in IH. rewrite map_size_insert_Some in IH by eauto.
    rewrite Ha. rewrite !decide_False by discriminate. exact IH.
  - rewrite Hm in IH.
    rewrite decide_False by exact Ha2. rewrite decide_False by exact Ha1.
    exact IH.
Qed.

(** X4.  A reply is a success exactly when it opens the gate or charges.
    A reply without success writes nothing to the vehicle table and
    neither parks nor removes a vehicle: the parked map is as it was,
    except after an Exit that raised on the timestamps of a parked
    vehicle (reply [erro]), which leaves the vehicle in the map with the
    event's timestamp as its exit timestamp.  After a denial the map is
    exactly as it was. *)
Theorem negacao_nao_altera_veiculos amb self dados :
  let r := (_processar_evento amb self dados).1 in
  let depois := (_processar_evento amb self dados).2 in
  (sucesso r = true <-> acao r = abrir_cancela \/ acao r = cobrar_valor)
  /\ (sucesso r = false ->
      tabela_veiculos depois = tabela_veiculos self
      /\ (veiculos_estacionados depois = veiculos_estacionados self
          \/ exists ev p v,
               criar_evento dados = inr ev
               /\ tipo ev = SAIDA
               /\ placa ev = str p
               /\ veiculos_estacionados self !! p = Some v
               /\ sub (timestamp ev) (veiculo.timestamp_entrada v) = None
               /\ acao r = erro
               /\ veiculos_estacionados depois
                  = <[p := veiculo.set_timestamp_saida
                             (Some (timestamp ev)) v]>
                      (veiculos_estacionados self)))
  /\ (sucesso r = false -> acao r <> erro ->
      veiculos_estacionados depois = veiculos_estacionados self)
  /\ (forall p,
        is_Some (veiculos_estacionados depois !! p)
        <-> (is_Some (veiculos_estacionados self !! p)
             /\ ~ (acao r = cobrar_valor
                   /\ exists ev, criar_evento dados = inr ev
                                 /\ placa ev = str p))
            \/ (acao r = abrir_cancela
                /\ exists ev, criar_evento dados = inr ev
                              /\ placa ev = str p)).
Proof.
  cbv zeta.
  destruct (_processar_evento_mapa amb self dados)
    as [(ev & p & Hev & Hp & Hn & Ha & Hs & Hm)
       |[(ev & p & Hev & Hp & Hv & Ha & Hs & Hm)
        |[(ev & p & v & Hev & Ht & Hp & Hv & Hd & Hs & Ha & Hm & Htab)
         |(Hs & Ha1 & Ha2 & Hm & Ht)]]].
  - rewrite Hs, Ha, Hm.
    split; [split; auto|]. split; [discriminate|]. split; [discriminate|].
    intros q. destruct (decide (q = p)) as [->|Hne].
    + rewrite lookup_insert_eq. split; [intros _|eauto].
      right. split; [reflexivity|]. eauto.
    + rewrite lookup_insert_ne by done. split.
      * intros H. left. split; [exact H|]. intros [H' _]. discriminate H'.
      * intros [[H _]|(_ & ev' & Hev' & Hp')]; [exact H|]. congruence.
  - rewrite Hs, Ha, Hm.
    split; [split; auto|]. split; [discriminate|]. split; [discriminate|].
    intros q. destruct (decide (q = p)) as [->|Hne].
    + rewrite lookup_delete_eq. split; [intros [? H]; discriminate H|].
      intros [[_ H]|[H _]]; [|discriminate H].
      destruct H. split; [reflexivity|]. eauto.
    + rewrite lookup_delete_ne by done. split.
      * intros H. left. split; [exact H|].
        intros (_ & ev' & Hev' & Hp'). congruence.
      * intros [[H _]|[H _]]; [exact H | discriminate H].
  - rewrite Hs, Ha, Hm.
    split; [split; [discriminate | intros [H|H]; discriminate H]|].
    split; [intros _; split; [exact Htab|]; right; exists ev, p, v; auto 10|].
    split; [intros _ H; contradiction|].
    intros q. destruct (decide (q = p)) as [->|Hne].
    + rewrite lookup_insert_eq, Hv. split; [intros _|eauto].
      left. split; [eauto|]. intros [H _]. discriminate H.
    + rewrite lookup_insert_ne by done. split.
      * intros H. left. split; [exact H|]. intros [H' _]. discriminate H'.
      * intros [[H _]|[H _]]; [exact H | discriminate H].
  - rewrite Hs, Hm.
    split; [split; [discriminate | intros [H|H]; contradiction]|].
    split; [auto|]. split; [auto|].
    intros q. split.
    + intros H. left. split; [exact H|]. intros [H' _]. contradiction.
    + intros [[H _]|[H _]]; [exact H | contradiction].
Qed.

Lemma negacao_nao_altera_veiculos_witness :
  let dados := pedido "XYZ9876" "saida" (on_2024_01_01 10 5 0) in
  sucesso (_processar_evento amb0 central_com_ABC1234 dados).1 = false
  /\ acao (_processar_evento amb0 central_com_ABC1234 dados).1 = negar_saida
  /\ veiculos_estacionados (_processar_evento amb0 central_com_ABC1234 dados).2
     = veiculos_estacionados central_com_ABC1234.
Proof.
  intros dados.
  assert (Hs : sucesso (_processar_evento amb0 central_com_ABC1234 dados).1
               = false) by (vm_compute; reflexivity).
  assert (Ha : acao (_processar_evento amb0 central_com_ABC1234 dados).1
               = negar_saida) by (vm_compute; reflexivity).
  split; [exact Hs|]. split; [exact Ha|].
  destruct (negacao_nao_altera_veiculos amb0 central_com_ABC1234 dados)
    as (_ & _ & H & _).
  apply (H Hs). rewrite Ha. discriminate.
Defined.

(** X5.  What is decided does not depend on the database or on the clock:
    under any two surroundings the reply has the same success flag, action,
    fee, duration and message (only the identifier may differ), and the
    parked map ends the same. *)
Theorem decisao_independe_do_banco amb1 amb2 self dados :
  decisao (_processar_evento amb1 self dados).1
  = decisao (_processar_evento amb2 self dados).1
  /\ veiculos_estacionados (_processar_evento amb1 self dados).2
     = veiculos_estacionados (_processar_evento amb2 self dados).2.
Proof.
  unfold decisao. caminho self dados; auto;
    unfold _salvar_evento, _salvar_veiculo, _atualizar_veiculo;
    destruct (sqlite_eventos_ok amb1), (sqlite_eventos_ok amb2),
      (sqlite_veiculos_ok amb1), (sqlite_veiculos_ok amb2); simpl; auto.
Qed.


(** X6.  An event can be built exactly from a JSON object that has the keys
    placa, tipo, timestamp and confianca_lpr, with one of the four kind
    names and a timestamp in ISO format; the floor defaults to "terreo" and
    nothing else of the object is read. *)
Theorem criar_evento_bem_formado dados ev :
  criar_evento dados = inr ev <->
  exists d p nome t ts c,
    dados = objeto d
    /\ d_placa d = Some p
    /\ d_tipo d = Some nome /\ TipoEvento_of_value nome = Some t
    /\ d_timestamp d = Some (iso ts)
    /\ d_confianca_lpr d = Some c
    /\ ev = evento.__init__ p t ts c (default "terreo" (d_andar d)).
Proof.
  split.
  - destruct dados as [d|]; [|discriminate]. unfold criar_evento, item.
    destruct (d_placa d) as [p|] eqn:Hp; [|discriminate]. simpl.
    destruct (d_tipo d) as [nome|] eqn:Hn; [|discriminate]. simpl.
    unfold TipoEvento_.
    destruct (TipoEvento_of_value nome) as [t|] eqn:Ht; [|discriminate].
    simpl. destruct (d_timestamp d) as [[ts|s]|] eqn:Hts; try discriminate.
    simpl. destruct (d_confianca_lpr d) as [c|] eqn:Hc; [|discriminate].
    simpl. intros [= <-]. exists d, p, nome, t, ts, c. auto 10.
  - intros (d & p & nome & t & ts & c & -> & Hp & Hn & Ht & Hts & Hc & ->).
    unfold criar_evento, item, TipoEvento_. rewrite Hp, Hn. simpl.
    rewrite Ht. simpl. rewrite Hts. simpl. rewrite Hc. reflexivity.
Qed.

Lemma criar_evento_bem_formado_witness :
  criar_evento (pedido "ABC1234" "saida" (on_2024_01_01 10 30 0))
  = inr (evento.__init__ (str "ABC1234") SAIDA (on_2024_01_01 10 30 0)
           (pyfloat.RN (95 # 100)) "terreo").
Proof.
  apply (proj2 (criar_evento_bem_formado _ _)).
  eexists _, (str "ABC1234"), "saida"%string, SAIDA, _, _.
  repeat split; reflexivity.
Defined.

(** X7.  The reply carries [acao = erro] exactly when the event cannot be
    built or when, with the garage open and the floor check passed, its
    kind is neither Entry nor Exit, its plate is a JSON array or object,
    or it is the Exit of a parked plate whose entry timestamp cannot be
    subtracted from the event's (one naive, the other offset-aware).  Such
    a reply has no success, carries a local identifier, and leaves both
    tables, the flags and the prices as they were; the state is unchanged
    altogether, except in the last case, where the parked vehicle gets the
    event's timestamp as its exit timestamp.  A malformed event gets the
    error reply even while the garage is closed. *)
Theorem resposta_de_erro amb self dados :
  let r := (_processar_evento amb self dados).1 in
  let depois := (_processar_evento amb self dados).2 in
  (acao r = erro <->
     (exists e, criar_evento dados = inl e)
     \/ (exists ev,
           criar_evento dados = inr ev
           /\ estacionamento_fechado self = false
           /\ andar_bloqueado self && String.eqb (andar ev) "terreo" = false
           /\ ((tipo ev = ERRO \/ tipo ev = MANUTENCAO)
               \/ placa ev = nao_hashable
               \/ (tipo ev = SAIDA
                   /\ exists p v,
                        placa ev = str p
                        /\ veiculos_estacionados self !! p = Some v
                        /\ sub (timestamp ev) (veiculo.timestamp_entrada v)
                           = None))))
  /\ (acao r = erro ->
      sucesso r = false
      /\ evento_id r = id_local (agora amb)
      /\ tabela_eventos depois = tabela_eventos self
      /\ tabela_veiculos depois = tabela_veiculos self
      /\ mesma_configuracao depois self
      /\ (depois = self
          \/ exists ev p v,
               criar_evento dados = inr ev
               /\ tipo ev = SAIDA
               /\ placa ev = str p
               /\ veiculos_estacionados self !! p = Some v
               /\ sub (timestamp ev) (veiculo.timestamp_entrada v) = None
               /\ mensagem r = Some (str_excecao TypeError_naive_aware)
               /\ depois
                  = set_veiculos_estacionados
                      (<[p := veiculo.set_timestamp_saida
                                (Some (timestamp ev)) v]>
                         (veiculos_estacionados self)) self))
  /\ (forall e, criar_evento dados = inl e ->
      mensagem r = Some (str_excecao e))
  /\ (forall ev,
        criar_evento dados = inr ev ->
        acao r = erro ->
        placa ev = nao_hashable ->
        tipo ev = ENTRADA \/ tipo ev = SAIDA ->
        mensagem r = Some (str_excecao TypeError_unhashable)
        /\ depois = self).
Proof.
  cbv zeta.
  assert (Hconf := _processar_evento_configuracao amb self dados).
  revert Hconf.
  caminho self dados; intros Hconf.
  - (* the event cannot be built *)
    split; [split; eauto|].
    split; [intros _; repeat split; auto|].
    split; [intros e' [= <-]; reflexivity | discriminate].
  - (* garage closed *)
    split; [|split; [discriminate | split; discriminate]].
    split; [discriminate|].
    intros [(e & He)|(ev' & [= <-] & Hf & _)]; congruence.
  - (* floor blocked *)
    split; [|split; [discriminate | split; discriminate]].
    split; [discriminate|].
    intros [(e & He)|(ev' & [= <-] & _ & Hb & _)]; congruence.
  - (* entry, plate parked *)
    split; [|split; [discriminate | split; [discriminate|]]].
    + split; [discriminate|].
      intros [(e & He)|(ev' & [= <-] & _ & _ & [[Ht|Ht]|[Ht|[Ht _]]])];
        congruence.
    + intros ev' _ H. discriminate H.
  - (* entry, plate free *)
    split; [|split; [discriminate | split; [discriminate|]]].
    + split; [discriminate|].
      intros [(e & He)|(ev' & [= <-] & _ & _ & [[Ht|Ht]|[Ht|[Ht _]]])];
        congruence.
    + intros ev' _ H. discriminate H.
  - (* entry, plate no key *)
    split; [split; [intros _|reflexivity]|].
    { right. exists ev. auto 10. }
    split; [intros _; repeat split; auto|].
    split; [discriminate|]. intros ev' _ _ _ _. auto.
  - (* exit charged *)
    split; [|split; [discriminate | split; [discriminate|]]].
    + split; [discriminate|].
      intros [(e & He)
             |(ev' & [= <-] & _ & _
               & [[Ht|Ht]|[Ht|(_ & p' & v' & Hp' & Hv' & Hd')]])];
        congruence.
    + intros ev' _ H. discriminate H.
  - (* exit raised on the timestamps *)
    split; [split; [intros _|reflexivity]|].
    { right. exists ev. split; [reflexivity|]. split; [reflexivity|].
      split; [exact Hbloqueado|]. right; right. split; [exact Htipo|].
      exists p, v. auto. }
    split.
    { intros _. split; [reflexivity|]. split; [reflexivity|].
      split; [reflexivity|]. split; [reflexivity|].
      split; [exact Hconf|].
      right. exists ev, p, v. auto 10. }
    split; [discriminate|]. intros ev' [= <-] _ H. congruence.
  - (* exit, plate absent *)
    split; [|split; [discriminate | split; [discriminate|]]].
    + split; [discriminate|].
      intros [(e & He)
             |(ev' & [= <-] & _ & _
               & [[Ht|Ht]|[Ht|(_ & p' & v' & Hp' & Hv' & Hd')]])];
        congruence.
    + intros ev' _ H. discriminate H.
  - (* exit, plate no key *)
    split; [split; [intros _|reflexivity]|].
    { right. exists ev. auto 10. }
    split; [intros _; repeat split; auto|].
    split; [discriminate|]. intros ev' _ _ _ _. auto.
  - (* kind ERRO *)
    split; [split; [intros _|reflexivity]|].
    { right. exists ev. auto 10. }
    split; [intros _; repeat split; auto|].
    split; [discriminate|]. intros ev' [= <-] _ _ [H|H]; congruence.
  - (* kind MANUTENCAO *)
    split; [split; [intros _|reflexivity]|].
    { right. exists ev. auto 10. }
    split; [intros _; repeat split; auto|].
    split; [discriminate|]. intros ev' [= <-] _ _ [H|H]; congruence.
Qed.

Lemma resposta_de_erro_witness :
  let dados :=
    objeto {| d_placa := Some (str "ABC1234");
              d_tipo := Some "entrada"%string;
              d_timestamp := None; d_confianca_lpr := None;
              d_andar := None |} in
  let r := _processar_evento amb0 central_fechada_com_ABC1234 dados in
  criar_evento dados = inl (KeyError "timestamp")
  /\ acao r.1 = erro
  /\ mensagem r.1 = Some (str_excecao (KeyError "timestamp"))
  /\ sucesso r.1 = false
  /\ tabela_eventos r.2 = tabela_eventos central_fechada_com_ABC1234.
Proof.
  intros dados r.
  assert (Hc : criar_evento dados = inl (KeyError "timestamp"))
    by reflexivity.
  destruct (resposta_de_erro amb0 central_fechada_com_ABC1234 dados)
    as (Hiff & Hst & Hmsg & _).
  assert (Ha : acao r.1 = erro) by (apply Hiff; left; eauto).
  split; [exact Hc|]. split; [exact Ha|]. split; [exact (Hmsg _ Hc)|].
  destruct (Hst Ha) as (H1 & _ & H3 & _). split; [exact H1 | exact H3].
Defined.

(** The two handlers do not read the floor flag. *)
Lemma _processar_entrada_desbloquear amb self ev :
  _processar_entrada amb (desbloquear_andar self) ev
  = ((_processar_entrada amb self ev).1,
     desbloquear_andar (_processar_entrada amb self ev).2).
Proof.
  unfold _processar_entrada, _salvar_evento, _salvar_veiculo. simpl.
  destruct (placa ev) as [p|]; [|reflexivity].
  destruct (veiculos_estacionados self !! p);
    destruct (sqlite_eventos_ok amb), (sqlite_veiculos_ok amb);
    reflexivity.
Qed.

Lemma _processar_saida_desbloquear amb self ev :
  _processar_saida amb (desbloquear_andar self) ev
  = ((_processar_saida amb self ev).1,
     desbloquear_andar (_processar_saida amb self ev).2).
Proof.
  unfold _processar_saida, _salvar_evento, _atualizar_veiculo. simpl.
  destruct (placa ev) as [p|]; [|reflexivity].
  destruct (veiculos_estacionados self !! p); simpl.
  - destruct (veiculo.processar_saida _ _ _ _) as [v' [res|]];
      destruct (sqlite_eventos_ok amb), (sqlite_veiculos_ok amb);
      reflexivity.
  - destruct (sqlite_eventos_ok amb); reflexivity.
Qed.

(** X8.  While the ground floor is blocked (garage open), every well-formed
    event for the floor "terreo" is answered [negar_entrada] with nothing
    changed, an Exit of a parked vehicle included; an event for any other
    floor is handled exactly as if the block were lifted. *)
Theorem andar_bloqueado_so_afeta_o_terreo amb self dados ev :
  criar_evento dados = inr ev ->
  estacionamento_fechado self = false ->
  andar_bloqueado self = true ->
  (andar ev = "terreo"%string ->
   _processar_evento amb self dados
   = (resposta (id_local (agora amb)) false negar_entrada Andar_bloqueado,
      self))
  /\ (andar ev <> "terreo"%string ->
      (_processar_evento amb self dados).1
      = (_processar_evento amb (desbloquear_andar self) dados).1
      /\ desbloquear_andar (_processar_evento amb self dados).2
         = (_processar_evento amb (desbloquear_andar self) dados).2).
Proof.
  intros Hev Hf Hb. split.
  - intros Ha. unfold _processar_evento. rewrite Hev, Hf, Hb, Ha.
    reflexivity.
  - intros Ha. apply String.eqb_neq in Ha.
    unfold _processar_evento. rewrite Hev, Hf, Hb, Ha. simpl.
    rewrite Hf. simpl. destruct (tipo ev); simpl; auto.
    + rewrite _processar_entrada_desbloquear. unfold except_Exception.
      simpl. destruct (_processar_entrada amb self ev).1; auto.
    + rewrite _processar_saida_desbloquear. unfold except_Exception.
      simpl. destruct (_processar_saida amb self ev).1; auto.
Qed.

Lemma andar_bloqueado_so_afeta_o_terreo_witness :
  let self := bloquear_andar central_com_ABC1234 in
  let dados := pedido "ABC1234" "saida" (on_2024_01_01 10 30 0) in
  is_Some (veiculos_estacionados self !! "ABC1234"%string)
  /\ _processar_evento amb0 self dados
     = (resposta (id_local (agora amb0)) false negar_entrada Andar_bloqueado,
        self).
Proof.
  intros self dados. split; [vm_compute; eauto|].
  apply (andar_bloqueado_so_afeta_o_terreo amb0 self dados
           (evento.__init__ (str "ABC1234") SAIDA (on_2024_01_01 10 30 0)
              (pyfloat.RN (95 # 100)) "terreo")); reflexivity.
Defined.

(** X9.  An Entry followed by the Exit of the same plate, for a plate that
    was not parked.  The Entry opens the gate.  When the timestamp of the
    Entry can be subtracted from that of the Exit (both naive or both
    offset-aware), the Exit charges the stay between the two and leaves
    the parked map exactly as it was before the Entry.  When it cannot
    (one naive, the other offset-aware), the Exit is answered [erro] and
    the vehicle stays parked, with the timestamp of the Exit as its exit
    timestamp. *)
Theorem entrada_depois_saida amb1 amb2 self d1 d2 e1 e2 p :
  criar_evento d1 = inr e1 -> criar_evento d2 = inr e2 ->
  tipo e1 = ENTRADA -> tipo e2 = SAIDA ->
  placa e1 = str p -> placa e2 = str p ->
  estacionamento_fechado self = false -> andar_bloqueado self = false ->
  veiculos_estacionados self !! p = None ->
  let r1 := _processar_evento amb1 self d1 in
  let r2 := _processar_evento amb2 r1.2 d2 in
  let v := veiculo.__init__ p (timestamp e1) (andar e1) None in
  acao r1.1 = abrir_cancela
  /\ (forall d,
        sub (timestamp e2) (timestamp e1) = Some d ->
        acao r2.1 = cobrar_valor
        /\ tempo_permanencia r2.1 = Some (veiculo.minutos_do_delta d)
        /\ tempo_permanencia r2.1
           = veiculo.calcular_tempo_permanencia v (timestamp e2)
        /\ veiculos_estacionados r2.2 = veiculos_estacionados self)
  /\ (sub (timestamp e2) (timestamp e1) = None ->
      acao r2.1 = erro
      /\ sucesso r2.1 = false
      /\ veiculos_estacionados r2.2
         = <[p := veiculo.set_timestamp_saida (Some (timestamp e2)) v]>
             (veiculos_estacionados self)).
Proof.
  intros H1 H2 Ht1 Ht2 Hp1 Hp2 Hf Hb Hn r1 r2 v.
  destruct (entrada_autorizada amb1 self d1 e1 p H1 Ht1 Hf
              ltac:(by rewrite Hb) Hp1 Hn) as (_ & Ha1 & Hm1).
  fold r1 in Ha1, Hm1. fold v in Hm1.
  destruct (_processar_evento_configuracao amb1 self d1) as (Hf' & Hb' & _).
  fold r1 in Hf', Hb'.
  assert (Hv : veiculos_estacionados r1.2 !! p = Some v)
    by (rewrite Hm1; apply lookup_insert_eq).
  assert (Hf2 : estacionamento_fechado r1.2 = false) by congruence.
  assert (Hb2 : andar_bloqueado r1.2 && String.eqb (andar e2) "terreo"
                = false) by (rewrite Hb', Hb; reflexivity).
  split; [exact Ha1|]. split.
  - intros d Hd.
    destruct (saida_autorizada amb2 r1.2 d2 e2 p v d H2 Ht2 Hf2 Hb2 Hp2 Hv Hd)
      as (Hc & _ & Ha2 & Htp & _ & Hm2).
    fold r2 in Ha2, Htp, Hm2.
    split; [exact Ha2|]. split; [exact Htp|].
    split; [by rewrite Htp, Hc|].
    rewrite Hm2, Hm1. rewrite delete_insert_eq. apply delete_id. exact Hn.
  - intros Hd. unfold r2.
    rewrite (despacho _ _ _ _ H2 Hf2 Hb2), Ht2.
    rewrite (_processar_saida_levanta _ _ _ _ _ Hp2 Hv Hd).
    unfold except_Exception. simpl.
    split; [reflexivity|]. split; [reflexivity|].
    rewrite Hm1. apply insert_insert_eq.
Qed.

Lemma entrada_depois_saida_witness :
  let r1 := _processar_evento amb0 central_nova
              (pedido "ABC1234" "entrada" (on_2024_01_01 10 0 0)) in
  let r2 := _processar_evento amb0 r1.2
              (pedido "ABC1234" "saida" (on_2024_01_01 11 5 30)) in
  acao r1.1 = abrir_cancela
  /\ acao r2.1 = cobrar_valor
  /\ tempo_permanencia r2.1 = Some 66
  /\ veiculos_estacionados r2.2 = veiculos_estacionados central_nova.
Proof.
  destruct (entrada_depois_saida amb0 amb0 central_nova
           (pedido "ABC1234" "entrada" (on_2024_01_01 10 0 0))
           (pedido "ABC1234" "saida" (on_2024_01_01 11 5 30))
           (evento.__init__ (str "ABC1234") ENTRADA (on_2024_01_01 10 0 0)
              (pyfloat.RN (95 # 100)) "terreo")
           (evento.__init__ (str "ABC1234") SAIDA (on_2024_01_01 11 5 30)
              (pyfloat.RN (95 # 100)) "terreo")
           "ABC1234")
    as (H1 & H2 & _); [reflexivity ..|].
  destruct (H2 3930000000) as (H3 & H4 & _ & H5); [reflexivity|].
  split; [exact H1|]. split; [exact H3|].
  split; [rewrite H4; vm_compute; reflexivity | exact H5].
Defined.

(** The same Entry, followed by an Exit whose timestamp carries an
    offset: the reply is [erro], no event row is written, and ABC1234
    stays parked with an exit timestamp. *)
Example saida_com_offset_levanta :
  let r := _processar_evento amb0 central_com_ABC1234
             (pedido "ABC1234" "saida"
                (com_offset 0 (on_2024_01_01 10 30 0))) in
  acao r.1 = erro
  /\ sucesso r.1 = false
  /\ mensagem r.1 = Some (str_excecao TypeError_naive_aware)
  /\ evento_id r.1 = id_local (agora amb0)
  /\ tabela_eventos r.2 = tabela_eventos central_com_ABC1234
  /\ veiculos_estacionados r.2 !! "ABC1234"
     = Some (veiculo.set_timestamp_saida
               (Some (com_offset 0 (on_2024_01_01 10 30 0)))
               veiculo_ABC1234).
Proof. vm_compute. auto 10. Qed.

Lemma entrada_autorizada_witness :
  let dados := pedido "ABC1234" "entrada" (on_2024_01_01 10 0 0) in
  veiculos_estacionados central_nova !! "ABC1234"%string = None
  /\ sucesso (_processar_evento amb0 central_nova dados).1 = true
  /\ acao (_processar_evento amb0 central_nova dados).1 = abrir_cancela
  /\ veiculos_estacionados (_processar_evento amb0 central_nova dados).2
     = <["ABC1234"%string := veiculo_ABC1234]>
         (veiculos_estacionados central_nova).
Proof.
  intros dados. split; [reflexivity|].
  apply (entrada_autorizada amb0 central_nova dados
           (evento.__init__ (str "ABC1234") ENTRADA (on_2024_01_01 10 0 0)
              (pyfloat.RN (95 # 100)) "terreo") "ABC1234"); reflexivity.
Defined.

Lemma saida_autorizada_witness :
  let dados := pedido "ABC1234" "saida" (on_2024_01_01 10 30 0) in
  let r := _processar_evento amb0 central_com_ABC1234 dados in
  veiculos_estacionados central_com_ABC1234 !! "ABC1234"%string
  = Some veiculo_ABC1234
  /\ sucesso r.1 = true /\ acao r.1 = cobrar_valor
  /\ tempo_permanencia r.1 = Some 30
  /\ valor r.1 = Some (9 # 2)%Q
  /\ veiculos_estacionados r.2
     = delete "ABC1234"%string (veiculos_estacionados central_com_ABC1234).
Proof.
  intros dados r.
  assert (Hv : veiculos_estacionados central_com_ABC1234 !! "ABC1234"%string
               = Some veiculo_ABC1234) by (vm_compute; reflexivity).
  split; [exact Hv|].
  destruct (saida_autorizada amb0 central_com_ABC1234 dados
              (evento.__init__ (str "ABC1234") SAIDA (on_2024_01_01 10 30 0)
                 (pyfloat.RN (95 # 100)) "terreo") "ABC1234"
              veiculo_ABC1234 1800000000)
    as (_ & H1 & H2 & H3 & H4 & H5);
    [reflexivity | reflexivity | reflexivity | reflexivity | reflexivity
    | exact Hv | reflexivity |].
  unfold r. split; [exact H1|]. split; [exact H2|].
  split; [rewrite H3; vm_compute; reflexivity|].
  split; [rewrite H4; vm_compute; reflexivity | exact H5].
Defined.

(** X10.  On an open connection, handling the reads [l1 ++ l2] is handling
    [l1] and then, unless that closed the connection, handling [l2] from the
    state and connection [l1] left; once the connection is closed nothing
    that follows is read. *)
Theorem _handle_cliente_app self con l1 l2 :
  fechada con = false ->
  _handle_cliente self con (l1 ++ l2) =
    if fechada (_handle_cliente self con l1).2
    then _handle_cliente self con l1
    else _handle_cliente (_handle_cliente self con l1).1
           (_handle_cliente self con l1).2 l2.
Proof.
  revert self con. induction l1 as [|[amb l] l1 IH]; intros self con Hab.
  - simpl. rewrite Hab. reflexivity.
  - rewrite <- app_comm_cons, !_handle_cliente_cons.
    destruct (fechada (iteracao amb self con l).2) eqn:Hf.
    + rewrite Hf. reflexivity.
    + apply IH. exact Hf.
Qed.

Lemma _handle_cliente_app_witness :
  let l1 := [(amb0, json_invalido "{placa"); (amb0, fim_do_fluxo)] in
  let l2 := [(amb0, json_valido
                      (pedido "ABC1234" "entrada" (on_2024_01_01 10 0 0)))] in
  fechada conexao_aberta = false
  /\ _handle_cliente central_nova conexao_aberta (l1 ++ l2)
     = (central_nova, fechar conexao_aberta).
Proof.
  intros l1 l2. split; [reflexivity|].
  rewrite (_handle_cliente_app central_nova conexao_aberta l1 l2);
    reflexivity.
Defined.

(** X11.  A connection that brings only requests that parse, and on which
    every write goes through, is served like the same requests in
    sequence: the state ends the same, the replies are written in order
    after what was already written, and the connection stays open. *)
Theorem _handle_cliente_pedidos self con pedidos :
  fechada con = false ->
  Forall (fun p => escrita_ok p.1 = true) pedidos ->
  _handle_cliente self con (ler_pedidos pedidos)
  = ((processar_todos self pedidos).2,
     {| respostas_escritas :=
          respostas_escritas con ++ (processar_todos self pedidos).1;
        fechada := false |}).
Proof.
  revert self con.
  induction pedidos as [|[amb dados] resto IH]; intros self con Hab Hok.
  - simpl. rewrite app_nil_r. destruct con. simpl in Hab. by rewrite Hab.
  - apply Forall_cons in Hok as [Hw Hok]. simpl in Hw.
    unfold ler_pedidos. rewrite fmap_cons. fold (ler_pedidos resto).
    rewrite _handle_cliente_cons, processar_todos_cons. simpl.
    destruct (_processar_evento amb self dados) as [r s] eqn:E.
    rewrite Hw. simpl. rewrite Hab.
    rewrite IH by (auto || exact Hab). simpl.
    by rewrite <- app_assoc.
Qed.

Lemma _handle_cliente_pedidos_witness :
  let pedidos :=
    [(amb0, pedido "ABC1234" "entrada" (on_2024_01_01 10 0 0));
     (amb0, pedido "ABC1234" "saida" (on_2024_01_01 10 30 0))] in
  acao <$> respostas_escritas
             (_handle_cliente central_nova conexao_aberta
                (ler_pedidos pedidos)).2
  = [abrir_cancela; cobrar_valor].
Proof.
  intros pedidos.
  rewrite (_handle_cliente_pedidos central_nova conexao_aberta pedidos);
    [reflexivity | reflexivity |].
  repeat constructor.
Defined.

End mais_central.

(* ===================================================================== *)
(** ** Further properties of billing *)
(* ===================================================================== *)

Section mais_faturamento.
Import pyfloat pytime veiculo exemplos.

(** X12.  The fee is never below the minimum fee, whatever the duration and
    the rate (negative ones included), and it is always one of the two: the
    minimum or the float product.  With no duration assigned it is the
    minimum. *)
Theorem valor_nunca_abaixo_do_minimo self preco_por_minuto valor_minimo :
  (valor_minimo <= calcular_valor self preco_por_minuto valor_minimo)%Q
  /\ (calcular_valor self preco_por_minuto valor_minimo = valor_minimo
      \/ exists t,
           tempo_permanencia_minutos self = Some t
           /\ calcular_valor self preco_por_minuto valor_minimo
              = mul (of_int t) preco_por_minuto
           /\ (valor_minimo <= mul (of_int t) preco_por_minuto)%Q)
  /\ (tempo_permanencia_minutos self = None ->
      calcular_valor self preco_por_minuto valor_minimo = valor_minimo).
Proof.
  unfold calcular_valor.
  destruct (tempo_permanencia_minutos self) as [t|].
  - unfold pyfloat.max, Qltb.
    destruct (Qcompare_spec (mul (of_int t) preco_por_minuto) valor_minimo)
      as [H|H|H].
    + split; [rewrite H; apply Qle_refl|]. split; [|discriminate].
      right. exists t. repeat split. rewrite H. apply Qle_refl.
    + split; [apply Qle_refl|]. split; [auto | discriminate].
    + split; [apply Qlt_le_weak, H|]. split; [|discriminate].
      right. exists t. repeat split. apply Qlt_le_weak, H.
  - split; [apply Qle_refl|]. auto.
Qed.

Lemma valor_nunca_abaixo_do_minimo_witness :
  tempo_permanencia_minutos veiculo_ABC1234 = None
  /\ calcular_valor veiculo_ABC1234 preco_padrao minimo_padrao
     = minimo_padrao.
Proof.
  split; [reflexivity|].
  apply (valor_nunca_abaixo_do_minimo veiculo_ABC1234 preco_padrao
           minimo_padrao). reflexivity.
Defined.

Lemma total_seconds_positivo d :
  0 < d -> (0 < total_seconds d)%Q.
Proof.
  intros Hd0.
  unfold total_seconds, int_truediv.
  set (q := (inject_Z d / inject_Z 1000000)%Q).
  assert (Hq : (q * 1000000 == inject_Z d)%Q).
  { unfold q. change (inject_Z 1000000) with 1000000%Q. field. }
  assert (Hlo : (inject_Z 1 <= inject_Z d)%Q) by (rewrite <- Zle_Qle; lia).
  change (inject_Z 1) with 1%Q in Hlo.
  assert (Hn : (2 ^ (-1022) <= q)%Q).
  { eapply Qle_trans; [apply (pow2_le (-1022) (-20)); lia |].
    change (2 ^ (-20))%Q with (1 # 1048576)%Q. lra. }
  destruct (RN_normal q Hn) as (m & e & Hx & [He1 _] & [Hx1 _] & _).
  rewrite Hx.
  pose proof (pow2_le e (e + 52) ltac:(lia)).
  pose proof (pow2_pos e). lra.
Qed.

(** X13.  Between valid timestamps that can be subtracted (both naive or
    both offset-aware) the billed duration is never negative: it is 0 when
    the exit timestamp equals the entry timestamp and at least 1 minute as
    soon as the exit is later, were it by one microsecond.  Between naive
    timestamps the difference is that of the two readings. *)
Theorem tempo_permanencia_minimo self t_saida d :
  valid (timestamp_entrada self) -> valid t_saida ->
  sub t_saida (timestamp_entrada self) = Some d ->
  0 <= d ->
  (t_saida = timestamp_entrada self ->
   calcular_tempo_permanencia self t_saida = Some 0)
  /\ (d = 0 -> calcular_tempo_permanencia self t_saida = Some 0)
  /\ (0 < d ->
      exists minutos,
        calcular_tempo_permanencia self t_saida = Some minutos
        /\ 1 <= minutos)
  /\ (utcoffset (timestamp_entrada self) = None ->
      utcoffset t_saida = None ->
      d = relogio t_saida - relogio (timestamp_entrada self)).
Proof.
  intros He Hs Hsub Hd0.
  assert (Hz : d = 0 -> calcular_tempo_permanencia self t_saida = Some 0).
  { intros ->. rewrite (calcular_tempo_permanencia_delta _ _ _ Hsub).
    reflexivity. }
  split; [|split; [exact Hz|split]].
  - intros Heq. apply Hz. rewrite Heq in Hsub. unfold sub in Hsub.
    destruct (utcoffset (timestamp_entrada self)); simplify_eq; lia.
  - intros Hlt.
    rewrite (tempo_permanencia_do_float self t_saida d He Hs Hsub Hd0).
    eexists. split; [reflexivity|].
    assert (Hp : (0 < total_seconds d)%Q)
      by (apply total_seconds_positivo; exact Hlt).
    pose proof (Qle_ceiling (total_seconds d / 60)) as Hc.
    assert (Hd : (0 < total_seconds d / 60)%Q)
      by (apply Qlt_shift_div_l; lra).
    assert (H0 : (inject_Z 0
                  < inject_Z (Qceiling (total_seconds d / 60)))%Q).
    { change (inject_Z 0) with 0%Q. lra. }
    rewrite <- Zlt_Qlt in H0. lia.
  - intros Hne Hns. rewrite (sub_naive _ _ Hns Hne) in Hsub. congruence.
Qed.

Lemma tempo_permanencia_minimo_witness :
  let um_depois := naive (relogio (timestamp_entrada veiculo_ABC1234) + 1) in
  valid (timestamp_entrada veiculo_ABC1234)
  /\ valid um_depois
  /\ sub um_depois (timestamp_entrada veiculo_ABC1234) = Some 1
  /\ exists minutos,
       calcular_tempo_permanencia veiculo_ABC1234 um_depois = Some minutos
       /\ 1 <= minutos.
Proof.
  intros um_depois.
  assert (H1 : valid (timestamp_entrada veiculo_ABC1234))
    by (vm_compute; repeat split; discriminate).
  assert (H2 : valid um_depois)
    by (vm_compute; repeat split; discriminate).
  assert (H3 : sub um_depois (timestamp_entrada veiculo_ABC1234) = Some 1)
    by reflexivity.
  split; [exact H1|]. split; [exact H2|]. split; [exact H3|].
  apply (tempo_permanencia_minimo veiculo_ABC1234 um_depois 1 H1 H2 H3);
    lia.
Defined.

End mais_faturamento.

(* ===================================================================== *)
(** ** Further facts on float rounding *)
(* ===================================================================== *)

Section mais_float.
Import pyfloat.

Lemma RN_limitado q k :
  0 < k < 2 ^ 53 -> (0 <= q <= inject_Z k)%Q ->
  (0 <= RN q <= inject_Z k)%Q.
Proof.
  intros [Hk0 Hk] [Hq0 Hqk].
  assert (Hkp : (0 < inject_Z k)%Q) by (apply inject_Z_pos; lia).
  destruct (Qlt_le_dec 0 q) as [Hq|Hq].
  2:{ rewrite (RN_zero q) by lra. lra. }
  destruct (RN_pos_spec q Hq) as (m & L & H1 & [H2 _] & [H3 H3']).
  cbv zeta in *. set (e := Z.max (L - 52) emin) in *.
  assert (HL : L < 53).
  { apply pow2_lt_inv. eapply Qle_lt_trans; [exact H2|].
    eapply Qle_lt_trans; [exact Hqk|]. rewrite <- pow2_Z by lia.
    rewrite <- Zlt_Qlt. exact Hk. }
  assert (He : e <= 0) by (unfold e, emin; lia).
  pose proof (pow2_pos e) as HP.
  rewrite H1. split.
  - destruct (Z_lt_le_dec m 0) as [Hm|Hm].
    + assert (Hm' : (inject_Z m <= -1)%Q).
      { change (-1)%Q with (inject_Z (-1)). rewrite <- Zle_Qle. lia. }
      assert ((inject_Z m * 2 ^ e <= -1 * 2 ^ e)%Q)
        by (apply Qmult_le_compat_r; lra).
      lra.
    + assert (Hm' : (0 <= inject_Z m)%Q).
      { change 0%Q with (inject_Z 0). rewrite <- Zle_Qle. lia. }
      apply Qmult_le_0_compat; lra.
  - destruct (Qlt_le_dec (inject_Z k) (inject_Z m * 2 ^ e)) as [Hgt|Hle];
      [|exact Hle].
    pose proof (grid_above m e k He Hgt). lra.
Qed.

End mais_float.

(* ===================================================================== *)
(** ** Stays that end before they begin *)
(* ===================================================================== *)

Section mais_permanencia.
Import pyfloat pytime veiculo exemplos.

Lemma Qopp_opp_eq (x : Q) : Qopp (Qopp x) = x.
Proof. destruct x as [a b]. unfold Qopp. simpl. f_equal. lia. Qed.

Lemma RN_opp q : RN (- q) = Qopp (RN q).
Proof.
  unfold RN. rewrite Qred_opp.
  destruct (Qred q) as [[|p|p] d]; simpl; try reflexivity.
  symmetry. apply Qopp_opp_eq.
Qed.

Lemma trunc_neg z w :
  (z == - w)%Q -> (0 <= w)%Q -> trunc z = - Qfloor w.
Proof.
  intros Hz Hw.
  assert (Hw' : (w == - z)%Q) by (rewrite Hz; ring).
  rewrite (Qfloor_comp _ _ Hw').
  assert (Hz0 : (z <= 0)%Q) by (rewrite Hz; lra).
  destruct z as [a b]. unfold trunc, Qfloor, Qopp. simpl.
  assert (Ha : a <= 0) by (unfold Qle in Hz0; simpl in Hz0; lia).
  rewrite <- (Z.opp_involutive a) at 1.
  rewrite Z.quot_opp_l by lia. f_equal.
  apply Z.quot_div_nonneg; lia.
Qed.

Lemma RN_positivo q : (2 ^ (-1022) <= q)%Q -> (0 < RN q)%Q.
Proof.
  intros Hq.
  destruct (RN_normal q Hq) as (m & e & Hz & [He1 _] & [Hz1 _] & _).
  rewrite Hz. pose proof (pow2_pos e) as HP.
  pose proof (pow2_add e 52) as Ha. rewrite Z.add_comm in Ha.
  replace (52 + e) with (e + 52) in Ha by lia.
  assert (H52 : (1 <= 2 ^ 52)%Q) by (apply (pow2_le 0 52); lia).
  assert ((2 ^ e <= 2 ^ e * 2 ^ 52)%Q).
  { rewrite <- (Qmult_1_r (2 ^ e)) at 1.
    apply Qmult_le_l; [exact HP | exact H52]. }
  lra.
Qed.

(** The float seconds of a positive span below the limit that is not a
    whole number of minutes: strictly between the two whole minutes, on a
    binary grid, and with a quotient by sixty that truncates to the lower
    minute. *)
Lemma segundos_inexatos d k r :
  0 <= k -> 0 < r < minuto -> d = minuto * k + r -> d < limite ->
  let ts := total_seconds d in
  (60 * inject_Z k < ts < 60 * (inject_Z k + 1))%Q
  /\ trunc (div ts 60%Q) = k
  /\ (2 ^ (-1022) <= 60 * (inject_Z k + 1) - ts)%Q.
Proof.
  unfold minuto, limite. intros Hk Hr Hd Hlim. cbv zeta.
  set (ts := total_seconds d).
  set (q := (inject_Z d / inject_Z 1000000)%Q).
  pose proof (segundos_exatos d) as Hs. fold q in Hs.
  assert (Hlo : (inject_Z (60000000 * k + 1) <= inject_Z d)%Q)
    by (rewrite <- Zle_Qle; lia).
  assert (Hhi : (inject_Z d <= inject_Z (60000000 * (k + 1) - 1))%Q)
    by (rewrite <- Zle_Qle; lia).
  assert (Hmax : (inject_Z d < inject_Z (2 ^ 34 * 1000000))%Q)
    by (rewrite <- Zlt_Qlt; lia).
  assert (Hk0 : (0 <= inject_Z k)%Q)
    by (change 0%Q with (inject_Z 0); rewrite <- Zle_Qle; lia).
  rewrite inject_Z_plus, inject_Z_mult in Hlo.
  rewrite inject_Z_sub, inject_Z_mult, inject_Z_plus in Hhi.
  change (inject_Z 60000000) with 60000000%Q in *.
  change (inject_Z 1) with 1%Q in *.
  change (inject_Z (2 ^ 34 * 1000000)) with 17179869184000000%Q in Hmax.
  assert (Hn : (2 ^ (-1022) <= q)%Q).
  { eapply Qle_trans; [apply (pow2_le (-1022) (-20)); lia |].
    change (2 ^ (-20))%Q with (1 # 1048576)%Q. lra. }
  destruct (RN_normal q Hn) as (m & e & Hx & [He1 He2] & [Hx1 Hx2] & Hx3).
  change (RN q) with ts in Hx.
  assert (He : e <= -19).
  { assert (e + 52 < 34); [|lia]. apply pow2_lt_inv.
    eapply Qle_lt_trans; [exact He1|].
    change (2 ^ 34)%Q with 17179869184%Q. lra. }
  assert (He' : -1022 <= e).
  { assert (-20 < e + 53); [|lia]. apply pow2_lt_inv.
    eapply Qle_lt_trans; [|exact He2].
    change (2 ^ (-20))%Q with (1 # 1048576)%Q. lra. }
  pose proof (pow2_pos e) as HP.
  pose proof (pow2_le e (-19) He) as HP19.
  change (2 ^ (-19))%Q with (1 # 524288)%Q in HP19.
  rewrite <- Hx in Hx1, Hx2, Hx3.
  assert (Hts : (60 * inject_Z k < ts < 60 * (inject_Z k + 1))%Q) by lra.
  split; [exact Hts|]. split.
  - apply (quociente_60 ts m e k); [exact Hk | lia | exact Hx | exact Hx3
                                   | | exact Hts].
    eapply Qle_trans; [apply (pow2_le (-1000) (-40)); lia |].
    change (2 ^ (-40))%Q with (1 # 1099511627776)%Q. lra.
  - assert (Hg : (inject_Z m * 2 ^ e < inject_Z (60 * (k + 1)))%Q).
    { rewrite <- Hx, inject_Z_mult, inject_Z_plus.
      change (inject_Z 60) with 60%Q. change (inject_Z 1) with 1%Q. lra. }
    pose proof (grid_below m e (60 * (k + 1)) ltac:(lia) Hg) as Hgb.
    rewrite inject_Z_mult, inject_Z_plus in Hgb.
    change (inject_Z 60) with 60%Q in Hgb.
    change (inject_Z 1) with 1%Q in Hgb.
    pose proof (pow2_le (-1022) e He'). rewrite Hx. lra.
Qed.

Lemma segundos_negativos d :
  total_seconds (- d) = Qopp (total_seconds d).
Proof.
  unfold total_seconds, int_truediv. rewrite <- RN_opp.
  apply RN_comp. rewrite inject_Z_opp.
  change (inject_Z 1000000) with 1000000%Q. field.
Qed.

(** The body of [calcular_tempo_permanencia] on a negative span. *)
Lemma tempo_negativo d k r :
  0 <= k -> 0 <= r < minuto -> d = minuto * k + r -> 0 < d < limite ->
  let ts := total_seconds (- d) in
  (if Qltb 0%Q (mod_ ts 60%Q)
   then trunc (div ts 60%Q) + 1 else trunc (div ts 60%Q))
  = - k + (if r =? 0 then 0 else 1).
Proof.
  intros Hk Hr Hd [Hd0 Hlim]. cbv zeta. rewrite segundos_negativos.
  set (ts := total_seconds d).
  assert (Hk0 : (0 <= inject_Z k)%Q)
    by (change 0%Q with (inject_Z 0); rewrite <- Zle_Qle; lia).
  assert (Hfacts :
    (60 * inject_Z k <= ts < 60 * (inject_Z k + 1))%Q
    /\ trunc (div ts 60%Q) = k
    /\ (0 <= div ts 60%Q)%Q
    /\ (r = 0 -> (ts == 60 * inject_Z k)%Q)
    /\ (r <> 0 -> (60 * inject_Z k < ts)%Q
                  /\ (2 ^ (-1022) <= 60 * (inject_Z k + 1) - ts)%Q)).
  { destruct (decide (r = 0)) as [->|Hr0].
    - assert (Hkp : 0 < k) by (unfold minuto in *; lia).
      assert (Hts : (ts == inject_Z (60 * k))%Q).
      { unfold ts, total_seconds, int_truediv.
        rewrite (RN_comp _ (inject_Z (60 * k))).
        - apply RN_int. unfold minuto, limite in *. lia.
        - subst d. unfold minuto. rewrite Z.add_0_r, !inject_Z_mult.
          change (inject_Z 60000000) with 60000000%Q.
          change (inject_Z 1000000) with 1000000%Q.
          change (inject_Z 60) with 60%Q. field. }
      assert (Hdiv : (div ts 60 == inject_Z k)%Q).
      { unfold div. rewrite (RN_comp _ (inject_Z k)).
        - apply RN_int. unfold minuto, limite in *. lia.
        - rewrite Hts, inject_Z_mult. change (inject_Z 60) with 60%Q.
          field. }
      rewrite inject_Z_mult in Hts. change (inject_Z 60) with 60%Q in Hts.
      split; [rewrite Hts; lra|].
      split; [apply trunc_unique; [lia | rewrite Hdiv; lra]|].
      split; [rewrite Hdiv; lra|]. split; [done | done].
    - destruct (segundos_inexatos d k r Hk ltac:(lia) Hd Hlim)
        as (Hts & Htr & Hg). fold ts in Hts, Htr, Hg.
      split; [lra|]. split; [exact Htr|].
      split; [|split; [done | intros _; split; [apply Hts | exact Hg]]].
      assert (Hb : (0 <= ts / 60 <= inject_Z (k + 1))%Q).
      { rewrite inject_Z_plus. change (inject_Z 1) with 1%Q.
        split; [apply Qle_shift_div_l | apply Qle_shift_div_r]; lra. }
      apply (RN_limitado _ (k + 1)); [|exact Hb].
      unfold minuto, limite in *. lia. }
  destruct Hfacts as ([Hlo Hhi] & Htr & Hdn & Hex & Hin).
  (* the quotient *)
  assert (Hdiv : div (Qopp ts) 60%Q = Qopp (div ts 60%Q)).
  { unfold div. rewrite <- RN_opp. apply RN_comp. field. }
  assert (Htd : trunc (div (Qopp ts) 60%Q) = - k).
  { rewrite Hdiv. rewrite (trunc_neg _ (div ts 60%Q)); [|reflexivity | done].
    rewrite <- trunc_nonneg by done. by rewrite Htr. }
  rewrite Htd.
  (* the remainder *)
  assert (Htq : trunc (- ts / 60)%Q = - k).
  { rewrite (trunc_neg _ (ts / 60)%Q); [|field|].
    - f_equal. apply Qfloor_unique.
      split; [apply Qle_shift_div_l | apply Qlt_shift_div_r]; lra.
    - apply Qle_shift_div_l; lra. }
  assert (Hf : (fmod (Qopp ts) 60%Q == 60 * inject_Z k - ts)%Q).
  { unfold fmod. rewrite Htq, inject_Z_opp. ring. }
  unfold mod_. destruct (decide (r = 0)) as [->|Hr0].
  - rewrite Qeqb_true by (rewrite Hf, (Hex eq_refl); ring).
    simpl. lia.
  - destruct (Hin Hr0) as [Hgt Hg].
    rewrite Qeqb_false by (rewrite Hf; lra).
    rewrite (Qltb_false 60%Q 0%Q) by lra.
    rewrite (Qltb_true (fmod (Qopp ts) 60%Q) 0%Q) by (rewrite Hf; lra).
    simpl.
    rewrite Qltb_true.
    + replace (r =? 0) with false by (symmetry; apply Z.eqb_neq; exact Hr0).
      lia.
    + apply RN_positivo. rewrite Hf.
      eapply Qle_trans; [exact Hg|]. lra.
Qed.

(** X14.  An exit stamped before the entry, both timestamps naive or both
    offset-aware.  [calcular_tempo_permanencia] does not refuse a negative
    stay: with the exit less than [2^34] seconds before the entry, [int]
    truncates the negative quotient towards zero and the remainder of
    [%], which has the sign of sixty, still adds a minute.  The result is
    minus the whole minutes of the gap, plus one when the gap is not a
    whole number of minutes; so an exit stamped less than a minute before
    the entry counts as one minute, like an exit less than a minute after
    it. *)
Theorem tempo_permanencia_saida_antes_da_entrada self t_saida atraso :
  sub (timestamp_entrada self) t_saida = Some atraso ->
  0 < atraso < limite ->
  let minutos :=
    - (atraso / minuto) + (if atraso mod minuto =? 0 then 0 else 1) in
  calcular_tempo_permanencia self t_saida = Some minutos
  /\ (atraso < minuto -> calcular_tempo_permanencia self t_saida = Some 1)
  /\ minutos <= 1
  /\ (utcoffset (timestamp_entrada self) = None ->
      utcoffset t_saida = None ->
      atraso = relogio (timestamp_entrada self) - relogio t_saida).
Proof.
  intros Hsub Hd minutos.
  assert (Hinv : sub t_saida (timestamp_entrada self) = Some (- atraso)).
  { unfold sub in *.
    destruct (utcoffset t_saida), (utcoffset (timestamp_entrada self));
      simplify_eq; f_equal; lia. }
  assert (Hc : calcular_tempo_permanencia self t_saida = Some minutos).
  { rewrite (calcular_tempo_permanencia_delta _ _ _ Hinv). f_equal.
    rewrite minutos_do_delta_eq. cbv zeta.
    apply (tempo_negativo atraso (atraso / minuto) (atraso mod minuto)).
    - apply Z.div_pos; unfold minuto; lia.
    - apply Z.mod_pos_bound. unfold minuto. lia.
    - apply Z.div_mod. unfold minuto. lia.
    - exact Hd. }
  split; [exact Hc|].
  assert (H0 : 0 <= atraso / minuto)
    by (apply Z.div_pos; unfold minuto; lia).
  split; [|split].
  - intros Hlt. rewrite Hc. f_equal. unfold minutos.
    rewrite Z.div_small by lia.
    rewrite Z.mod_small by lia.
    replace (atraso =? 0) with false
      by (symmetry; apply Z.eqb_neq; lia).
    reflexivity.
  - unfold minutos. destruct (atraso mod minuto =? 0); lia.
  - intros Hne Hns. rewrite (sub_naive _ _ Hne Hns) in Hsub. congruence.
Qed.

Lemma tempo_permanencia_saida_antes_da_entrada_witness :
  sub (timestamp_entrada veiculo_ABC1234) (on_2024_01_01 9 59 30)
  = Some 30000000
  /\ 0 < 30000000 < limite
  /\ calcular_tempo_permanencia veiculo_ABC1234 (on_2024_01_01 9 59 30)
     = Some 1.
Proof.
  assert (Hs : sub (timestamp_entrada veiculo_ABC1234)
                 (on_2024_01_01 9 59 30) = Some 30000000) by reflexivity.
  assert (H : 0 < 30000000 < limite) by (vm_compute; split; reflexivity).
  split; [exact Hs|]. split; [exact H|].
  destruct (tempo_permanencia_saida_antes_da_entrada veiculo_ABC1234
              (on_2024_01_01 9 59 30) 30000000 Hs H) as (_ & H1 & _).
  apply H1. vm_compute. reflexivity.
Defined.

End mais_permanencia.

(* ===================================================================== *)
(** ** Properties of the dictionary forms *)
(* ===================================================================== *)

Section mais_dicionarios.
Import pytime evento servidor_central dicionarios exemplos.

Lemma StatusVeiculo_ida_e_volta s :
  StatusVeiculo_ (StatusVeiculo_value s) = inr s.
Proof. by destruct s. Qed.

Lemma StatusEvento_ida_e_volta s :
  StatusEvento_ (StatusEvento_value s) = inr s.
Proof. by destruct s. Qed.

Lemma TipoEvento_ida_e_volta t :
  TipoEvento_of_value (TipoEvento_value t) = Some t.
Proof. by destruct t. Qed.

(** X15.  [Veiculo.from_dict] undoes [Veiculo.to_dict]: for every vehicle,
    parked or gone, reading back its dictionary raises nothing and gives a
    vehicle with the same eight attributes. *)
Theorem Veiculo_ida_e_volta (v : veiculo.Veiculo) :
  Veiculo_from_dict (Veiculo_to_dict v) = inr v.
Proof.
  destruct v as [p te ts a vg st vc tp].
  unfold Veiculo_from_dict, Veiculo_to_dict. simpl.
  replace (ler_timestamp_saida (Some (iso <$> ts))) with
    (inr ts : ErroDict + option datetime) by (by destruct ts).
  simpl. rewrite StatusVeiculo_ida_e_volta. reflexivity.
Qed.

(** X16.  [Evento.from_dict] undoes [Evento.to_dict], for every event. *)
Theorem Evento_ida_e_volta (e : Evento) :
  Evento_from_dict (Evento_to_dict e) = inr e.
Proof.
  destruct e as [i p t ts c a s vc tp ed].
  unfold Evento_from_dict, Evento_to_dict, TipoEvento_dict. simpl.
  rewrite TipoEvento_ida_e_volta. simpl.
  rewrite StatusEvento_ida_e_volta. reflexivity.
Qed.

(** X17.  What the central server builds from the dictionary a lane sends.
    Of the ten keys of [to_dict] the server reads five: the event it
    processes has the plate, type, timestamp, confidence and floor of the
    lane's event, and a fresh status, no identifier, no value, no duration
    and no error text, whatever the lane's event carried there. *)
Theorem criar_evento_do_to_dict (e : Evento) :
  criar_evento (pedido_json (Evento_to_dict e)) =
    inr (evento.__init__ (placa e) (tipo e) (timestamp e) (confianca_lpr e)
           (andar e)).
Proof.
  destruct e as [i p t ts c a s vc tp ed]. by destruct t.
Qed.

End mais_dicionarios.

(* ===================================================================== *)
(** ** Further properties of the plate reader *)
(* ===================================================================== *)

Section mais_lpr.
Import lpr_service exemplos.

Lemma formato_canonico_aceito u placa confianca_minima :
  formato_canonico placa -> validar_placa u placa confianca_minima = true.
Proof.
  intros (Hl & Ha & Hd). unfold validar_placa.
  destruct (sete_caracteres placa Hl) as (Hp & Ht & Hd').
  rewrite (bool_decide_eq_false_2 _ Hp).
  rewrite (isalpha_forallb u _ Ht), (isdigit_forallb u _ Hd').
  apply Nat.eqb_eq in Hl. rewrite Hl. simpl.
  replace (forallb (char_isalpha u) (take 3 placa)) with true.
  - replace (forallb (char_isdigit u) (drop 3 placa)) with true; [done|].
    symmetry. apply forallb_forall. intros c Hc.
    apply digito_isdigit. revert c Hc. apply forallb_forall. exact Hd.
  - symmetry. apply forallb_forall. intros c Hc.
    apply maiuscula_isalpha. revert c Hc. apply forallb_forall. exact Ha.
Qed.

Lemma sorteio_de_letra i :
  (i < 26)%nat ->
  exists c, String.get i ascii_uppercase = Some c
            /\ letra_maiuscula_ascii (Ascii.N_of_ascii c) = true.
Proof.
  intros Hi.
  do 26 (destruct i as [|i]; [eexists; split; reflexivity|]). lia.
Qed.

Lemma sorteio_de_digito i :
  (i < 10)%nat ->
  exists c, String.get i digits = Some c
            /\ digito_ascii (Ascii.N_of_ascii c) = true.
Proof.
  intros Hi.
  do 10 (destruct i as [|i]; [eexists; split; reflexivity|]). lia.
Qed.

Lemma placas_simuladas_canonicas :
  Forall (fun placa => formato_canonico (ascii_str placa)) placas_simuladas.
Proof. repeat constructor. Qed.

Lemma _gerar_placa_aleatoria_canonica letras numeros :
  length letras = 3%nat -> Forall (fun i => (i < 26)%nat) letras ->
  length numeros = 4%nat -> Forall (fun i => (i < 10)%nat) numeros ->
  formato_canonico (ascii_str (_gerar_placa_aleatoria letras numeros)).
Proof.
  intros Hl Fl Hn Fn.
  destruct letras as [|l1 [|l2 [|l3 [|]]]]; try discriminate.
  destruct numeros as [|n1 [|n2 [|n3 [|n4 [|]]]]]; try discriminate.
  repeat match goal with H : Forall _ (_ :: _) |- _ =>
    let H' := fresh "B" in apply Forall_cons in H as [H' H] end.
  destruct (sorteio_de_letra l1) as (c1 & E1 & H1); [done|].
  destruct (sorteio_de_letra l2) as (c2 & E2 & H2); [done|].
  destruct (sorteio_de_letra l3) as (c3 & E3 & H3); [done|].
  destruct (sorteio_de_digito n1) as (d1 & F1 & G1); [done|].
  destruct (sorteio_de_digito n2) as (d2 & F2 & G2); [done|].
  destruct (sorteio_de_digito n3) as (d3 & F3 & G3); [done|].
  destruct (sorteio_de_digito n4) as (d4 & F4 & G4); [done|].
  unfold _gerar_placa_aleatoria, choices. cbn [omap list_omap].
  rewrite E1, E2, E3, F1, F2, F3, F4. simpl.
  unfold formato_canonico, ascii_str. simpl.
  rewrite H1, H2, H3, G1, G2, G3, G4. done.
Qed.

(** X18.  Every plate the LPR service captures, in either mode, passes its own
    validation.  Whatever the generator draws, a captured plate, a simulated
    one out of the list of ten or one made of three drawn letters and four
    drawn digits, is in the canonical format and [validar_placa] accepts it
    under every Unicode table and minimum confidence.  A capture in hardware
    mode always gives a plate. *)
Theorem placa_capturada_e_valida modo_simulacao s :
  sorteio_valido s ->
  (forall placa,
     (capturar_placa modo_simulacao s).1 = Some placa ->
     formato_canonico (ascii_str placa)
     /\ forall u confianca_minima,
          validar_placa u (ascii_str placa) confianca_minima = true)
  /\ (modo_simulacao = false ->
      is_Some (capturar_placa modo_simulacao s).1).
Proof.
  intros (Hi & Hl & Fl & Hn & Fn).
  assert (Hc : forall placa,
            (capturar_placa modo_simulacao s).1 = Some placa ->
            formato_canonico (ascii_str placa)).
  { intros placa Hp. unfold capturar_placa in Hp.
    destruct modo_simulacao.
    - unfold _simular_captura in Hp. destruct (acerto s); [|discriminate].
      simpl in Hp.
      pose proof placas_simuladas_canonicas as Hall.
      rewrite Forall_lookup in Hall. exact (Hall _ _ Hp).
    - simpl in Hp. injection Hp as <-.
      by apply _gerar_placa_aleatoria_canonica. }
  split.
  - intros placa Hp. split; [by apply Hc|].
    intros u cm. apply formato_canonico_aceito. by apply Hc.
  - intros ->. simpl. eauto.
Qed.

Lemma placa_capturada_e_valida_witness :
  sorteio_valido sorteio_exemplo
  /\ (capturar_placa false sorteio_exemplo).1 = Some "JKL3456"
  /\ validar_placa unicode_latin1 (ascii_str "JKL3456")
       (pyfloat.RN (7 # 10)) = true.
Proof.
  assert (Hs : sorteio_valido sorteio_exemplo).
  { unfold sorteio_valido. simpl. repeat split; try lia;
      repeat constructor; lia. }
  split; [exact Hs|]. split; [reflexivity|].
  destruct (placa_capturada_e_valida false sorteio_exemplo Hs) as [H _].
  destruct (H "JKL3456" eq_refl) as [_ Hv]. apply Hv.
Defined.

End mais_lpr.

(* ===================================================================== *)
(** ** Further properties of the slot board *)
(* ===================================================================== *)

Section mais_placar.
Import placar_service exemplos.

Lemma primeira_livre_seqZ (vs : gmap Z bool) (n : nat) : forall m,
  0 <= m ->
  (forall i, m <= i < m + Z.of_nat n -> is_Some (vs !! i)) ->
  let r := primeira_livre
             (omap
                (fun numero =>
                   (fun ocupada => (numero, ocupada)) <$> vs !! numero)
                (seqZ m (Z.of_nat n))) in
  (r = -1 /\ forall i, m <= i < m + Z.of_nat n -> vs !! i = Some true)
  \/ (m <= r < m + Z.of_nat n /\ vs !! r = Some false
      /\ forall i, m <= i < r -> vs !! i = Some true).
Proof.
  induction n as [|n IH]; intros m Hm Hk.
  - left. simpl. split; [done|]. intros i Hi. lia.
  - rewrite seqZ_cons by lia.
    replace (Z.pred (Z.of_nat (S n))) with (Z.of_nat n) by lia.
    cbn [omap list_omap].
    destruct (Hk m) as [b Hb]; [lia|]. rewrite Hb.
    cbn [fmap option_fmap option_map].
    cbn [primeira_livre]. destruct b; cbn [negb].
    + destruct (IH (Z.succ m)) as [[Hr Ha]|(Hr & Hf & Ha)]; [lia| |..].
      * intros i Hi. apply Hk. lia.
      * left. split; [exact Hr|]. intros i Hi.
        destruct (decide (i = m)) as [->|]; [done|]. apply Ha. lia.
      * right. split; [lia|]. split; [exact Hf|]. intros i Hi.
        destruct (decide (i = m)) as [->|]; [done|]. apply Ha. lia.
    + right. split; [lia|]. split; [done|]. intros i Hi. lia.
Qed.

Lemma encontrar_vaga_livre_spec self :
  chaves_intactas self ->
  let r := encontrar_vaga_livre self in
  (r = -1 /\ forall i, 0 <= i < total_vagas self -> vagas self !! i = Some true)
  \/ (0 <= r < total_vagas self /\ vagas self !! r = Some false
      /\ forall i, 0 <= i < r -> vagas self !! i = Some true).
Proof.
  intros Hk. unfold encontrar_vaga_livre, items.
  destruct (decide (0 <= total_vagas self)) as [Ht|Ht].
  - pose proof (primeira_livre_seqZ (vagas self)
                  (Z.to_nat (total_vagas self)) 0) as H.
    rewrite Z2Nat.id in H by done. simpl in H. apply H; [done|].
    intros i Hi. apply Hk. lia.
  - left. rewrite seqZ_nil by lia. simpl. split; [done|]. intros; lia.
Qed.

Lemma tamanho_das_vagas self :
  chaves_intactas self ->
  Z.of_nat (size (vagas self)) = Z.max 0 (total_vagas self).
Proof.
  intros Hk.
  assert (Hd : dom (vagas self) = list_to_set (seqZ 0 (total_vagas self))).
  { apply set_eq. intros i. rewrite elem_of_dom, elem_of_list_to_set,
      elem_of_seqZ. rewrite (Hk i). lia. }
  rewrite <- size_dom, Hd, size_list_to_set by apply NoDup_seqZ.
  rewrite length_seqZ. lia.
Qed.

Lemma livres_e_ocupadas (vs : gmap Z bool) :
  (size (filter (com_estado true) vs) + size (filter (com_estado false) vs)
   = size vs)%nat.
Proof.
  rewrite <- (map_filter_union_complement (com_estado true) vs) at 3.
  rewrite map_size_disj_union by apply map_disjoint_filter_complement.
  f_equal. f_equal. apply map_filter_ext. intros i b _.
  unfold com_estado. simpl. destruct b; split; congruence.
Qed.


Lemma vagas_livres_conta self :
  consistente self ->
  vagas_livres self =
    total_vagas self - Z.max 0 (total_vagas self)
    + Z.of_nat (size (filter (com_estado false) (vagas self))).
Proof.
  intros [Hk Hc]. rewrite n_ocupadas_size in Hc.
  pose proof (tamanho_das_vagas self Hk).
  pose proof (livres_e_ocupadas (vagas self)). lia.
Qed.

Lemma encontrar_vaga_livre_cheio self :
  consistente self -> 0 <= total_vagas self ->
  encontrar_vaga_livre self = -1 <-> vagas_livres self = 0.
Proof.
  intros Hc Ht. pose proof Hc as [Hk _].
  pose proof (vagas_livres_conta self Hc) as Hl.
  rewrite Z.max_r in Hl by done.
  destruct (encontrar_vaga_livre_spec self Hk) as [[Hr Ha]|(Hr & Hf & Ha)].
  - assert (He : filter (com_estado false) (vagas self) = ∅).
    { apply map_empty. intros i. apply map_lookup_filter_None. right.
      intros b Hb. assert (Hi : 0 <= i < total_vagas self)
        by (apply Hk; eauto).
      rewrite (Ha i Hi) in Hb. injection Hb as <-. by unfold com_estado. }
    rewrite He, map_size_empty in Hl. split; [lia | done].
  - assert (Hs : size (filter (com_estado false) (vagas self)) <> 0%nat).
    { intros H0. apply map_size_empty_iff in H0.
      assert (Hn : filter (com_estado false) (vagas self)
                     !! encontrar_vaga_livre self = Some false)
        by (apply map_lookup_filter_Some; split; [done | by unfold com_estado]).
      rewrite H0 in Hn. by rewrite lookup_empty in Hn. }
    split; lia.
Qed.

(** X19.  [encontrar_vaga_livre] scans the slots in ascending order.  On a
    board whose counter agrees with its flags it returns -1 exactly when
    the counter of free slots is 0; otherwise it returns the lowest free
    slot: the slot is in range and flagged free, every slot below it is
    occupied, [ocupar_vaga] on it succeeds and lowers the counter by one,
    and the next scan no longer returns it. *)
Theorem encontrar_vaga_livre_menor self :
  consistente self -> 0 <= total_vagas self ->
  let n := encontrar_vaga_livre self in
  (n = -1 <-> vagas_livres self = 0)
  /\ (n = -1 ->
      forall i, 0 <= i < total_vagas self -> vagas self !! i = Some true)
  /\ (n <> -1 ->
      0 <= n < total_vagas self
      /\ vagas self !! n = Some false
      /\ (forall i, 0 <= i < n -> vagas self !! i = Some true)
      /\ exists self',
           ocupar_vaga self n = Some (true, self')
           /\ vagas_livres self' = vagas_livres self - 1
           /\ consistente self'
           /\ encontrar_vaga_livre self' <> n).
Proof.
  intros Hc Ht n. pose proof Hc as [Hk _].
  pose proof (encontrar_vaga_livre_cheio self Hc Ht) as Hch. fold n in Hch.
  pose proof (encontrar_vaga_livre_spec self Hk) as Hsp.
  cbv zeta in Hsp. fold n in Hsp.
  split; [exact Hch|].
  destruct Hsp as [[Hr Ha]|(Hr & Hf & Ha)].
  - split; [done|]. intros Hn. done.
  - split; [intros; lia|]. intros _.
    split; [done|]. split; [done|]. split; [done|].
    destruct (ocupar_vaga_consistente self n Hc) as (b & s' & Ho & Hc' & _).
    unfold ocupar_vaga in Ho.
    replace ((n <? 0) || (n >=? total_vagas self)) with false in Ho
      by (symmetry; apply orb_false_iff; split; lia).
    rewrite Hf in Ho. injection Ho as <- <-.
    eexists. split.
    { unfold ocupar_vaga.
      replace ((n <? 0) || (n >=? total_vagas self)) with false
        by (symmetry; apply orb_false_iff; split; lia).
      rewrite Hf. reflexivity. }
    split; [reflexivity|]. split; [exact Hc'|].
    destruct Hc' as [Hk' _].
    destruct (encontrar_vaga_livre_spec _ Hk') as [[Hr' _]|(_ & Hf' & _)].
    + rewrite Hr'. lia.
    + intros E. rewrite E in Hf'. simpl in Hf'.
      rewrite lookup_insert_eq in Hf'. discriminate.
Qed.

Lemma encontrar_vaga_livre_menor_witness :
  consistente placar_com_vaga_0
  /\ encontrar_vaga_livre placar_com_vaga_0 = 1
  /\ vagas placar_com_vaga_0 !! 0 = Some true
  /\ vagas placar_com_vaga_0 !! 1 = Some false.
Proof.
  assert (Hc : consistente placar_com_vaga_0).
  { destruct (ocupar_vaga_consistente placar_novo 0
                (consistente_inicial 3 8 0 true)) as (b & s' & Ho & Hc & _).
    vm_compute in Ho. injection Ho as _ <-. exact Hc. }
  split; [exact Hc|].
  assert (Ht : 0 <= total_vagas placar_com_vaga_0)
    by (vm_compute; discriminate).
  destruct (encontrar_vaga_livre_menor placar_com_vaga_0 Hc Ht)
    as (_ & _ & H).
  assert (He : encontrar_vaga_livre placar_com_vaga_0 = 1)
    by (vm_compute; reflexivity).
  rewrite He in H. destruct H as (_ & Hf & Ha & _); [lia|].
  split; [exact He|]. split; [apply Ha; lia | exact Hf].
Defined.

(** X20.  Occupying a slot and then freeing it is a round trip.  When
    [ocupar_vaga] succeeds on a slot, a second [ocupar_vaga] on it is
    refused and changes nothing, and [liberar_vaga] on it succeeds and
    restores the flags and the counter; two display refreshes have been
    scheduled by then. *)
Theorem ocupar_e_liberar self n self1 :
  ocupar_vaga self n = Some (true, self1) ->
  ocupar_vaga self1 n = Some (false, self1)
  /\ exists self2,
       liberar_vaga self1 n = Some (true, self2)
       /\ vagas self2 = vagas self
       /\ vagas_livres self2 = vagas_livres self
       /\ total_vagas self2 = total_vagas self
       /\ atualizacoes_agendadas self2 = S (S (atualizacoes_agendadas self)).
Proof.
  unfold ocupar_vaga, liberar_vaga. intros Ho.
  destruct ((n <? 0) || (n >=? total_vagas self)) eqn:Hr; [by inversion Ho|].
  destruct (vagas self !! n) as [[|]|] eqn:Hn; try by inversion Ho.
  injection Ho as <-. simpl. rewrite Hr, lookup_insert_eq.
  split; [done|]. eexists. split; [reflexivity|]. simpl.
  split; [|split; [lia | done]].
  rewrite insert_insert_eq. by apply insert_id.
Qed.

Lemma ocupar_e_liberar_witness :
  ocupar_vaga placar_novo 0 = Some (true, placar_com_vaga_0)
  /\ exists self2,
       liberar_vaga placar_com_vaga_0 0 = Some (true, self2)
       /\ vagas self2 = vagas placar_novo
       /\ vagas_livres self2 = 8.
Proof.
  assert (Ho : ocupar_vaga placar_novo 0 = Some (true, placar_com_vaga_0))
    by (vm_compute; reflexivity).
  split; [exact Ho|].
  destruct (ocupar_e_liberar placar_novo 0 placar_com_vaga_0 Ho)
    as (_ & s2 & Hl & Hv & Hc & _).
  exists s2. split; [exact Hl|]. split; [exact Hv|]. exact Hc.
Defined.


Lemma numeros_com_estado_filter ocupada self :
  numeros_com_estado ocupada self =
    filter (fun i => vagas self !! i = Some ocupada)
      (seqZ 0 (total_vagas self)).
Proof.
  unfold numeros_com_estado, items.
  induction (seqZ 0 (total_vagas self)) as [|i l IH]; [done|].
  cbn [omap list_omap]. rewrite filter_cons.
  destruct (vagas self !! i) as [b|] eqn:Hb; cbn [fmap option_fmap option_map].
  - rewrite filter_cons. unfold com_estado at 1. simpl.
    destruct (decide (b = ocupada)) as [->|Hne].
    + rewrite decide_True by done. rewrite fmap_cons. simpl. by f_equal.
    + rewrite decide_False by congruence. exact IH.
  - rewrite decide_False by done. exact IH.
Qed.

Lemma numeros_com_estado_elem ocupada self i :
  chaves_intactas self ->
  i ∈ numeros_com_estado ocupada self <-> vagas self !! i = Some ocupada.
Proof.
  intros Hk. rewrite numeros_com_estado_filter, list_elem_of_filter,
    elem_of_seqZ.
  split; [tauto|]. intros H. split; [done|].
  assert (0 <= i < total_vagas self) by (apply Hk; eauto). lia.
Qed.

Lemma numeros_com_estado_length ocupada self :
  chaves_intactas self ->
  length (numeros_com_estado ocupada self) =
    size (filter (com_estado ocupada) (vagas self)).
Proof.
  intros Hk. rewrite <- length_map_to_list.
  rewrite <- (length_fmap fst (map_to_list _)).
  apply Permutation_length, NoDup_Permutation.
  - rewrite numeros_com_estado_filter. apply NoDup_filter, NoDup_seqZ.
  - apply NoDup_fst_map_to_list.
  - intros i. rewrite (numeros_com_estado_elem _ _ _ Hk).
    rewrite list_elem_of_fmap. split.
    + intros Hi. exists (i, ocupada). split; [done|].
      apply elem_of_map_to_list, map_lookup_filter_Some. by split.
    + intros ([j b] & -> & Hj). simpl.
      apply elem_of_map_to_list, map_lookup_filter_Some in Hj as [Hj Hb].
      unfold com_estado in Hb. simpl in Hb. by subst b.
Qed.

(** X21.  The statistics of a board whose counter agrees with its flags agree
    with each other.  [obter_estatisticas] raises [ZeroDivisionError]
    exactly on a board of no slots.  Otherwise the list of occupied numbers
    has as many entries as the occupied count, the list of free numbers as
    many as the free count, the two counts add up to the total, each list
    holds exactly the slots with that flag, the percentage lies between 0
    and 100, and the lot is reported full exactly when the list of free
    numbers is empty, which is when [encontrar_vaga_livre] returns -1. *)
Theorem obter_estatisticas_coerente self :
  consistente self -> 0 <= total_vagas self ->
  match obter_estatisticas self with
  | None => total_vagas self = 0
  | Some e =>
      0 < total_vagas self
      /\ e_total_vagas e = total_vagas self
      /\ Z.of_nat (length (e_vagas_ocupadas_numeros e)) = e_vagas_ocupadas e
      /\ Z.of_nat (length (e_vagas_livres_numeros e)) = e_vagas_livres e
      /\ e_vagas_ocupadas e + e_vagas_livres e = e_total_vagas e
      /\ (forall i, i ∈ e_vagas_ocupadas_numeros e <->
                    vagas self !! i = Some true)
      /\ (forall i, i ∈ e_vagas_livres_numeros e <->
                    vagas self !! i = Some false)
      /\ (0 <= e_percentual_ocupacao e <= 100)%Q
      /\ (e_estacionamento_cheio e = true <-> e_vagas_livres_numeros e = [])
      /\ (e_estacionamento_cheio e = true <-> encontrar_vaga_livre self = -1)
  end.
Proof.
  intros Hc Ht. pose proof Hc as [Hk Hn].
  unfold obter_estatisticas.
  destruct (total_vagas self =? 0) eqn:E0; [lia|]. simpl.
  pose proof (vagas_livres_conta self Hc) as Hl.
  rewrite Z.max_r in Hl by done.
  pose proof (numeros_com_estado_length true self Hk) as Lo.
  pose proof (numeros_com_estado_length false self Hk) as Ll.
  rewrite n_ocupadas_size in Hn.
  split; [lia|]. split; [done|]. split; [lia|]. split; [lia|].
  split; [lia|].
  split; [intros i; by apply numeros_com_estado_elem|].
  split; [intros i; by apply numeros_com_estado_elem|].
  split.
  { set (a := total_vagas self - vagas_livres self).
    assert (Ha : 0 <= a <= total_vagas self) by (unfold a; lia).
    assert (Hb : (0 < inject_Z (total_vagas self))%Q)
      by (apply inject_Z_pos; lia).
    assert (Hq : (0 <= inject_Z a / inject_Z (total_vagas self)
                  <= inject_Z 1)%Q).
    { change (inject_Z 1) with 1%Q. split.
      - apply Qle_shift_div_l; [done|]. rewrite Qmult_0_l.
        change 0%Q with (inject_Z 0). rewrite <- Zle_Qle. lia.
      - apply Qle_shift_div_r; [done|]. rewrite Qmult_1_l.
        rewrite <- Zle_Qle. lia. }
    pose proof (RN_limitado _ 1 ltac:(lia) Hq) as Hx.
    change (inject_Z 1) with 1%Q in Hx.
    unfold pyfloat.mul, pyfloat.int_truediv, pyfloat.of_int.
    set (x := pyfloat.RN (inject_Z a / inject_Z (total_vagas self))) in *.
    pose proof (RN_int 100 ltac:(lia)) as H100.
    change (inject_Z 100) with 100%Q in H100.
    assert (Hy : (0 <= x * pyfloat.RN 100 <= inject_Z 100)%Q).
    { change (inject_Z 100) with 100%Q. rewrite H100. lra. }
    pose proof (RN_limitado _ 100 ltac:(lia) Hy) as Hp.
    exact Hp. }
  assert (Hv : (vagas_livres self =? 0) = true <->
               numeros_com_estado false self = []).
  { rewrite Z.eqb_eq. split.
    - intros H0. apply length_zero_iff_nil. lia.
    - intros H0. rewrite H0 in Ll. simpl in Ll. lia. }
  split; [exact Hv|].
  rewrite Z.eqb_eq.
  pose proof (encontrar_vaga_livre_cheio self Hc Ht). tauto.
Qed.


Lemma placar_com_vaga_0_consistente : consistente placar_com_vaga_0.
Proof.
  destruct (ocupar_vaga_consistente placar_novo 0
              (consistente_inicial 3 8 0 true)) as (b & s' & Ho & Hc & _).
  vm_compute in Ho. injection Ho as _ <-. exact Hc.
Qed.

Lemma obter_estatisticas_coerente_witness :
  consistente placar_com_vaga_0
  /\ exists e,
       obter_estatisticas placar_com_vaga_0 = Some e
       /\ e_vagas_ocupadas_numeros e = [0]
       /\ e_vagas_ocupadas e = 1
       /\ e_vagas_livres e = 7
       /\ e_estacionamento_cheio e = false
       /\ (0 <= e_percentual_ocupacao e <= 100)%Q.
Proof.
  split; [exact placar_com_vaga_0_consistente|].
  pose proof (obter_estatisticas_coerente placar_com_vaga_0
                placar_com_vaga_0_consistente
                ltac:(vm_compute; discriminate)) as H.
  destruct (obter_estatisticas placar_com_vaga_0) as [e|] eqn:E;
    [|vm_compute in H; discriminate].
  exists e. split; [reflexivity|].
  destruct H as (_ & _ & _ & _ & _ & _ & _ & Hp & _).
  unfold obter_estatisticas in E.
  change (total_vagas placar_com_vaga_0 =? 0) with false in E.
  injection E as <-. simpl in *.
  repeat split; try reflexivity; apply Hp.
Defined.

Lemma laco_leitura_spec mudou (range : list Z) : forall vs,
  NoDup range ->
  (forall i, i ∈ range -> is_Some (vs !! i)) ->
  exists vs',
    laco_leitura mudou range vs = (vs', true)
    /\ forall i,
         vs' !! i =
           if bool_decide (i ∈ range) && mudou i
           then negb <$> vs !! i else vs !! i.
Proof.
  induction range as [|x l IH]; intros vs Hnd Hk.
  - exists vs. split; [done|]. intros i. done.
  - apply NoDup_cons in Hnd as [Hx Hnd]. cbn [laco_leitura].
    destruct (mudou x) eqn:Hm.
    + destruct (Hk x) as [b Hb]; [left|]. rewrite Hb.
      destruct (IH (<[x := negb b]> vs) Hnd) as (vs' & Hl & Hv).
      { intros i Hi. rewrite lookup_insert_is_Some'. right. apply Hk.
        by right. }
      exists vs'. split; [exact Hl|]. intros i. rewrite (Hv i).
      destruct (decide (i = x)) as [->|Hne].
      * rewrite (bool_decide_eq_false_2 _ Hx).
        rewrite bool_decide_eq_true_2 by left. rewrite Hm. simpl.
        by rewrite lookup_insert_eq, Hb.
      * rewrite lookup_insert_ne by done.
        replace (bool_decide (i ∈ x :: l)) with (bool_decide (i ∈ l));
          [done|].
        apply bool_decide_ext. rewrite elem_of_cons. tauto.
    + destruct (IH vs Hnd) as (vs' & Hl & Hv).
      { intros i Hi. apply Hk. by right. }
      exists vs'. split; [exact Hl|]. intros i. rewrite (Hv i).
      destruct (decide (i = x)) as [->|Hne].
      * rewrite (bool_decide_eq_false_2 _ Hx), Hm.
        by rewrite !andb_false_r.
      * replace (bool_decide (i ∈ x :: l)) with (bool_decide (i ∈ l));
          [done|].
        apply bool_decide_ext. rewrite elem_of_cons. tauto.
Qed.

Lemma ler_sensores_vagas_spec mudou self :
  chaves_intactas self ->
  exists vs',
    ler_sensores_vagas mudou self = (vs', true)
    /\ forall i,
         vs' !! i =
           if modo_simulacao self && mudou i
           then negb <$> vagas self !! i else vagas self !! i.
Proof.
  intros Hk. unfold ler_sensores_vagas. destruct (modo_simulacao self).
  - destruct (laco_leitura_spec mudou (seqZ 0 (total_vagas self))
                (vagas self)) as (vs' & Hl & Hv).
    + apply NoDup_seqZ.
    + intros i Hi. apply Hk. apply elem_of_seqZ in Hi. lia.
    + exists vs'. split; [exact Hl|]. intros i. rewrite (Hv i). simpl.
      destruct (bool_decide (i ∈ seqZ 0 (total_vagas self))) eqn:Hi;
        [done|]. simpl.
      apply bool_decide_eq_false in Hi. rewrite elem_of_seqZ in Hi.
      destruct (vagas self !! i) eqn:Hb; [|by destruct (mudou i)].
      exfalso. apply Hi. assert (0 <= i < total_vagas self); [|lia].
      apply Hk. eauto.
  - exists (vagas self). split; [done|]. intros i. done.
Qed.

Lemma leitura_consistente vs' self :
  chaves_intactas self -> 0 <= total_vagas self ->
  (forall i, is_Some (vs' !! i) <-> is_Some (vagas self !! i)) ->
  consistente
    (com_vagas vs' (Z.of_nat (size (filter (com_estado false) vs'))) self).
Proof.
  intros Hk Ht Hd.
  assert (Hk' : chaves_intactas
                  (com_vagas vs'
                     (Z.of_nat (size (filter (com_estado false) vs'))) self)).
  { intros i. simpl. by rewrite (Hd i), <- (Hk i). }
  split; [exact Hk'|]. rewrite n_ocupadas_size. simpl.
  pose proof (tamanho_das_vagas _ Hk') as Hs. simpl in Hs.
  pose proof (livres_e_ocupadas vs'). lia.
Qed.

Lemma leitura_mesmas_chaves mudou self (vs' : gmap Z bool) :
  (forall i,
     vs' !! i =
       if modo_simulacao self && mudou i
       then negb <$> vagas self !! i else vagas self !! i) ->
  forall i, is_Some (vs' !! i) <-> is_Some (vagas self !! i).
Proof.
  intros Hv i. rewrite (Hv i).
  destruct (modo_simulacao self && mudou i); [|done].
  by rewrite fmap_is_Some.
Qed.

(** The monitor's call on a board with its keys: it returns, and the board
    it leaves is consistent with the same number of slots. *)
Lemma atualizar_vagas_consistente mudou self :
  chaves_intactas self -> 0 <= total_vagas self ->
  exists mudancas self',
    atualizar_vagas mudou self = (Some mudancas, self')
    /\ consistente self'
    /\ total_vagas self' = total_vagas self.
Proof.
  intros Hk Ht. unfold atualizar_vagas.
  destruct (ler_sensores_vagas_spec mudou self Hk) as (vs' & -> & Hv).
  eexists _, _. split; [reflexivity|]. split; [|done].
  apply leitura_consistente; [done | done |].
  by apply (leitura_mesmas_chaves mudou).
Qed.

(** X22.  [atualizar_vagas] brings the counter back in line with the flags.
    On a board that still has the keys [__init__] gave it, whatever its
    counter says, the call does not raise; afterwards the counter of free
    slots is the number of flags that say free, so that the board is
    consistent.  In simulation mode each slot whose draw says so has its
    flag inverted and the others keep theirs; in hardware mode no flag
    changes.  The call returns [True] exactly when some flag changed. *)
Theorem atualizar_vagas_recompoe mudou self :
  chaves_intactas self -> 0 <= total_vagas self ->
  exists mudancas self',
    atualizar_vagas mudou self = (Some mudancas, self')
    /\ consistente self'
    /\ total_vagas self' = total_vagas self
    /\ atualizacoes_agendadas self' = atualizacoes_agendadas self
    /\ vagas_livres self'
       = Z.of_nat (size (filter (com_estado false) (vagas self')))
    /\ (forall i,
          vagas self' !! i =
            if modo_simulacao self && mudou i
            then negb <$> vagas self !! i else vagas self !! i)
    /\ (mudancas = true <->
        modo_simulacao self = true
        /\ exists i, 0 <= i < total_vagas self /\ mudou i = true).
Proof.
  intros Hk Ht. unfold atualizar_vagas.
  destruct (ler_sensores_vagas_spec mudou self Hk) as (vs' & -> & Hv).
  eexists _, _. split; [reflexivity|]. simpl.
  split.
  { apply leitura_consistente; [done | done |].
    by apply (leitura_mesmas_chaves mudou). }
  split; [done|]. split; [done|]. split; [done|]. split; [exact Hv|].
  rewrite bool_decide_eq_true. split.
  - intros Hne. destruct (modo_simulacao self) eqn:Hm.
    + split; [done|].
      destruct (decide (Exists (fun i => mudou i = true)
                          (seqZ 0 (total_vagas self)))) as [He|He].
      * apply Exists_exists in He as (i & Hi & Hmi).
        apply elem_of_seqZ in Hi. exists i. split; [lia | done].
      * exfalso. apply Hne. apply map_eq. intros i. rewrite (Hv i). simpl.
        destruct (mudou i) eqn:Hmi; [|done].
        destruct (vagas self !! i) eqn:Hb; [|done].
        exfalso. apply He. apply Exists_exists. exists i.
        split; [|done]. apply elem_of_seqZ.
        assert (0 <= i < total_vagas self); [|lia]. apply Hk. eauto.
    + exfalso. apply Hne. apply map_eq. intros i. by rewrite (Hv i).
  - intros (Hm & i & Hi & Hmi) E.
    pose proof (Hv i) as Hvi. rewrite Hm, Hmi, <- E in Hvi. simpl in Hvi.
    destruct (Hk i) as [_ Hs]. destruct (Hs Hi) as [b Hb].
    rewrite Hb in Hvi. simpl in Hvi. injection Hvi as Hvi. by destruct b.
Qed.

Lemma atualizar_vagas_recompoe_witness :
  chaves_intactas placar_dessincronizado
  /\ vagas_livres placar_dessincronizado = 3
  /\ exists self',
       atualizar_vagas (fun i => i =? 1) placar_dessincronizado
         = (Some true, self')
       /\ vagas_livres self' = 6
       /\ consistente self'.
Proof.
  assert (Hk : chaves_intactas placar_dessincronizado).
  { intros i. apply placar_com_vaga_0_consistente. }
  split; [exact Hk|]. split; [reflexivity|].
  destruct (atualizar_vagas_recompoe (fun i => i =? 1)
              placar_dessincronizado Hk ltac:(vm_compute; discriminate))
    as (m & s' & Ha & Hc & _).
  exists s'. vm_compute in Ha. injection Ha as <- <-.
  split; [reflexivity|]. split; [reflexivity | exact Hc].
Defined.

End mais_placar.

(* ===================================================================== *)
(** ** Properties of the gate *)
(* ===================================================================== *)

Section mais_cancela.
Import cancela_service.

Lemma ciclo_completo_status amb self :
  let r := ciclo_completo amb self in
  (status r.2 = FECHADA \/ status r.2 = ERRO)
  /\ (r.1 = true -> status r.2 = FECHADA)
  /\ tipo r.2 = tipo self
  /\ modo_simulacao r.2 = modo_simulacao self
  /\ sensor_presenca r.2 = sensor_presenca self.
Proof.
  unfold ciclo_completo, abrir_cancela, fechar_cancela, aguardar_passagem.
  destruct self as [t e m s sp sg ta], amb as [p a v f].
  destruct s, a, v, f; simpl; repeat split; auto; discriminate.
Qed.

(** X23.  A gate cycle never leaves the gate open.  From any gate status and
    whatever the surroundings do, after [ciclo_completo] the gate is closed
    or in error.  The cycle returns [True] exactly when the gate was
    already open or its opening worked, the vehicle passed, and the closing
    worked; the gate is then closed.  It ends in error exactly when an
    actuation failed: the opening, or the closing after the opening worked.
    A vehicle that does not pass makes the cycle return [False] with the
    gate closed again. *)
Theorem ciclo_completo_nunca_deixa_aberta amb self :
  let r := ciclo_completo amb self in
  let abriu := status self = ABERTA \/ abertura_ok amb = true in
  (status r.2 = FECHADA \/ status r.2 = ERRO)
  /\ (r.1 = true <->
      abriu /\ veiculo_passou amb = true /\ fechamento_ok amb = true)
  /\ (r.1 = true -> status r.2 = FECHADA)
  /\ (status r.2 = ERRO <-> ~ abriu \/ fechamento_ok amb = false)
  /\ (abriu -> veiculo_passou amb = false -> fechamento_ok amb = true ->
      r.1 = false /\ status r.2 = FECHADA)
  /\ set_status (status self) r.2 = self.
Proof.
  unfold ciclo_completo, abrir_cancela, fechar_cancela, aguardar_passagem.
  destruct self as [t e m s sp sg ta], amb as [p a v f].
  destruct s, a, v, f; simpl; repeat split; auto; try discriminate;
    intros; try tauto; try discriminate;
    try (intuition discriminate).
Qed.

End mais_cancela.

(* ===================================================================== *)
(** ** Properties of the ground-floor server *)
(* ===================================================================== *)

Section mais_terreo.
Import placar_service cancela_service servidor_terreo exemplos.

Lemma primeira_ocupada_seqZ (vs : gmap Z bool) (n : nat) : forall m,
  (forall i, m <= i < m + Z.of_nat n -> is_Some (vs !! i)) ->
  (primeira_ocupada vs (seqZ m (Z.of_nat n)) = Some None
   /\ forall i, m <= i < m + Z.of_nat n -> vs !! i = Some false)
  \/ (exists r, primeira_ocupada vs (seqZ m (Z.of_nat n)) = Some (Some r)
      /\ m <= r < m + Z.of_nat n /\ vs !! r = Some true
      /\ forall i, m <= i < r -> vs !! i = Some false).
Proof.
  induction n as [|n IH]; intros m Hk.
  - left. simpl. split; [done|]. intros i Hi. lia.
  - rewrite seqZ_cons by lia.
    replace (Z.pred (Z.of_nat (S n))) with (Z.of_nat n) by lia.
    cbn [primeira_ocupada].
    destruct (Hk m) as [b Hb]; [lia|]. rewrite Hb. destruct b.
    + right. exists m. split; [done|]. split; [lia|]. split; [done|].
      intros i Hi. lia.
    + destruct (IH (Z.succ m)) as [[Hr Ha]|(r & Hr & Hi & Hf & Ha)].
      * intros i Hi. apply Hk. lia.
      * left. split; [exact Hr|]. intros i Hi.
        destruct (decide (i = m)) as [->|]; [done|]. apply Ha. lia.
      * right. exists r. split; [exact Hr|]. split; [lia|].
        split; [exact Hf|]. intros i Hi'.
        destruct (decide (i = m)) as [->|]; [done|]. apply Ha. lia.
Qed.

Lemma vagas_livres_limites p :
  consistente p -> 0 <= total_vagas p ->
  0 <= vagas_livres p <= total_vagas p.
Proof.
  intros Hc Ht. pose proof (vagas_livres_conta p Hc) as Hl.
  rewrite Z.max_r in Hl by done. destruct Hc as [Hk Hn].
  rewrite n_ocupadas_size in Hn. lia.
Qed.

Lemma marcar_vaga_ocupada_spec p :
  consistente p -> 0 <= total_vagas p ->
  exists p',
    marcar_vaga_ocupada p = Some p'
    /\ consistente p'
    /\ total_vagas p' = total_vagas p
    /\ vagas_livres p' = Z.max 0 (vagas_livres p - 1)
    /\ (vagas_livres p = 0 -> p' = p)
    /\ (0 < vagas_livres p ->
        exists n, encontrar_vaga_livre p = n
                  /\ vagas p !! n = Some false
                  /\ (forall i, 0 <= i < n -> vagas p !! i = Some true)
                  /\ vagas p' = <[n := true]> (vagas p)).
Proof.
  intros Hc Ht. pose proof Hc as [Hk _].
  pose proof (vagas_livres_limites p Hc Ht) as Hlim.
  pose proof (encontrar_vaga_livre_cheio p Hc Ht) as Hch.
  unfold marcar_vaga_ocupada.
  destruct (encontrar_vaga_livre_spec p Hk) as [[Hr Ha]|(Hr & Hf & Ha)].
  - rewrite Hr. simpl. exists p.
    assert (vagas_livres p = 0) by tauto.
    split; [done|]. split; [done|]. split; [done|]. split; [lia|].
    split; [done|]. intros; lia.
  - assert (Hne : encontrar_vaga_livre p <> -1) by lia.
    assert (vagas_livres p <> 0) by tauto.
    replace (encontrar_vaga_livre p =? -1) with false
      by (symmetry; apply Z.eqb_neq; exact Hne).
    destruct (ocupar_vaga_consistente p (encontrar_vaga_livre p) Hc)
      as (b & s' & Ho & Hc' & _).
    rewrite Ho. exists s'. split; [done|]. split; [exact Hc'|].
    unfold ocupar_vaga in Ho.
    replace ((encontrar_vaga_livre p <? 0)
             || (encontrar_vaga_livre p >=? total_vagas p)) with false in Ho
      by (symmetry; apply orb_false_iff; split; lia).
    rewrite Hf in Ho. injection Ho as <- <-. simpl.
    split; [done|]. split; [lia|]. split; [intros; lia|].
    intros _. exists (encontrar_vaga_livre p). done.
Qed.

Lemma liberar_vaga_ocupada_spec p :
  consistente p -> 0 <= total_vagas p ->
  exists p',
    liberar_vaga_ocupada p = Some p'
    /\ consistente p'
    /\ total_vagas p' = total_vagas p
    /\ vagas_livres p' = Z.min (total_vagas p) (vagas_livres p + 1)
    /\ (vagas_livres p = total_vagas p -> p' = p)
    /\ (vagas_livres p < total_vagas p ->
        exists n, vagas p !! n = Some true
                  /\ (forall i, 0 <= i < n -> vagas p !! i = Some false)
                  /\ vagas p' = <[n := false]> (vagas p)).
Proof.
  intros Hc Ht. pose proof Hc as [Hk Hn].
  pose proof (vagas_livres_limites p Hc Ht) as Hlim.
  pose proof (vagas_livres_conta p Hc) as Hl.
  rewrite Z.max_r in Hl by done.
  unfold liberar_vaga_ocupada.
  pose proof (primeira_ocupada_seqZ (vagas p) (Z.to_nat (total_vagas p)) 0)
    as H.
  rewrite Z2Nat.id in H by done.
  destruct H as [[Hr Ha]|(r & Hr & Hi & Hf & Ha)].
  - intros i Hi. apply Hk. lia.
  - rewrite Hr. exists p.
    assert (He : filter (com_estado true) (vagas p) = ∅).
    { apply map_empty. intros i. apply map_lookup_filter_None. right.
      intros b Hb. assert (Hi : 0 <= i < total_vagas p)
        by (apply Hk; eauto).
      rewrite (Ha i) in Hb by lia. injection Hb as <-.
      by unfold com_estado. }
    rewrite n_ocupadas_size, He, map_size_empty in Hn.
    split; [done|]. split; [done|]. split; [done|]. split; [lia|].
    split; [done|]. intros; lia.
  - rewrite Hr.
    assert (Hs : size (filter (com_estado true) (vagas p)) <> 0%nat).
    { intros H0. apply map_size_empty_iff in H0.
      assert (Hx : filter (com_estado true) (vagas p) !! r = Some true)
        by (apply map_lookup_filter_Some; split; [done | by unfold com_estado]).
      rewrite H0 in Hx. by rewrite lookup_empty in Hx. }
    rewrite n_ocupadas_size in Hn.
    destruct (liberar_vaga_consistente p r Hc) as (b & s' & Ho & Hc' & _).
    rewrite Ho. exists s'. split; [done|]. split; [exact Hc'|].
    unfold liberar_vaga in Ho.
    replace ((r <? 0) || (r >=? total_vagas p)) with false in Ho
      by (symmetry; apply orb_false_iff; split; lia).
    rewrite Hf in Ho. injection Ho as <- <-. simpl.
    split; [done|]. split; [lia|]. split; [intros; lia|].
    intros _. exists r. split; [done|]. split; [|done].
    intros i Hi'. apply Ha. lia.
Qed.


(** X24.  The slot the lane marks.  On a consistent board, the marking at the
    end of a granted entry takes the lowest free slot and lowers the
    counter by one, and on a full board it changes nothing; the marking at
    the end of a granted exit frees the lowest occupied slot, whichever
    vehicle left, and on an empty board it changes nothing.  Neither raises,
    both leave the board consistent, and the counter stays between 0 and
    the total. *)
Theorem vaga_marcada_pelo_terreo p :
  consistente p -> 0 <= total_vagas p ->
  0 <= vagas_livres p <= total_vagas p
  /\ (exists p',
        marcar_vaga_ocupada p = Some p'
        /\ consistente p'
        /\ vagas_livres p' = Z.max 0 (vagas_livres p - 1)
        /\ (vagas_livres p = 0 -> p' = p)
        /\ (0 < vagas_livres p ->
            exists n, encontrar_vaga_livre p = n
                      /\ vagas p !! n = Some false
                      /\ (forall i, 0 <= i < n -> vagas p !! i = Some true)
                      /\ vagas p' = <[n := true]> (vagas p)))
  /\ (exists p',
        liberar_vaga_ocupada p = Some p'
        /\ consistente p'
        /\ vagas_livres p' = Z.min (total_vagas p) (vagas_livres p + 1)
        /\ (vagas_livres p = total_vagas p -> p' = p)
        /\ (vagas_livres p < total_vagas p ->
            exists n, vagas p !! n = Some true
                      /\ (forall i, 0 <= i < n -> vagas p !! i = Some false)
                      /\ vagas p' = <[n := false]> (vagas p))).
Proof.
  intros Hc Ht. split; [by apply vagas_livres_limites|]. split.
  - destruct (marcar_vaga_ocupada_spec p Hc Ht)
      as (p' & H1 & H2 & _ & H3 & H4 & H5).
    exists p'. auto.
  - destruct (liberar_vaga_ocupada_spec p Hc Ht)
      as (p' & H1 & H2 & _ & H3 & H4 & H5).
    exists p'. auto.
Qed.

Lemma vaga_marcada_pelo_terreo_witness :
  consistente placar_com_vaga_0
  /\ (exists p', marcar_vaga_ocupada placar_com_vaga_0 = Some p'
                 /\ vagas_livres p' = 6
                 /\ vagas p' !! 1 = Some true)
  /\ (exists p', liberar_vaga_ocupada placar_com_vaga_0 = Some p'
                 /\ vagas_livres p' = 8
                 /\ vagas p' !! 0 = Some false).
Proof.
  split; [exact placar_com_vaga_0_consistente|].
  destruct (vaga_marcada_pelo_terreo placar_com_vaga_0
              placar_com_vaga_0_consistente
              ltac:(vm_compute; discriminate))
    as (_ & (p1 & M1 & _ & L1 & _) & (p2 & M2 & _ & L2 & _)).
  split.
  - exists p1. split; [exact M1|]. split; [exact L1|].
    vm_compute in M1. injection M1 as <-. reflexivity.
  - exists p2. split; [exact M2|]. split; [exact L2|].
    vm_compute in M2. injection M2 as <-. reflexivity.
Defined.

Lemma placa_aceita_Some amb self placa :
  placa_aceita amb self = Some placa ->
  (captura amb).1 = Some placa
  /\ placa <> ""
  /\ pyfloat.Qltb (captura amb).2 (lpr_confidence_min self) = false
  /\ lpr_service.validar_placa (unicode amb) (lpr_service.ascii_str placa)
       (pyfloat.RN (7 # 10)) = true.
Proof.
  unfold placa_aceita. destruct (captura amb).1 as [p|]; [|discriminate].
  destruct (String.eqb p "") eqn:He; [discriminate|].
  destruct (pyfloat.Qltb _ _) eqn:Hc; [discriminate|]. simpl.
  destruct (lpr_service.validar_placa _ _ _) eqn:Hv; [|discriminate].
  intros [= <-]. apply String.eqb_neq in He. done.
Qed.

Ltac abrir_fluxo :=
  repeat match goal with
  | |- context [match placa_aceita ?a ?s with _ => _ end] =>
      let E := fresh "Hplaca" in destruct (placa_aceita a s) eqn:E
  | |- context [match _enviar_evento_central ?a ?e with _ => _ end] =>
      let E := fresh "Hresp" in
      destruct (_enviar_evento_central a e) as [|[?|]] eqn:E
  | |- context [negb (evento.sucesso ?r)] =>
      let E := fresh "Hsuc" in destruct (evento.sucesso r) eqn:E; cbn [negb]
  | |- context [match evento.acao ?r with _ => _ end] =>
      let E := fresh "Hacao" in destruct (evento.acao r) eqn:E
  | |- context [match evento.valor ?r with _ => _ end] =>
      let E := fresh "Hvalor" in destruct (evento.valor r) eqn:E
  | |- context [ciclo_completo ?a ?c] =>
      let E := fresh "Hciclo" in destruct (ciclo_completo a c) as [[|] ?] eqn:E
  | |- context [match marcar_vaga_ocupada ?p with _ => _ end] =>
      let E := fresh "Hvaga" in destruct (marcar_vaga_ocupada p) eqn:E
  | |- context [match liberar_vaga_ocupada ?p with _ => _ end] =>
      let E := fresh "Hvaga" in destruct (liberar_vaga_ocupada p) eqn:E
  end.

(** X25.  The lane sends only validated plates.  In both flows an event goes to
    the central server only for a captured plate that is not empty, whose
    confidence is not below the lane's minimum and that [validar_placa]
    accepts; the event carries that plate, the captured confidence, the
    ground floor and the current time, and the central server rebuilds
    exactly that event from its dictionary.  Otherwise nothing is sent, the
    lane goes to its error state and its gates and board are untouched. *)
Theorem terreo_so_envia_placa_valida amb self :
  let e := _processar_entrada amb self in
  let s := _processar_saida amb self in
  (forall ev,
     enviado e.2 = Some ev \/ enviado s.2 = Some ev ->
     exists placa,
       evento.placa ev = evento.str placa
       /\ (captura amb).1 = Some placa
       /\ placa <> ""
       /\ pyfloat.Qltb (captura amb).2 (lpr_confidence_min self) = false
       /\ lpr_service.validar_placa (unicode amb)
            (lpr_service.ascii_str placa) (pyfloat.RN (7 # 10))
          = true
       /\ evento.confianca_lpr ev = (captura amb).2
       /\ evento.andar ev = "terreo"
       /\ evento.timestamp ev = pytime.naive (agora amb)
       /\ servidor_central.criar_evento
            (dicionarios.pedido_json (dicionarios.Evento_to_dict ev))
          = inr ev)
  /\ (forall ev, enviado e.2 = Some ev -> evento.tipo ev = evento.ENTRADA)
  /\ (forall ev, enviado s.2 = Some ev -> evento.tipo ev = evento.SAIDA)
  /\ (enviado e.2 = None <-> placa_aceita amb self = None)
  /\ (enviado s.2 = None <-> placa_aceita amb self = None)
  /\ (placa_aceita amb self = None ->
      e = (set_estado_entrada ERRO self,
           {| estados := [CAPTURANDO_PLACA; ERRO];
              enviado := None;
              retornou := true |})
      /\ s = (set_estado_saida ERRO self,
              {| estados := [CAPTURANDO_PLACA; ERRO];
                 enviado := None;
                 retornou := true |})).
Proof.
  intros e s.
  assert (He : enviado e.2 =
               (fun placa =>
                  evento.__init__ (evento.str placa) evento.ENTRADA
                    (pytime.naive (agora amb)) (captura amb).2 "terreo")
               <$> placa_aceita amb self).
  { unfold e, _processar_entrada. abrir_fluxo; reflexivity. }
  assert (Hs : enviado s.2 =
               (fun placa =>
                  evento.__init__ (evento.str placa) evento.SAIDA
                    (pytime.naive (agora amb)) (captura amb).2 "terreo")
               <$> placa_aceita amb self).
  { unfold s, _processar_saida. abrir_fluxo; reflexivity. }
  rewrite He, Hs.
  destruct (placa_aceita amb self) as [placa|] eqn:Hp; simpl.
  - destruct (placa_aceita_Some _ _ _ Hp) as (H1 & H2 & H3 & H4).
    split; [|repeat split; intros; simplify_eq; done].
    intros ev [[= <-]|[= <-]]; exists placa; simpl; repeat split; auto.
  - split; [intros ev [?|?]; discriminate|].
    repeat split; try discriminate.
    + unfold e, _processar_entrada. by rewrite Hp.
    + unfold s, _processar_saida. by rewrite Hp.
Qed.

Ltac pertence :=
  repeat first
    [ rewrite elem_of_cons in *
    | rewrite elem_of_nil in * ].

Ltac fecha_fluxo :=
  simpl; repeat split; intros;
  repeat match goal with
  | H : exists _, _ |- _ => destruct H
  | H : _ /\ _ |- _ => destruct H
  end;
  simplify_eq;
  try match goal with
      | H : _enviar_evento_central _ _ = _ |- _ => rewrite H
      end;
  intros; try done; try tauto; try congruence;
  try (exfalso; match goal with H : ~ _ |- _ => apply H; by eauto 10 end).

(** X26.  The entry gate is operated only on a grant.  [_processar_entrada]
    starts the gate cycle exactly when an event was sent and the reply says
    success with the action of opening the gate.  With no reply ([None]),
    or with a reply that says no success, the lane ends in its error state
    with the gate and the board untouched.  When the call to the central
    server never returns, neither does [_processar_entrada]: the lane
    stays in the state of sending, the last one it assigned, with the gate
    and the board untouched.  The board changes only after a gate cycle
    that succeeded, the exit gate and the exit machine are never touched,
    and a call that returns ends in the waiting state or the error state,
    the last one it assigned. *)
Theorem cancela_de_entrada_so_abre_autorizada amb self :
  let r := _processar_entrada amb self in
  let autorizada :=
    exists ev resp,
      enviado r.2 = Some ev
      /\ _enviar_evento_central amb ev = devolve (Some resp)
      /\ evento.sucesso resp = true
      /\ evento.acao resp = evento.abrir_cancela in
  let ciclo := ciclo_completo (cancela amb) (cancela_entrada self) in
  (ABRINDO_CANCELA ∈ estados r.2 <-> autorizada)
  /\ (autorizada -> cancela_entrada r.1 = ciclo.2)
  /\ (~ autorizada ->
      cancela_entrada r.1 = cancela_entrada self
      /\ placar_service r.1 = placar_service self)
  /\ (placar_service r.1 <> placar_service self -> ciclo.1 = true)
  /\ (autorizada -> ciclo.1 = false -> estado_entrada r.1 = ERRO)
  /\ (forall ev,
        enviado r.2 = Some ev ->
        match _enviar_evento_central amb ev with
        | sem_retorno =>
            retornou r.2 = false
            /\ estado_entrada r.1 = ENVIANDO_CENTRAL
            /\ estados r.2 = [CAPTURANDO_PLACA; ENVIANDO_CENTRAL]
        | devolve None => estado_entrada r.1 = ERRO
        | devolve (Some resp) =>
            evento.sucesso resp = false -> estado_entrada r.1 = ERRO
        end)
  /\ cancela_saida r.1 = cancela_saida self
  /\ estado_saida r.1 = estado_saida self
  /\ (retornou r.2 = false <->
      exists ev,
        enviado r.2 = Some ev
        /\ _enviar_evento_central amb ev = sem_retorno)
  /\ (retornou r.2 = true ->
      estado_entrada r.1 = AGUARDANDO \/ estado_entrada r.1 = ERRO)
  /\ (retornou r.2 = false -> estado_entrada r.1 = ENVIANDO_CENTRAL)
  /\ last (estados r.2) = Some (estado_entrada r.1).
Proof.
  cbv zeta. unfold _processar_entrada.
  abrir_fluxo; simpl; rewrite ?Hciclo; simpl.
  all: split; [pertence; split;
               [first [ by (intros _; do 2 eexists; repeat split;
                                first [eassumption | reflexivity | eauto])
                      | by (intros H;
                            repeat (destruct H as [H|H]; try discriminate)) ]
               |intros (? & ? & ? & ? & ? & ?); simplify_eq; auto]|].
  all: fecha_fluxo.
  all: try (eexists; split; [reflexivity | eassumption]).
Qed.


Lemma _processar_entrada_invariante amb self :
  invariante self -> invariante (_processar_entrada amb self).1.
Proof.
  intros (He & Hs & Ce & Cs & Hp & Ht).
  pose proof (ciclo_completo_status (cancela amb) (cancela_entrada self))
    as (Hc & _).
  destruct (marcar_vaga_ocupada_spec _ Hp Ht) as (p' & Hm & Hp' & Ht' & _).
  unfold _processar_entrada.
  abrir_fluxo; simpl in *; rewrite ?Hciclo in *; simpl in *;
    simplify_eq; unfold invariante, estado_entre_turnos, estado_de_laco;
    simpl;
    (split; [|split; [|split; [|split; [|split]]]]); auto 10; try lia.
Qed.

Lemma _processar_saida_invariante amb self :
  invariante self -> invariante (_processar_saida amb self).1.
Proof.
  intros (He & Hs & Ce & Cs & Hp & Ht).
  pose proof (ciclo_completo_status (cancela amb) (cancela_saida self))
    as (Hc & _).
  destruct (liberar_vaga_ocupada_spec _ Hp Ht) as (p' & Hm & Hp' & Ht' & _).
  unfold _processar_saida.
  abrir_fluxo; simpl in *; rewrite ?Hciclo in *; simpl in *;
    simplify_eq; unfold invariante, estado_entre_turnos, estado_de_laco;
    simpl;
    (split; [|split; [|split; [|split; [|split]]]]); auto 10; try lia.
Qed.

Lemma turno_invariante self t : invariante self -> invariante (turno self t).
Proof.
  intros Hi. destruct t as [amb|amb|mudou]; simpl.
  - unfold iteracao_entrada.
    destruct (estado_entrada self) eqn:E;
      try exact Hi; [| by apply _processar_entrada_invariante |].
    + destruct Hi as (He & Hs & Ce & Cs & Hp & Ht).
      unfold _aguardar_veiculo_entrada, detectar_presenca.
      destruct (cancela_service.modo_simulacao (cancela_entrada self));
        [destruct (presenca_sorteada (cancela amb))|];
        unfold invariante, estado_entre_turnos, estado_de_laco; simpl;
        rewrite ?E; auto 10.
    + destruct Hi as (He & Hs & Ce & Cs & Hp & Ht).
      unfold invariante, estado_entre_turnos, estado_de_laco; simpl;
        auto 10.
  - unfold iteracao_saida.
    destruct (estado_saida self) eqn:E;
      try exact Hi; [| by apply _processar_saida_invariante |].
    + destruct Hi as (He & Hs & Ce & Cs & Hp & Ht).
      unfold _aguardar_veiculo_saida, detectar_presenca.
      destruct (cancela_service.modo_simulacao (cancela_saida self));
        [destruct (presenca_sorteada (cancela amb))|];
        unfold invariante, estado_entre_turnos, estado_de_laco; simpl;
        rewrite ?E; auto 10.
    + destruct Hi as (He & Hs & Ce & Cs & Hp & Ht).
      unfold invariante, estado_entre_turnos, estado_de_laco; simpl;
        auto 10.
  - destruct Hi as (He & Hs & Ce & Cs & Hp & Ht).
    pose proof Hp as [Hk _].
    destruct (atualizar_vagas_consistente mudou (placar_service self))
      as (m & p' & Ha & Hc' & Ht'); [exact Hk | done |].
    unfold iteracao_vagas. rewrite Ha.
    unfold invariante; simpl. rewrite Ht'. auto 10.
Qed.

Lemma inicial_invariante modo ee es ep cmin total ei :
  0 <= total ->
  invariante (servidor_terreo.__init__ modo ee es ep cmin total ei).
Proof.
  intros Ht.
  unfold invariante, estado_entre_turnos, estado_de_laco,
    cancela_em_repouso. simpl.
  (split; [|split; [|split; [|split; [|split]]]]); auto.
  apply consistente_inicial.
Qed.

Lemma executar_invariante self turnos :
  invariante self -> invariante (executar self turnos).
Proof.
  unfold executar. revert self.
  induction turnos as [|t ts IH]; intros self Hi; [done|].
  simpl. apply IH. by apply turno_invariante.
Qed.

Lemma turno_hardware ee es ep cmin total ei t :
  0 <= total ->
  turno (servidor_terreo.__init__ false ee es ep cmin total ei) t
  = servidor_terreo.__init__ false ee es ep cmin total ei.
Proof.
  intros Ht. destruct t as [amb|amb|mudou]; try reflexivity.
  simpl. unfold iteracao_vagas, atualizar_vagas, ler_sensores_vagas. simpl.
  pose proof (vagas_livres_conta _ (consistente_inicial ep total ei false))
    as Hl.
  simpl in Hl. rewrite Z.max_r in Hl by done.
  unfold set_placar_service, com_vagas, servidor_terreo.__init__,
    placar_service.__init__. simpl. do 2 f_equal. lia.
Qed.

(** Each flow writes the state and the gate of its own machine only, and
    ends in a state of the top of the loop when the central server
    returns. *)
Lemma _processar_entrada_alheio amb self :
  estado_saida (_processar_entrada amb self).1 = estado_saida self
  /\ cancela_saida (_processar_entrada amb self).1 = cancela_saida self.
Proof. unfold _processar_entrada. abrir_fluxo; done. Qed.

Lemma _processar_saida_alheio amb self :
  estado_entrada (_processar_saida amb self).1 = estado_entrada self
  /\ cancela_entrada (_processar_saida amb self).1 = cancela_entrada self.
Proof. unfold _processar_saida. abrir_fluxo; done. Qed.

Lemma _processar_entrada_retorna amb self :
  (forall ev, _enviar_evento_central amb ev <> sem_retorno) ->
  estado_de_laco (estado_entrada (_processar_entrada amb self).1).
Proof.
  intros Hr. unfold _processar_entrada, estado_de_laco.
  abrir_fluxo; simpl; auto.
  all: by destruct (Hr _ Hresp).
Qed.

Lemma _processar_saida_retorna amb self :
  (forall ev, _enviar_evento_central amb ev <> sem_retorno) ->
  estado_de_laco (estado_saida (_processar_saida amb self).1).
Proof.
  intros Hr. unfold _processar_saida, estado_de_laco.
  abrir_fluxo; simpl; auto.
  all: by destruct (Hr _ Hresp).
Qed.

Lemma turno_estados self t :
  match t with
  | turno_entrada _ =>
      estado_saida (turno self t) = estado_saida self
      /\ cancela_saida (turno self t) = cancela_saida self
  | turno_saida _ =>
      estado_entrada (turno self t) = estado_entrada self
      /\ cancela_entrada (turno self t) = cancela_entrada self
  | turno_vagas _ =>
      estado_entrada (turno self t) = estado_entrada self
      /\ estado_saida (turno self t) = estado_saida self
  end
  /\ (estado_entrada self = ENVIANDO_CENTRAL ->
      estado_entrada (turno self t) = ENVIANDO_CENTRAL
      /\ cancela_entrada (turno self t) = cancela_entrada self)
  /\ (estado_saida self = ENVIANDO_CENTRAL ->
      estado_saida (turno self t) = ENVIANDO_CENTRAL
      /\ cancela_saida (turno self t) = cancela_saida self).
Proof.
  assert (He : forall amb,
            estado_saida (iteracao_entrada amb self) = estado_saida self
            /\ cancela_saida (iteracao_entrada amb self)
               = cancela_saida self).
  { intros amb. unfold iteracao_entrada.
    destruct (estado_entrada self); try done.
    - unfold _aguardar_veiculo_entrada.
      destruct (detectar_presenca _ _) as [[|] c]; done.
    - apply _processar_entrada_alheio. }
  assert (Hs : forall amb,
            estado_entrada (iteracao_saida amb self) = estado_entrada self
            /\ cancela_entrada (iteracao_saida amb self)
               = cancela_entrada self).
  { intros amb. unfold iteracao_saida.
    destruct (estado_saida self); try done.
    - unfold _aguardar_veiculo_saida.
      destruct (detectar_presenca _ _) as [[|] c]; done.
    - apply _processar_saida_alheio. }
  destruct t as [amb|amb|mudou]; simpl.
  - split; [apply He|]. split.
    + intros E. unfold iteracao_entrada. by rewrite E.
    + intros E. destruct (He amb) as [-> ->]. done.
  - split; [apply Hs|]. split.
    + intros E. destruct (Hs amb) as [-> ->]. done.
    + intros E. unfold iteracao_saida. by rewrite E.
  - done.
Qed.

Lemma turno_retorna self t :
  central_retorna t ->
  estado_de_laco (estado_entrada self) ->
  estado_de_laco (estado_saida self) ->
  estado_de_laco (estado_entrada (turno self t))
  /\ estado_de_laco (estado_saida (turno self t)).
Proof.
  intros Hr He Hs. pose proof (turno_estados self t) as (Hal & _).
  destruct t as [amb|amb|mudou]; simpl in *.
  - destruct Hal as [-> _]. split; [|exact Hs].
    unfold iteracao_entrada.
    destruct (estado_entrada self) eqn:E; try (rewrite E; exact He).
    + unfold _aguardar_veiculo_entrada.
      destruct (detectar_presenca _ _) as [[|] c]; simpl;
        unfold estado_de_laco; rewrite ?E; auto.
    + by apply _processar_entrada_retorna.
    + unfold estado_de_laco. simpl. auto.
  - destruct Hal as [-> _]. split; [exact He|].
    unfold iteracao_saida.
    destruct (estado_saida self) eqn:E; try (rewrite E; exact Hs).
    + unfold _aguardar_veiculo_saida.
      destruct (detectar_presenca _ _) as [[|] c]; simpl;
        unfold estado_de_laco; rewrite ?E; auto.
    + by apply _processar_saida_retorna.
    + unfold estado_de_laco. simpl. auto.
  - split; assumption.
Qed.

(** X28.  What holds of the ground-floor server between turns.  Starting from
    a new server and whatever order the event loop gives the entry machine,
    the exit machine and the slot monitor their turns, and whatever the
    sensors, the plate reader, the central server and the gates do: each
    machine is waiting, has a vehicle detected, is in error, or is in the
    state of sending, waiting for the central server.  It is in the last
    only when a call to the central server did not return, and then it
    stays there, its gate untouched, whatever turns follow; as long as
    every call returns, each machine is in one of the first three.
    Neither gate is left open; the board keeps its keys, its counter
    agrees with its flags and stays between 0 and the total, so that no
    call on it raises.  In hardware mode no vehicle is ever detected and
    no flag ever changes: the server stays exactly as it was built. *)
Theorem invariantes_do_terreo modo ee es ep cmin total ei turnos :
  0 <= total ->
  let self :=
    executar (servidor_terreo.__init__ modo ee es ep cmin total ei) turnos in
  estado_entre_turnos (estado_entrada self)
  /\ estado_entre_turnos (estado_saida self)
  /\ (Forall central_retorna turnos ->
      estado_de_laco (estado_entrada self)
      /\ estado_de_laco (estado_saida self))
  /\ (forall mais,
        (estado_entrada self = ENVIANDO_CENTRAL ->
         estado_entrada (executar self mais) = ENVIANDO_CENTRAL
         /\ cancela_entrada (executar self mais) = cancela_entrada self)
        /\ (estado_saida self = ENVIANDO_CENTRAL ->
            estado_saida (executar self mais) = ENVIANDO_CENTRAL
            /\ cancela_saida (executar self mais) = cancela_saida self))
  /\ cancela_em_repouso (cancela_entrada self)
  /\ cancela_em_repouso (cancela_saida self)
  /\ consistente (placar_service self)
  /\ total_vagas (placar_service self) = total
  /\ 0 <= vagas_livres (placar_service self) <= total
  /\ (modo = false ->
      self = servidor_terreo.__init__ modo ee es ep cmin total ei).
Proof.
  intros Ht self.
  assert (Hi : invariante self)
    by (apply executar_invariante, inicial_invariante; exact Ht).
  assert (Htot : total_vagas (placar_service self) = total).
  { unfold self, executar.
    set (s0 := servidor_terreo.__init__ modo ee es ep cmin total ei).
    assert (H0 : invariante s0 /\ total_vagas (placar_service s0) = total)
      by (split; [by apply inicial_invariante | done]).
    clearbody s0. clear self Hi. revert s0 H0.
    induction turnos as [|t ts IH]; intros s0 [Hi H0]; [done|].
    simpl. apply IH. split; [by apply turno_invariante|].
    rewrite <- H0. clear IH.
    destruct t as [amb|amb|mudou]; simpl.
    - unfold iteracao_entrada. destruct (estado_entrada s0); try done.
      + unfold _aguardar_veiculo_entrada, detectar_presenca.
        destruct (cancela_service.modo_simulacao _);
          [destruct (presenca_sorteada _)|]; done.
      + destruct Hi as (_ & _ & _ & _ & Hp & Ht0).
        destruct (marcar_vaga_ocupada_spec _ Hp Ht0)
          as (p' & Hm & _ & Ht' & _).
        unfold _processar_entrada. abrir_fluxo; simpl in *; simplify_eq;
          done.
    - unfold iteracao_saida. destruct (estado_saida s0); try done.
      + unfold _aguardar_veiculo_saida, detectar_presenca.
        destruct (cancela_service.modo_simulacao _);
          [destruct (presenca_sorteada _)|]; done.
      + destruct Hi as (_ & _ & _ & _ & Hp & Ht0).
        destruct (liberar_vaga_ocupada_spec _ Hp Ht0)
          as (p' & Hm & _ & Ht' & _).
        unfold _processar_saida. abrir_fluxo; simpl in *; simplify_eq;
          done.
    - unfold iteracao_vagas, atualizar_vagas.
      destruct (ler_sensores_vagas mudou (placar_service s0)) as [v []];
        done. }
  assert (Hret : Forall central_retorna turnos ->
                 estado_de_laco (estado_entrada self)
                 /\ estado_de_laco (estado_saida self)).
  { unfold self, executar.
    set (s0 := servidor_terreo.__init__ modo ee es ep cmin total ei).
    assert (H0 : estado_de_laco (estado_entrada s0)
                 /\ estado_de_laco (estado_saida s0))
      by (split; left; reflexivity).
    clearbody s0. clear self Hi Htot. revert s0 H0.
    induction turnos as [|t ts IH]; intros s0 [H1 H2] Hr; [done|].
    apply Forall_cons in Hr as [Hr Hrs]. simpl.
    apply IH; [|exact Hrs]. by apply turno_retorna. }
  assert (Hpreso : forall mais,
            (estado_entrada self = ENVIANDO_CENTRAL ->
             estado_entrada (executar self mais) = ENVIANDO_CENTRAL
             /\ cancela_entrada (executar self mais) = cancela_entrada self)
            /\ (estado_saida self = ENVIANDO_CENTRAL ->
                estado_saida (executar self mais) = ENVIANDO_CENTRAL
                /\ cancela_saida (executar self mais) = cancela_saida self)).
  { intros mais. unfold executar. generalize self. clear.
    induction mais as [|t ts IH]; intros s; [done|].
    simpl. destruct (turno_estados s t) as (_ & He & Hs).
    destruct (IH (turno s t)) as [IHe IHs]. split.
    - intros E. destruct (He E) as [E1 E2].
      destruct (IHe E1) as [-> ->]. done.
    - intros E. destruct (Hs E) as [E1 E2].
      destruct (IHs E1) as [-> ->]. done. }
  destruct Hi as (He & Hs & Ce & Cs & Hp & Ht').
  pose proof (vagas_livres_limites _ Hp Ht').
  (split; [|split; [|split; [|split; [|split; [|split; [|split;
     [|split; [|split]]]]]]]]);
    try done; [lia|].
  intros ->. unfold self, executar. clear -Ht.
  induction turnos as [|t ts IH]; [done|].
  simpl. rewrite turno_hardware; [exact IH | exact Ht].
Qed.

Lemma invariantes_do_terreo_witness :
  let self :=
    executar (servidor_terreo.__init__ true 1 2 3 (pyfloat.RN (8 # 10)) 8 0)
      [turno_entrada amb_terreo; turno_vagas (fun i => i =? 1);
       turno_entrada amb_terreo] in
  estado_entrada self = AGUARDANDO
  /\ vagas_livres (placar_service self) = 6
  /\ consistente (placar_service self)
  /\ cancela_em_repouso (cancela_entrada self).
Proof.
  intros self.
  destruct (invariantes_do_terreo true 1 2 3 (pyfloat.RN (8 # 10)) 8 0
              [turno_entrada amb_terreo; turno_vagas (fun i => i =? 1);
               turno_entrada amb_terreo] ltac:(lia))
    as (_ & _ & _ & _ & Hc & _ & Hp & _).
  fold self in Hc, Hp.
  split; [vm_compute; reflexivity|]. split; [vm_compute; reflexivity|].
  split; [exact Hp | exact Hc].
Defined.

(** Against a peer that never answers, the entry machine detects a
    vehicle, sends the event and stays in the state of sending through
    every later turn, with its gate closed. *)
Example terreo_preso_sem_resposta :
  let self :=
    executar terreo_novo
      [turno_entrada amb_terreo_sem_resposta;
       turno_entrada amb_terreo_sem_resposta;
       turno_entrada amb_terreo; turno_saida amb_terreo;
       turno_entrada amb_terreo_sem_resposta] in
  estado_entrada
    (executar terreo_novo [turno_entrada amb_terreo_sem_resposta])
  = DETECTOU_VEICULO
  /\ retornou (_processar_entrada amb_terreo_sem_resposta terreo_novo).2
     = false
  /\ estado_entrada self = ENVIANDO_CENTRAL
  /\ status (cancela_entrada self) = FECHADA.
Proof. vm_compute. auto. Qed.

Lemma criar_evento_novo placa tipo timestamp confianca andar :
  servidor_central.criar_evento
    (dicionarios.pedido_json
       (dicionarios.Evento_to_dict
          (evento.__init__ placa tipo timestamp confianca andar)))
  = inr (evento.__init__ placa tipo timestamp confianca andar).
Proof. by destruct tipo. Qed.

Lemma atender_resposta amb central ev :
  let r :=
    servidor_central._processar_evento amb central
      (dicionarios.pedido_json (dicionarios.Evento_to_dict ev)) in
  (atender amb central ev).1 = r.2
  /\ central_responde amb central ev =
       devolve (if servidor_central.escrita_ok amb then Some r.1 else None).
Proof.
  unfold central_responde, atender. simpl.
  unfold servidor_central.iteracao.
  destruct (servidor_central._processar_evento amb central _) as [r c].
  destruct (servidor_central.escrita_ok amb); simpl; done.
Qed.

Lemma central_entrada amb central placa t confianca :
  let ev :=
    evento.__init__ (evento.str placa) evento.ENTRADA t confianca "terreo" in
  let r :=
    servidor_central._processar_evento amb central
      (dicionarios.pedido_json (dicionarios.Evento_to_dict ev)) in
  let concedida :=
    servidor_central.estacionamento_fechado central = false
    /\ servidor_central.andar_bloqueado central = false
    /\ servidor_central.veiculos_estacionados central !! placa = None in
  (concedida ->
   evento.sucesso r.1 = true /\ evento.acao r.1 = evento.abrir_cancela
   /\ servidor_central.veiculos_estacionados r.2
      = <[placa := veiculo.__init__ placa t "terreo" None]>
          (servidor_central.veiculos_estacionados central))
  /\ (~ concedida ->
      evento.sucesso r.1 = false
      /\ servidor_central.veiculos_estacionados r.2
         = servidor_central.veiculos_estacionados central).
Proof.
  cbv zeta. unfold servidor_central._processar_evento.
  rewrite criar_evento_novo.
  destruct (servidor_central.estacionamento_fechado central);
    [simpl; split; [intros (? & _); discriminate | done]|].
  destruct (servidor_central.andar_bloqueado central);
    [simpl; split; [intros (_ & ? & _); discriminate | done]|].
  simpl. unfold servidor_central._processar_entrada. simpl.
  destruct (servidor_central.veiculos_estacionados central !! placa) eqn:Hv.
  - unfold servidor_central._salvar_evento.
    destruct (servidor_central.sqlite_eventos_ok amb); simpl;
      (split; [intros (_ & _ & ?); discriminate | done]).
  - unfold servidor_central._salvar_evento, servidor_central._salvar_veiculo.
    destruct (servidor_central.sqlite_eventos_ok amb),
      (servidor_central.sqlite_veiculos_ok amb); simpl;
      (split; [done | intros H; exfalso; apply H; done]).
Qed.

Lemma classic_concedida central placa :
  let concedida :=
    servidor_central.estacionamento_fechado central = false
    /\ servidor_central.andar_bloqueado central = false
    /\ servidor_central.veiculos_estacionados central !! placa = None in
  concedida \/ ~ concedida.
Proof.
  simpl. destruct (servidor_central.estacionamento_fechado central),
    (servidor_central.andar_bloqueado central),
    (servidor_central.veiculos_estacionados central !! placa);
    intuition discriminate.
Qed.

(** X29.  An entry from the lane to the central server and back.  For a
    validated plate and a central server reached over a connection, the
    entry gate cycle starts exactly when the lot is not closed, the floor is
    not blocked, the plate is not parked and the reply could be written;
    how many slots the lane's board has free plays no part, and on a full
    board a granted vehicle goes in with the board unchanged.  On a grant
    the central server files the plate as parked at the lane's timestamp
    before the lane hears of it: the plate stays filed when the reply is
    lost or the gate cycle fails, both of which leave the lane in its error
    state.  A refusal leaves the central server's parked map as it was and
    the lane in its error state with gate and board untouched; the lane
    never goes back to waiting without having run the gate cycle. *)
Theorem entrada_do_terreo_ao_central amb_t amb_c self central placa :
  placa_aceita amb_t self = Some placa ->
  _enviar_evento_central amb_t = central_responde amb_c central ->
  let ev :=
    evento.__init__ (evento.str placa) evento.ENTRADA
      (pytime.naive (agora amb_t)) (captura amb_t).2 "terreo" in
  let r := _processar_entrada amb_t self in
  let central' := (atender amb_c central ev).1 in
  let concedida :=
    servidor_central.estacionamento_fechado central = false
    /\ servidor_central.andar_bloqueado central = false
    /\ servidor_central.veiculos_estacionados central !! placa = None in
  let ciclo := ciclo_completo (cancela amb_t) (cancela_entrada self) in
  (ABRINDO_CANCELA ∈ estados r.2 <->
   concedida /\ servidor_central.escrita_ok amb_c = true)
  /\ (concedida ->
      servidor_central.veiculos_estacionados central'
      = <[placa := veiculo.__init__ placa (pytime.naive (agora amb_t))
                     "terreo" None]>
          (servidor_central.veiculos_estacionados central))
  /\ (~ concedida ->
      servidor_central.veiculos_estacionados central'
      = servidor_central.veiculos_estacionados central)
  /\ (ABRINDO_CANCELA ∉ estados r.2 ->
      estado_entrada r.1 = ERRO
      /\ cancela_entrada r.1 = cancela_entrada self
      /\ placar_service r.1 = placar_service self)
  /\ (ABRINDO_CANCELA ∈ estados r.2 ->
      cancela_entrada r.1 = ciclo.2
      /\ (ciclo.1 = false ->
          estado_entrada r.1 = ERRO
          /\ placar_service r.1 = placar_service self)
      /\ (ciclo.1 = true -> consistente (placar_service self) ->
          vagas_livres (placar_service self) = 0 ->
          0 <= total_vagas (placar_service self) ->
          estado_entrada r.1 = AGUARDANDO
          /\ placar_service r.1 = placar_service self))
  /\ retornou r.2 = true.
Proof.
  intros Hp Hrede ev r central' concedida ciclo.
  destruct (atender_resposta amb_c central ev) as [Hc' Hresp].
  destruct (central_entrada amb_c central placa (pytime.naive (agora amb_t))
              (captura amb_t).2) as [Hsim Hnao].
  fold ev concedida in Hsim, Hnao.
  unfold central'. rewrite Hc'.
  assert (Hr : r = _processar_entrada amb_t self) by done.
  unfold _processar_entrada in Hr. rewrite Hp, Hrede in Hr. fold ev in Hr.
  rewrite Hresp in Hr. fold ciclo in Hr.
  destruct (servidor_central.escrita_ok amb_c) eqn:Hesc.
  - destruct (classic_concedida central placa) as [Hcon|Hcon];
      fold concedida in Hcon.
    + destruct (Hsim Hcon) as (Hs & Ha & Hv).
      rewrite Hs, Ha in Hr. simpl in Hr.
      destruct ciclo as [[|] c] eqn:Hciclo; simpl in Hr.
      * destruct (marcar_vaga_ocupada (placar_service self)) as [p|] eqn:Hm;
          rewrite Hr; simpl; pertence;
          (split; [tauto|]); (split; [done|]); (split; [tauto|]);
          (split; [tauto|]); (split; [|done]); intros _; (split; [done|]);
          (split; [done|]); intros _ Hcons Hl Ht;
          destruct (marcar_vaga_ocupada_spec _ Hcons Ht)
            as (p' & Hm' & _ & _ & _ & Hig & _);
          rewrite Hm' in Hm; simplify_eq.
        rewrite (Hig Hl). by destruct self.
      * rewrite Hr; simpl; pertence.
        split; [tauto|]. split; [done|]. split; [tauto|].
        split; [tauto|]. split; [|done].
        intros _. split; [done|]. split; done.
    + destruct (Hnao Hcon) as (Hs & Hv). rewrite Hs in Hr. simpl in Hr.
      rewrite Hr; simpl; pertence.
      split; [intuition discriminate|]. split; [tauto|]. split; [done|].
      split; [done|]. split; [|done]. intuition discriminate.
  - rewrite Hr; simpl; pertence.
    split; [intuition discriminate|].
    split; [intros Hcon; apply (Hsim Hcon)|].
    split; [intros Hcon; apply (Hnao Hcon)|].
    split; [done|]. split; [|done]. intuition discriminate.
Qed.

Lemma entrada_do_terreo_ao_central_witness :
  placa_aceita amb_terreo terreo_novo = Some "ABC1234"
  /\ ABRINDO_CANCELA ∈ estados (_processar_entrada amb_terreo terreo_novo).2
  /\ is_Some
       (servidor_central.veiculos_estacionados
          (atender amb0 central_nova
             (evento.__init__ (evento.str "ABC1234") evento.ENTRADA
                (pytime.naive (agora amb_terreo)) (captura amb_terreo).2
                "terreo")).1
        !! "ABC1234").
Proof.
  assert (Hp : placa_aceita amb_terreo terreo_novo = Some "ABC1234")
    by (vm_compute; reflexivity).
  split; [exact Hp|].
  destruct (entrada_do_terreo_ao_central amb_terreo amb0 terreo_novo
              central_nova "ABC1234" Hp eq_refl) as (Ha & Hv & _).
  assert (Hc : servidor_central.estacionamento_fechado central_nova = false
               /\ servidor_central.andar_bloqueado central_nova = false
               /\ servidor_central.veiculos_estacionados central_nova
                    !! "ABC1234" = None)
    by (vm_compute; auto).
  split; [apply Ha; split; [exact Hc | reflexivity]|].
  rewrite (Hv Hc), lookup_insert_eq. eauto.
Defined.

(** The reply of the central server to an exit sent by the lane, whose
    timestamp is naive: a charge when the plate is parked with a naive
    entry timestamp, the error reply when it is parked with an
    offset-aware one, a refusal otherwise. *)
Lemma central_saida amb central placa t confianca :
  let agora := pytime.naive t in
  let ev :=
    evento.__init__ (evento.str placa) evento.SAIDA agora confianca
      "terreo" in
  let r :=
    servidor_central._processar_evento amb central
      (dicionarios.pedido_json (dicionarios.Evento_to_dict ev)) in
  (forall v,
     servidor_central.estacionamento_fechado central = false ->
     servidor_central.andar_bloqueado central = false ->
     servidor_central.veiculos_estacionados central !! placa = Some v ->
     pytime.utcoffset (veiculo.timestamp_entrada v) = None ->
     let minutos :=
       veiculo.minutos_do_delta
         (t - pytime.relogio (veiculo.timestamp_entrada v)) in
     veiculo.calcular_tempo_permanencia v agora = Some minutos
     /\ evento.sucesso r.1 = true /\ evento.acao r.1 = evento.cobrar_valor
     /\ evento.tempo_permanencia r.1 = Some minutos
     /\ evento.valor r.1
        = Some (pyfloat.max
                  (pyfloat.mul (pyfloat.of_int minutos)
                     (servidor_central.preco_por_minuto central))
                  (servidor_central.valor_minimo central))
     /\ servidor_central.veiculos_estacionados r.2
        = delete placa (servidor_central.veiculos_estacionados central))
  /\ (forall v,
        servidor_central.estacionamento_fechado central = false ->
        servidor_central.andar_bloqueado central = false ->
        servidor_central.veiculos_estacionados central !! placa = Some v ->
        is_Some (pytime.utcoffset (veiculo.timestamp_entrada v)) ->
        veiculo.calcular_tempo_permanencia v agora = None
        /\ evento.sucesso r.1 = false /\ evento.acao r.1 = evento.erro
        /\ evento.mensagem r.1
           = Some (evento.str_excecao evento.TypeError_naive_aware)
        /\ servidor_central.tabela_eventos r.2
           = servidor_central.tabela_eventos central
        /\ servidor_central.veiculos_estacionados r.2
           = <[placa := veiculo.set_timestamp_saida (Some agora) v]>
               (servidor_central.veiculos_estacionados central))
  /\ (servidor_central.estacionamento_fechado central = true
      \/ servidor_central.andar_bloqueado central = true
      \/ servidor_central.veiculos_estacionados central !! placa = None ->
      evento.sucesso r.1 = false
      /\ servidor_central.veiculos_estacionados r.2
         = servidor_central.veiculos_estacionados central).
Proof.
  cbv zeta. unfold servidor_central._processar_evento.
  rewrite criar_evento_novo.
  destruct (servidor_central.estacionamento_fechado central);
    [simpl; split; [intros; discriminate
                   | split; [intros; discriminate | done]]|].
  destruct (servidor_central.andar_bloqueado central);
    [simpl; split; [intros; discriminate
                   | split; [intros; discriminate | done]]|].
  cbn [andb evento.tipo evento.__init__].
  pose (ev := evento.__init__ (evento.str placa) evento.SAIDA
                (pytime.naive t) confianca "terreo").
  destruct (servidor_central.veiculos_estacionados central !! placa)
    as [v|] eqn:Hv.
  - split; [|split].
    + intros v' _ _ [= <-] Hn.
      assert (Hd : pytime.sub (pytime.naive t) (veiculo.timestamp_entrada v)
                   = Some (t - pytime.relogio (veiculo.timestamp_entrada v)))
        by (unfold pytime.sub; rewrite Hn; reflexivity).
      split; [exact (calcular_tempo_permanencia_delta _ _ _ Hd)|].
      pose proof (_processar_saida_cobra amb central ev placa v _
                    eq_refl Hv Hd) as Hc.
      cbv zeta in Hc. unfold ev in Hc. rewrite Hc. clear Hc.
      unfold servidor_central.except_Exception. 
      cbn [fst snd evento.sucesso evento.acao evento.tempo_permanencia
             evento.valor evento.mensagem servidor_central.retorna
             servidor_central.levanta].
      rewrite max_Qmax.
      pose proof (_salvar_evento_preserva amb
                    (servidor_central.set_veiculos_estacionados
                       (delete placa
                          (servidor_central.veiculos_estacionados central))
                       central)) as Hpres.
      unfold servidor_central._atualizar_veiculo.
      destruct (servidor_central.sqlite_veiculos_ok amb);
        cbn [servidor_central.veiculos_estacionados
               servidor_central.set_tabela_veiculos];
        repeat split; try reflexivity; apply Hpres.
    + intros v' _ _ [= <-] [o Ho].
      assert (Hd : pytime.sub (pytime.naive t) (veiculo.timestamp_entrada v)
                   = None)
        by (unfold pytime.sub; rewrite Ho; reflexivity).
      split; [unfold veiculo.calcular_tempo_permanencia; by rewrite Hd|].
      pose proof (_processar_saida_levanta amb central ev placa v
                    eq_refl Hv Hd) as Hc.
      unfold ev in Hc. rewrite Hc. clear Hc.
      unfold servidor_central.except_Exception. 
      cbn [fst snd evento.sucesso evento.acao evento.tempo_permanencia
             evento.valor evento.mensagem servidor_central.retorna
             servidor_central.levanta servidor_central.resposta]. done.
    + intros [H|[H|H]]; discriminate H.
  - pose proof (_processar_saida_ausente amb central ev placa eq_refl Hv)
      as Hc.
    unfold ev in Hc. rewrite Hc. clear Hc.
    unfold servidor_central.except_Exception.
      cbn [fst snd evento.sucesso evento.acao evento.tempo_permanencia
             evento.valor evento.mensagem servidor_central.retorna
             servidor_central.levanta servidor_central.resposta].
    pose proof (_salvar_evento_preserva amb central) as Hpres.
    split; [intros; discriminate|]. split; [intros; discriminate|].
    intros _. split; [reflexivity | apply Hpres].
Qed.

(** X30.  An exit from the lane to the central server and back.  For a
    validated plate, the exit gate cycle starts exactly when the lot is not
    closed, the floor is not blocked, the plate is parked with a naive
    entry timestamp, as every entry of a lane has, and the reply could be
    written.  The central server then has removed the plate, and the reply
    charges the larger of the minimum fee and the float product of the
    minutes of the stay by the rate, so that the amount the lane formats
    is never missing.  When the plate is parked with an offset-aware entry
    timestamp, the subtraction raises at the central server: the reply is
    [erro], the plate stays parked with the lane's timestamp as its exit
    timestamp, and the lane ends in its error state without touching the
    gate.  After a gate cycle that succeeded the lane frees one slot of a
    consistent board and goes back to waiting; after one that failed, and
    after a refusal, an error reply or a lost reply, it is in its error
    state with the board untouched.  A lost reply or a failed gate cycle
    leaves the plate removed at the central server all the same. *)
Theorem saida_do_terreo_ao_central amb_t amb_c self central placa :
  placa_aceita amb_t self = Some placa ->
  _enviar_evento_central amb_t = central_responde amb_c central ->
  let agora := pytime.naive (agora amb_t) in
  let ev :=
    evento.__init__ (evento.str placa) evento.SAIDA agora (captura amb_t).2
      "terreo" in
  let r := _processar_saida amb_t self in
  let central' := (atender amb_c central ev).1 in
  let aberto :=
    servidor_central.estacionamento_fechado central = false
    /\ servidor_central.andar_bloqueado central = false in
  let estacionado := servidor_central.veiculos_estacionados central !! placa in
  let cobravel :=
    exists v,
      estacionado = Some v
      /\ pytime.utcoffset (veiculo.timestamp_entrada v) = None in
  let ciclo := ciclo_completo (cancela amb_t) (cancela_saida self) in
  (ABRINDO_CANCELA ∈ estados r.2 <->
   aberto /\ cobravel /\ servidor_central.escrita_ok amb_c = true)
  /\ (forall v,
        aberto -> estacionado = Some v ->
        pytime.utcoffset (veiculo.timestamp_entrada v) = None ->
        servidor_central.veiculos_estacionados central'
        = delete placa (servidor_central.veiculos_estacionados central)
        /\ (servidor_central.escrita_ok amb_c = true ->
            exists resp minutos,
              central_responde amb_c central ev = devolve (Some resp)
              /\ veiculo.calcular_tempo_permanencia v agora = Some minutos
              /\ evento.tempo_permanencia resp = Some minutos
              /\ evento.valor resp
                 = Some (pyfloat.max
                           (pyfloat.mul (pyfloat.of_int minutos)
                              (servidor_central.preco_por_minuto central))
                           (servidor_central.valor_minimo central))))
  /\ (forall v,
        aberto -> estacionado = Some v ->
        is_Some (pytime.utcoffset (veiculo.timestamp_entrada v)) ->
        servidor_central.veiculos_estacionados central'
        = <[placa := veiculo.set_timestamp_saida (Some agora) v]>
            (servidor_central.veiculos_estacionados central)
        /\ servidor_central.tabela_eventos central'
           = servidor_central.tabela_eventos central
        /\ (servidor_central.escrita_ok amb_c = true ->
            exists resp,
              central_responde amb_c central ev = devolve (Some resp)
              /\ evento.sucesso resp = false
              /\ evento.acao resp = evento.erro))
  /\ (~ (aberto /\ is_Some estacionado) ->
      servidor_central.veiculos_estacionados central'
      = servidor_central.veiculos_estacionados central)
  /\ (ABRINDO_CANCELA ∉ estados r.2 ->
      estado_saida r.1 = ERRO
      /\ cancela_saida r.1 = cancela_saida self
      /\ placar_service r.1 = placar_service self)
  /\ (ABRINDO_CANCELA ∈ estados r.2 ->
      cancela_saida r.1 = ciclo.2
      /\ (ciclo.1 = false ->
          estado_saida r.1 = ERRO
          /\ placar_service r.1 = placar_service self)
      /\ (ciclo.1 = true -> consistente (placar_service self) ->
          0 <= total_vagas (placar_service self) ->
          estado_saida r.1 = AGUARDANDO
          /\ vagas_livres (placar_service r.1)
             = Z.min (total_vagas (placar_service self))
                 (vagas_livres (placar_service self) + 1)))
  /\ retornou r.2 = true.
Proof.
  intros Hp Hrede agora ev r central' aberto estacionado cobravel ciclo.
  destruct (atender_resposta amb_c central ev) as [Hc' Hresp].
  destruct (central_saida amb_c central placa (servidor_terreo.agora amb_t)
              (captura amb_t).2) as (Hsim & Herr & Hnao).
  fold agora in Hsim, Herr, Hnao. fold ev in Hsim, Herr, Hnao.
  unfold central'. rewrite Hc'.
  assert (Hr : r = _processar_saida amb_t self) by done.
  unfold _processar_saida in Hr. rewrite Hp, Hrede in Hr.
  fold agora in Hr. fold ev in Hr.
  rewrite Hresp in *. fold ciclo in Hr.
  set (resp := servidor_central._processar_evento amb_c central
                 (dicionarios.pedido_json (dicionarios.Evento_to_dict ev)))
    in *.
  assert (Hcasos :
    (aberto /\ exists v, estacionado = Some v
                         /\ pytime.utcoffset (veiculo.timestamp_entrada v)
                            = None)
    \/ (aberto /\ exists v, estacionado = Some v
                            /\ is_Some (pytime.utcoffset
                                          (veiculo.timestamp_entrada v)))
    \/ (servidor_central.estacionamento_fechado central = true
        \/ servidor_central.andar_bloqueado central = true
        \/ estacionado = None)).
  { unfold aberto, estacionado.
    destruct (servidor_central.estacionamento_fechado central);
      [right; right; left; reflexivity|].
    destruct (servidor_central.andar_bloqueado central);
      [right; right; right; left; reflexivity|].
    destruct (servidor_central.veiculos_estacionados central !! placa)
      as [v|]; [|right; right; right; right; reflexivity].
    destruct (pytime.utcoffset (veiculo.timestamp_entrada v)) eqn:Ho.
    - right; left. split; [split; reflexivity|]. exists v.
      split; [reflexivity|]. rewrite Ho. by eexists.
    - left. split; [split; reflexivity|]. exists v. done. }
  (* the outcomes that do not start the gate cycle *)
  assert (Hsem :
    evento.sucesso resp.1 = false
    \/ servidor_central.escrita_ok amb_c = false ->
    r = (set_estado_saida ERRO self,
         {| estados := [CAPTURANDO_PLACA; ENVIANDO_CENTRAL; ERRO];
            enviado := Some ev;
            retornou := true |})).
  { intros H. destruct (servidor_central.escrita_ok amb_c);
      [|exact Hr].
    destruct H as [H|H]; [|discriminate H]. rewrite H in Hr. exact Hr. }
  destruct Hcasos as [[Hab (v & Hv & Ho)]|[[Hab (v & Hv & Ho)]|Hcon]].
  - (* charged *)
    destruct Hab as [Hf Hb]. unfold estacionado in *.
    destruct (Hsim v Hf Hb Hv Ho) as (Hcalc & Hs & Ha & Htp & Hval & Hmap).
    assert (Hab : aberto) by done.
    assert (Hcob : cobravel) by (exists v; done).
    assert (Hnerr : forall v',
              servidor_central.veiculos_estacionados central !! placa
              = Some v' ->
              is_Some (pytime.utcoffset (veiculo.timestamp_entrada v')) ->
              False).
    { intros v' Hv' [o Ho']. assert (v' = v) as -> by congruence.
      congruence. }
    destruct (servidor_central.escrita_ok amb_c) eqn:Hesc.
    + rewrite Hs, Ha, Hval in Hr. simpl in Hr.
      destruct ciclo as [[|] c] eqn:Hciclo; simpl in Hr.
      * destruct (liberar_vaga_ocupada (placar_service self)) as [p|] eqn:Hm;
          rewrite Hr; simpl; pertence;
          (split; [split; [auto | tauto]|]);
          (split; [intros v' _ Hv' _; split; [done|]; intros _;
                   assert (v' = v) as -> by congruence; eauto 10|]);
          (split; [intros v' _ Hv' Ho'; destruct (Hnerr v' Hv' Ho')|]);
          (split; [intros Hn; exfalso; apply Hn; eauto|]);
          (split; [tauto|]); (split; [|done]); intros _; (split; [done|]);
          (split; [done|]); intros _ Hcons Ht;
          destruct (liberar_vaga_ocupada_spec _ Hcons Ht)
            as (p' & Hm' & _ & _ & Hl & _);
          rewrite Hm' in Hm; simplify_eq.
        split; [done | exact Hl].
      * rewrite Hr; simpl; pertence.
        split; [split; [auto | tauto]|].
        split; [intros v' _ Hv' _; split; [done|]; intros _;
                assert (v' = v) as -> by congruence; eauto 10|].
        split; [intros v' _ Hv' Ho'; destruct (Hnerr v' Hv' Ho')|].
        split; [intros Hn; exfalso; apply Hn; eauto|].
        split; [tauto|]. split; [|done].
        intros _. split; [done|]. split; done.
    + rewrite (Hsem (or_intror eq_refl)); simpl; pertence.
      split; [intuition discriminate|].
      split; [intros v' _ Hv' _; split; [done | discriminate]|].
      split; [intros v' _ Hv' Ho'; destruct (Hnerr v' Hv' Ho')|].
      split; [intros Hn; exfalso; apply Hn; eauto|].
      split; [done|]. split; [|done]. intuition discriminate.
  - (* the subtraction raises at the central server *)
    destruct Hab as [Hf Hb]. unfold estacionado in *.
    destruct (Herr v Hf Hb Hv Ho) as (Hcalc & Hs & Ha & Hmsg & Htab & Hmap).
    assert (Hab : aberto) by done.
    assert (Hncob : ~ cobravel).
    { intros (v' & Hv' & Ho'). assert (v' = v) as -> by congruence.
      destruct Ho as [o Ho]. congruence. }
    rewrite (Hsem (or_introl Hs)); simpl; pertence.
    split; [split; [intuition discriminate | tauto]|].
    split.
    { intros v' _ Hv' Ho'. exfalso. apply Hncob. exists v'. done. }
    split.
    { intros v' _ Hv' _. assert (v' = v) as -> by congruence.
      split; [exact Hmap|]. split; [exact Htab|].
      intros ->. exists resp.1. done. }
    split; [intros Hn; exfalso; apply Hn; eauto|].
    split; [done|]. split; [|done]. intuition discriminate.
  - (* refused *)
    destruct (Hnao Hcon) as (Hs & Hmap).
    assert (Hexcl : aberto -> is_Some estacionado -> False).
    { intros (H1 & H2) [v H3]. destruct Hcon as [H|[H|H]]; congruence. }
    rewrite (Hsem (or_introl Hs)); simpl; pertence.
    split; [split; [intuition discriminate|]|].
    { intros (H1 & (v & H2 & _) & _). exfalso. apply Hexcl; eauto. }
    split; [intros v' H1 H2; exfalso; apply Hexcl; eauto|].
    split; [intros v' H1 H2; exfalso; apply Hexcl; eauto|].
    split; [done|]. split; [done|]. split; [|done]. intuition discriminate.
Qed.

Lemma saida_do_terreo_ao_central_witness :
  placa_aceita amb_terreo_saida terreo_novo = Some "ABC1234"
  /\ ABRINDO_CANCELA
       ∈ estados (_processar_saida amb_terreo_saida terreo_novo).2
  /\ servidor_central.veiculos_estacionados
       (atender amb0 central_com_ABC1234
          (evento.__init__ (evento.str "ABC1234") evento.SAIDA
             (pytime.naive (agora amb_terreo_saida))
             (captura amb_terreo_saida).2 "terreo")).1
     !! "ABC1234" = None.
Proof.
  assert (Hp : placa_aceita amb_terreo_saida terreo_novo = Some "ABC1234")
    by (vm_compute; reflexivity).
  split; [exact Hp|].
  destruct (saida_do_terreo_ao_central amb_terreo_saida amb0 terreo_novo
              central_com_ABC1234 "ABC1234" Hp eq_refl) as (Ha & Hv & _).
  assert (Hab : servidor_central.estacionamento_fechado central_com_ABC1234
                = false
                /\ servidor_central.andar_bloqueado central_com_ABC1234
                   = false)
    by (vm_compute; auto).
  assert (Hest : servidor_central.veiculos_estacionados central_com_ABC1234
                   !! "ABC1234" = Some veiculo_ABC1234)
    by (vm_compute; reflexivity).
  split.
  - apply Ha. split; [exact Hab|].
    split; [exists veiculo_ABC1234; split; [exact Hest | reflexivity]
           | reflexivity].
  - destruct (Hv veiculo_ABC1234 Hab Hest eq_refl) as [Hm _].
    rewrite Hm. apply lookup_delete_eq.
Defined.

(** A plate filed with an offset-aware entry timestamp, as a client other
    than the lane can send, cannot leave through the lane: the exit is
    answered [erro], the gate stays closed and the plate stays parked. *)
Example saida_do_terreo_com_offset :
  let entrada := pytime.com_offset 0 (pytime.on_2024_01_01 10 0 0) in
  let central :=
    (servidor_central._processar_evento amb0 central_nova
       (pedido "ABC1234" "entrada" entrada)).2 in
  let amb :=
    {| servidor_terreo.unicode := unicode amb_terreo_saida;
       captura := captura amb_terreo_saida;
       agora := agora amb_terreo_saida;
       _enviar_evento_central := central_responde amb0 central;
       cancela := cancela amb_terreo_saida |} in
  let ev :=
    evento.__init__ (evento.str "ABC1234") evento.SAIDA
      (pytime.naive (agora amb)) (captura amb).2 "terreo" in
  let r := _processar_saida amb terreo_novo in
  estados r.2 = [CAPTURANDO_PLACA; ENVIANDO_CENTRAL; ERRO]
  /\ estado_saida r.1 = ERRO
  /\ cancela_saida r.1 = cancela_saida terreo_novo
  /\ enviado r.2 = Some ev
  /\ central_responde amb0 central ev
     = devolve
         (Some (servidor_central.resposta
                  (evento.id_local (servidor_central.agora amb0)) false
                  evento.erro
                  (evento.str_excecao evento.TypeError_naive_aware)))
  /\ servidor_central.veiculos_estacionados (atender amb0 central ev).1
       !! "ABC1234"
     = Some (veiculo.set_timestamp_saida (Some (pytime.naive (agora amb)))
               (veiculo.__init__ "ABC1234" entrada "terreo" None)).
Proof. vm_compute. repeat split. Qed.

End mais_terreo.
